(** * Deploy engine: Docker service

    A shallow embedding of the Docker part of the deploy engine
    ([services/docker/index.ts], [image-builder.ts], [container.ts],
    [exec.ts] and the naming helpers of [types.ts]) together with the
    properties its specification states about it.

    Conventions of the embedding.
    - JavaScript strings are [string]s; the built-in string methods the
      code calls ([split], [join], [trim], [toUpperCase], [toLowerCase],
      [startsWith], [includes], [slice], [replace] with the one regular
      expression the code uses) are defined in module [JS] for strings in
      the ASCII range ([JS.isAscii]), where white space is the six ASCII
      white-space characters and the letters with another case are [a-z]
      and [A-Z].  Outside that range the built-ins do more (white space and
      case mappings of Unicode); a statement that depends on them there
      says that its input is ASCII.
    - Port numbers and counts are [N], printed in decimal as a template
      literal prints a non-negative integer.
    - Everything the engine does to the outside (runtime commands, files,
      log sink, stream processes, HTTP probes, sleeping) is threaded through
      an explicit [World] and recorded in its trace, together with what the
      engine observed (exit status, HTTP status).
    - The container runtime, the probed endpoint, the date parser, the JSON
      parser, [path.join] and the order in which the JavaScript engine
      leaves an array sorted with an inconsistent comparator are parameters
      ([Env]).  A runtime command never touches the files of the source
      tree; the log sink never throws; writing and removing a regular file
      succeeds; reading a path that is not a regular file throws.  Time is
      counted by a clock that advances while the health check fetches and
      sleeps.
    - Every call returns: a [docker] process closes or fails to start, and
      a [fetch] settles after a finite time, which has no bound.  The code
      sets no timeout on either; a run in which one of them never settles
      does not return and is not described here. *)

From Stdlib Require Import ZArith NArith String Ascii List Bool Lia Sorted Permutation.
From Stdlib Require Import DecimalString DecimalN DecimalPos.
From stdpp Require Import gmap strings list fin_maps.

Local Open Scope string_scope.
Local Open Scope list_scope.

(** ** JavaScript built-ins used by the engine *)

Module JS.

Definition nl : ascii := "010"%char.
Definition tab : ascii := "009"%char.
Definition dq : string := String "034"%char "".

(** The strings on which the definitions of this module are the built-ins
    of JavaScript: every character is in the ASCII range. *)
Fixpoint isAscii (s : string) : bool :=
  match s with
  | "" => true
  | String c s' => (nat_of_ascii c <? 128)%nat && isAscii s'
  end.

(** Template-literal printing of a non-negative integer. *)
Definition show (n : N) : string := NilEmpty.string_of_uint (N.to_uint n).

Definition isDigit (c : ascii) : bool :=
  match c with
  | "0" | "1" | "2" | "3" | "4" | "5" | "6" | "7" | "8" | "9" => true
  | _ => false
  end%char.

(** The white space of the ASCII range: space, tab, line feed, vertical
    tab, form feed and carriage return. *)
Definition isSpace (c : ascii) : bool := Ascii.is_space c.

(** [toUpperCase] on an ASCII string: the letters [a-z] change. *)
Definition upper (c : ascii) : ascii :=
  let n := nat_of_ascii c in
  if (97 <=? n)%nat && (n <=? 122)%nat then ascii_of_nat (n - 32) else c.

Fixpoint toUpperCase (s : string) : string :=
  match s with
  | "" => ""
  | String c s' => String (upper c) (toUpperCase s')
  end.

Fixpoint dropWhile (f : ascii -> bool) (s : string) : string :=
  match s with
  | "" => ""
  | String c s' => if f c then dropWhile f s' else s
  end.

Definition isEmpty (s : string) : bool :=
  match s with "" => true | _ => false end.

(** [trimStart], [trimEnd] and [trim] on an ASCII string. *)
Definition trimStart (s : string) : string := dropWhile isSpace s.

Fixpoint trimEnd (s : string) : string :=
  match s with
  | "" => ""
  | String c s' =>
      let r := trimEnd s' in
      if isSpace c && isEmpty r then "" else String c r
  end.

Definition trim (s : string) : string := trimEnd (trimStart s).

Definition startsWith (s p : string) : bool := String.prefix p s.

Fixpoint includes (s sub : string) : bool :=
  String.prefix sub s ||
  match s with
  | "" => false
  | String _ s' => includes s' sub
  end.

(** [s.split(c)] for a one-character separator: never the empty list. *)
Fixpoint split (c : ascii) (s : string) : list string :=
  match s with
  | "" => [""]
  | String a s' =>
      if Ascii.eqb a c then "" :: split c s'
      else match split c s' with
           | field :: rest => String a field :: rest
           | [] => [String a ""]
           end
  end.

(** [l.join(c)]. *)
Fixpoint join (c : ascii) (l : list string) : string :=
  match l with
  | [] => ""
  | [s] => s
  | s :: l' => s +:+ String c (join c l')
  end.

(** [s.split(/\s+/)] on an ASCII string: every maximal run of white space
    is one separator; a run at either end leaves an empty first or last
    field.  [inRun] says that the previous character was white space. *)
Fixpoint splitWsGo (s : string) (inRun : bool) : list string :=
  match s with
  | "" => [""]
  | String a s' =>
      if isSpace a then
        if inRun then splitWsGo s' true else "" :: splitWsGo s' true
      else match splitWsGo s' false with
           | field :: rest => String a field :: rest
           | [] => [String a ""]
           end
  end.
Definition splitWs (s : string) : list string := splitWsGo s false.

Fixpoint contains (c : ascii) (s : string) : bool :=
  match s with
  | "" => false
  | String a s' => Ascii.eqb a c || contains c s'
  end.

(** [s.slice(0, n)]. *)
Definition slice0 (n : nat) (s : string) : string := substring 0 n s.

(** [Boolean(s)] for a string. *)
Definition truthy (s : string) : bool := negb (isEmpty s).

End JS.

(** ** image-builder.ts: sanitising a user-supplied Dockerfile *)

(** One attempt of [/PORT\s*=?\s*\d+/i] at the start of [s]; the result is
    what follows the match.  Each quantifier is greedy and none can give
    back a character the next one accepts, so the attempt is deterministic. *)
Definition matchPortAssign (s : string) : option string :=
  match s with
  | String p (String o (String r (String t rest))) =>
      if (Ascii.eqb (JS.upper p) "P" && Ascii.eqb (JS.upper o) "O" &&
          Ascii.eqb (JS.upper r) "R" && Ascii.eqb (JS.upper t) "T")%char
      then
        let r1 := JS.dropWhile JS.isSpace rest in
        let r2 := match r1 with String "="%char r' => r' | _ => r1 end in
        let r3 := JS.dropWhile JS.isSpace r2 in
        match r3 with
        | String d _ => if JS.isDigit d then Some (JS.dropWhile JS.isDigit r3) else None
        | "" => None
        end
      else None
  | _ => None
  end.

(** [line.replace(/PORT\s*=?\s*\d+/i, `PORT=${internalPort}`)]: the leftmost
    match is replaced, a line without a match is returned as it is. *)
Fixpoint replacePort (line : string) (internalPort : N) : string :=
  match matchPortAssign line with
  | Some rest => "PORT=" +:+ JS.show internalPort +:+ rest
  | None =>
      match line with
      | "" => ""
      | String c s' => String c (replacePort s' internalPort)
      end
  end.

Definition trimmedLine (line : string) : string := JS.toUpperCase (JS.trim line).

Definition isExposeLine (line : string) : bool :=
  JS.startsWith (trimmedLine line) "EXPOSE ".

Definition isPortEnvLine (line : string) : bool :=
  JS.startsWith (trimmedLine line) "ENV " && JS.includes (trimmedLine line) "PORT".

Definition isDangerousLine (line : string) : bool :=
  JS.startsWith (trimmedLine line) "USER ROOT" ||
  JS.includes (trimmedLine line) "--PRIVILEGED" ||
  JS.includes (trimmedLine line) "DOCKER.SOCK".

(** The callback of [lines.map] in [sanitizeDockerfile]. *)
Definition sanitizeLine (internalPort : N) (line : string) : string :=
  if isExposeLine line then "EXPOSE " +:+ JS.show internalPort
  else if isPortEnvLine line then replacePort line internalPort
  else if isDangerousLine line then "# REMOVED FOR SECURITY: " +:+ line
  else line.

Definition isCmdLine (l : string) : bool :=
  JS.startsWith (trimmedLine l) "CMD" || JS.startsWith (trimmedLine l) "ENTRYPOINT".

(** [lines.splice(i, 0, x)] at the index [findIndex] returns, [lines.push(x)]
    when it returns -1. *)
Fixpoint insertBeforeCmd (x : string) (lines : list string) : list string :=
  match lines with
  | [] => [x]
  | l :: ls => if isCmdLine l then x :: l :: ls else l :: insertBeforeCmd x ls
  end.

Definition sanitizeLines (lines : list string) (internalPort : N) : list string :=
  let hasExpose := existsb isExposeLine lines in
  let hasPortEnv :=
    existsb (fun l => negb (isExposeLine l) && isPortEnvLine l) lines in
  let lines1 := map (sanitizeLine internalPort) lines in
  let lines2 :=
    if hasExpose then lines1 else lines1 ++ ["EXPOSE " +:+ JS.show internalPort] in
  if hasPortEnv then lines2
  else insertBeforeCmd ("ENV PORT=" +:+ JS.show internalPort) lines2.

Definition sanitizeDockerfile (content : string) (internalPort : N) : string :=
  JS.join JS.nl (sanitizeLines (JS.split JS.nl content) internalPort).


(** A recipe that already exposes exactly the assigned port: it has an
    EXPOSE line, and each of its EXPOSE lines reads [EXPOSE <port>]. *)
Definition exposesOnly (content : string) (port : N) : bool :=
  let lines := JS.split JS.nl content in
  existsb isExposeLine lines &&
  forallb (fun l => negb (isExposeLine l) || String.eqb l ("EXPOSE " +:+ JS.show port))
          lines.

(** The text that the leftmost match of [/PORT\s*=?\s*\d+/i] covers in a
    line, if the line has a match. *)
Fixpoint portAssignment (line : string) : option string :=
  match matchPortAssign line with
  | Some rest => Some (JS.slice0 (String.length line - String.length rest) line)
  | None =>
      match line with
      | "" => None
      | String _ s' => portAssignment s'
      end
  end.

(** A recipe that already sets the port variable to the assigned port, the
    way the sanitiser sets it: it has an ENV line that mentions PORT, and on
    each such line the first assignment of a number to PORT, if there is
    one, reads [PORT=<port>]. *)
Definition setsPortTo (content : string) (port : N) : bool :=
  let lines := JS.split JS.nl content in
  existsb (fun l => negb (isExposeLine l) && isPortEnvLine l) lines &&
  forallb (fun l => negb (negb (isExposeLine l) && isPortEnvLine l)
                    || match portAssignment l with
                       | Some text => String.eqb text ("PORT=" +:+ JS.show port)
                       | None => true
                       end) lines.

(** A recipe without an instruction that the sanitiser comments out: the
    test for those is made on the lines that are neither an EXPOSE line nor
    an ENV line that mentions PORT. *)
Definition harmless (content : string) : bool :=
  forallb (fun l => isExposeLine l || isPortEnvLine l || negb (isDangerousLine l))
          (JS.split JS.nl content).

(** ** types.ts: naming conventions and shared records *)

Definition getContainerName (projectId : string) : string :=
  "thakur-" +:+ JS.slice0 8 projectId.

Definition getImageName (projectId buildId : string) : string :=
  "thakur-deploy/" +:+ JS.slice0 8 projectId +:+ ":" +:+ JS.slice0 8 buildId.

Inductive AppType := nextjs | vite | express | hono | elysia.

Definition appTypeName (t : AppType) : string :=
  match t with
  | nextjs => "nextjs" | vite => "vite" | express => "express"
  | hono => "hono" | elysia => "elysia"
  end.

Record ContainerConfig := {
  cfgProjectId : string;
  cfgBuildId : string;
  cfgImageName : string;
  cfgContainerName : string;
  cfgHostPort : N;
  cfgInternalPort : N;
  cfgEnvVars : list (string * string);
  cfgMemoryLimit : string;
  cfgCpuLimit : string;
  cfgWorkDir : string
}.

Record BuildResult := {
  buildSuccess : bool;
  buildImageName : string;
  buildError : option string
}.

Record RunResult := {
  runSuccess : bool;
  runContainerId : string;
  runError : option string
}.

Record DeployResult := {
  success : bool;
  containerId : option string;
  error : option string
}.

Record ContainerInfo := {
  infoId : string;
  infoName : string;
  infoStatus : string
}.

Record ManagedContainer := {
  containerName : string;
  projectId : string;
  buildId : string
}.

Definition DEFAULT_MEMORY : string := "512m".
Definition DEFAULT_CPUS : string := "0.5".

Definition DEFAULT_INTERNAL_PORT : N := 3000.
Definition VITE_INTERNAL_PORT : N := 80.

(** ** image-builder.ts: recipe templates *)

Definition ENTRY_PATTERNS : list string :=
  ["src/index.ts"; "src/index.js"; "src/server.ts"; "src/server.js";
   "index.ts"; "index.js"; "server.ts"; "server.js"].

Definition staticTemplate : string :=
  "FROM nginx:alpine
COPY dist/ /usr/share/nginx/html
EXPOSE 80
CMD [" +:+ JS.dq +:+ "nginx" +:+ JS.dq +:+ ", " +:+ JS.dq +:+ "-g" +:+ JS.dq
  +:+ ", " +:+ JS.dq +:+ "daemon off;" +:+ JS.dq +:+ "]".

Definition bunTemplate (internalPort : N) (cmd : string) : string :=
  "FROM oven/bun:1-alpine AS builder
WORKDIR /app
COPY package.json ./
RUN bun install
COPY . .

FROM oven/bun:1-alpine
WORKDIR /app
COPY --from=builder /app .
ENV NODE_ENV=production
ENV PORT=" +:+ JS.show internalPort +:+ "
EXPOSE " +:+ JS.show internalPort +:+ "
" +:+ cmd.

Definition bunRun (target : string) : string :=
  let q := JS.dq in
  "CMD [" +:+ q +:+ "bun" +:+ q +:+ ", " +:+ q +:+ "run" +:+ q +:+ ", "
    +:+ q +:+ target +:+ q +:+ "]".

(** [entryFile ? `CMD ["bun", "run", "${entryFile}"]` : `CMD ["bun", "run", "start"]`];
    an absent and an empty entry file are both falsy. *)
Definition startCmd (entryFile : option string) : string :=
  match entryFile with
  | Some f => if JS.truthy f then bunRun f else bunRun "start"
  | None => bunRun "start"
  end.

Definition getDockerfileContent
    (framework : AppType) (internalPort : N) (entryFile : option string) : string :=
  let cmd := startCmd entryFile in
  match framework with
  | vite => staticTemplate
  | nextjs => bunTemplate internalPort cmd
  | _ => bunTemplate internalPort cmd
  end.

(** ** image-builder.ts: the listing parsed by [pruneProjectImages] *)

Record Image := { imgName : string; imgDate : string }.

Definition parseImageLine (line : string) : Image :=
  match JS.split " " line with
  | name :: dateParts => {| imgName := name; imgDate := JS.join " " dateParts |}
  | [] => {| imgName := ""; imgDate := "" |}
  end.

(** ** container.ts: the listing parsed by [listRunningContainers] *)

Definition parseContainerLine (line : string) : option ManagedContainer :=
  match JS.splitWs line with
  | c :: p :: b :: _ => Some {| containerName := c; projectId := p; buildId := b |}
  | _ => None
  end.

Definition keepContainer (c : option ManagedContainer) : bool :=
  match c with
  | Some m => JS.truthy (projectId m) && JS.truthy (buildId m)
  | None => false
  end.

Definition parseContainerList (stdout : string) : list ManagedContainer :=
  omap id
    (List.filter keepContainer
       (map parseContainerLine
          (List.filter JS.truthy (JS.split JS.nl stdout)))).

(** ** The outside world

    The container runtime, the HTTP endpoint probed by the health check, the
    date parser, the JSON parser and the sorting routine of the JavaScript
    engine are not part of the deploy engine.  They are parameters of the
    development ([Env]): the theorems hold for every behaviour of theirs. *)

(** What a spawned [docker] process does before the promise of exec.ts
    settles: it delivers chunks of output on its two streams and closes
    with an exit code ([None] is [null]), or it cannot run and emits
    [error] with a message. *)
Inductive Chunk :=
| Out (data : string)
| Err (data : string).

Inductive Spawned :=
| Closed (code : option Z) (output : list Chunk)
| SpawnFailed (message : string).

Definition onStdout (c : Chunk) : string :=
  match c with
  | Out data => data
  | Err _ => ""
  end.

Definition onStderr (c : Chunk) : string :=
  match c with
  | Out _ => ""
  | Err data => data
  end.

Definition dataOf (c : Chunk) : string :=
  match c with
  | Out data => data
  | Err data => data
  end.

(** [stdout += data.toString()] over the chunks of one stream. *)
Definition collected (stream : Chunk -> string) (output : list Chunk) : string :=
  foldr (fun c rest => stream c +:+ rest) "" output.

(** [code ?? 1], and 1 for a process that could not run. *)
Definition exitOf (p : Spawned) : Z :=
  match p with
  | Closed code _ => default 1%Z code
  | SpawnFailed _ => 1%Z
  end.

(** Everything the process wrote to its standard output. *)
Definition printed (p : Spawned) : string :=
  match p with
  | Closed _ output => collected onStdout output
  | SpawnFailed _ => ""
  end.

Record ExecResult := {
  exitCode : Z;
  stdout : string;
  stderr : string
}.

(** What [execDocker] resolves with: on [close] the trimmed output of
    the two streams, on [error] the message. *)
Definition buffered (p : Spawned) : ExecResult :=
  match p with
  | Closed code output =>
      {| exitCode := default 1%Z code;
         stdout := JS.trim (collected onStdout output);
         stderr := JS.trim (collected onStderr output) |}
  | SpawnFailed message => {| exitCode := 1; stdout := ""; stderr := message |}
  end.

(** [lastError] of [execDockerWithStream]: the last chunk of the error
    stream, the empty string when there was none. *)
Definition lastError (output : list Chunk) : string :=
  foldl (fun last c => match c with
                       | Out _ => last
                       | Err data => data
                       end) "" output.

(** The [error] that [execDockerWithStream] resolves with: [None] is
    [undefined]. *)
Definition streamError (p : Spawned) : option string :=
  match p with
  | Closed (Some 0%Z) _ => None
  | Closed _ output => Some (lastError output)
  | SpawnFailed message => Some message
  end.

(** What one [fetch] does: it resolves with a status or rejects ([None]),
    after [took] milliseconds.  The code gives [fetch] no timeout, so no
    number bounds [took]. *)
Record FetchOutcome := {
  status : option N;
  took : N
}.

(** What the engine does to the outside, with what it observes in return:
    the exit status of a runtime command, the status of a probe. *)
Inductive Event :=
| EvDocker (args : list string) (exit : Z)
| EvLog (build message level : string)
| EvConsole (message : string)
| EvWriteFile (path content : string)
| EvUnlink (path : string)
| EvSpawnLogs (handle : nat) (container build : string)
| EvKill (handle : nat)
| EvFetch (port : N) (answer : option N)
| EvSleep (ms : Z).

#[global] Instance Event_eq_dec : EqDecision Event.
Proof. solve_decision. Defined.

(** The collaborators the engine calls but does not implement. *)
Class Env := {
  Runtime : Type;
  (** The [docker] command line: argument vector, the files it can see and
      the runtime's state in; what the process does and the new state out. *)
  docker : list string -> gmap string string -> Runtime -> Spawned * Runtime;
  (** [fetch(`http://localhost:${port}`)], issued at the given time. *)
  fetch : N -> Z -> Runtime -> FetchOutcome * Runtime;
  (** [new Date(s).getTime()]; [None] is NaN (an invalid date). *)
  getTime : string -> option Z;
  (** [!!JSON.parse(content).scripts?.start], [false] when parsing throws. *)
  jsonHasStartScript : string -> bool;
  (** [path.join]. *)
  join : string -> string -> string;
  (** [Array.prototype.sort] on the images when the comparator of
      [pruneProjectImages] is not consistent on them: the order is the
      JavaScript engine's own; the array keeps its elements. *)
  engineSort : list Image -> list Image;
  engineSort_perm : forall l, Permutation (engineSort l) l
}.

Section Engine.

Context {E : Env}.

Record World := {
  runtime : Runtime;
  files : gmap string string;      (* regular files: path to content *)
  dirs : gset string;              (* directories *)
  logStreamers : gmap string nat;  (* [_logStreamers]: project to the handle its cleanup kills *)
  active : gset nat;               (* stream handles whose cleanup has not been called *)
  nextHandle : nat;
  clock : Z;                       (* [Date.now()], in milliseconds *)
  trace : list Event               (* what the engine did, oldest first *)
}.

Definition M (A : Type) : Type := World -> A * World.

Definition ret {A} (a : A) : M A := fun w => (a, w).
Definition bind {A B} (m : M A) (k : A -> M B) : M B :=
  fun w => let (a, w') := m w in k a w'.

Notation "x <- m ;; k" := (bind m (fun x => k))
  (at level 100, m at next level, right associativity, only parsing).
Notation "m ;;; k" := (bind m (fun _ => k))
  (at level 100, k at level 200, right associativity, only parsing).

Definition emit (e : Event) : M unit := fun w =>
  (tt, {| runtime := runtime w; files := files w; dirs := dirs w;
          logStreamers := logStreamers w; active := active w;
          nextHandle := nextHandle w; clock := clock w;
          trace := trace w ++ [e] |}).

Definition setRuntime (r : Runtime) : M unit := fun w =>
  (tt, {| runtime := r; files := files w; dirs := dirs w;
          logStreamers := logStreamers w; active := active w;
          nextHandle := nextHandle w; clock := clock w; trace := trace w |}).

Definition setFiles (f : gmap string string) : M unit := fun w =>
  (tt, {| runtime := runtime w; files := f; dirs := dirs w;
          logStreamers := logStreamers w; active := active w;
          nextHandle := nextHandle w; clock := clock w; trace := trace w |}).

Definition setStreams (m : gmap string nat) (a : gset nat) (n : nat) : M unit := fun w =>
  (tt, {| runtime := runtime w; files := files w; dirs := dirs w;
          logStreamers := m; active := a;
          nextHandle := n; clock := clock w; trace := trace w |}).

Definition advance (ms : Z) : M unit := fun w =>
  (tt, {| runtime := runtime w; files := files w; dirs := dirs w;
          logStreamers := logStreamers w; active := active w;
          nextHandle := nextHandle w; clock := clock w + ms; trace := trace w |}).

Definition theWorld : M World := fun w => (w, w).

Fixpoint forEach {A} (l : list A) (f : A -> M unit) : M unit :=
  match l with
  | [] => ret tt
  | x :: l' => f x ;;; forEach l' f
  end.

(** *** exec.ts and log-service.ts *)

(** [spawn('docker', args, ...)] as both functions of exec.ts use it: the
    process runs, and the engine observes how it ends. *)
Definition spawnDocker (args : list string) : M Spawned :=
  w <- theWorld ;;
  let (p, rt) := docker args (files w) (runtime w) in
  emit (EvDocker args (exitOf p)) ;;;
  setRuntime rt ;;; ret p.

(** [execDocker] of exec.ts: the promise resolves on [close] with the
    trimmed output and the exit code, on [error] with a failed result; it
    never rejects. *)
Definition execDocker (args : list string) : M ExecResult :=
  p <- spawnDocker args ;;
  ret (buffered p).

(** [execDockerWithStream] of exec.ts: every chunk of either stream is
    split into lines, the empty ones are dropped and the others handed to
    the callback; the result carries the exit code and, unless that is 0,
    the last chunk of the error stream. *)
Definition execDockerWithStream (args : list string) (onOutput : string -> M unit)
  : M (Z * option string) :=
  p <- spawnDocker args ;;
  match p with
  | Closed code output =>
      forEach output (fun c =>
        forEach (List.filter JS.truthy (JS.split JS.nl (dataOf c))) onOutput) ;;;
      ret (exitOf p, streamError p)
  | SpawnFailed message => ret (exitOf p, streamError p)
  end.

(** Modelled from the spec: [LogService.stream] of log-service.ts, the
    caller's log sink; it records the line and does not fail. *)
Definition LogService_stream (build message level : string) : M unit :=
  emit (EvLog build message level).

Definition console_log (message : string) : M unit := emit (EvConsole message).

(** *** fs *)

Definition existsSync (path : string) : M bool := fun w =>
  (bool_decide (path ∈ dom (files w)) || bool_decide (path ∈ dirs w), w).

(** [None] when the call throws (no such file, or a directory). *)
Definition readFileSync (path : string) : M (option string) := fun w =>
  (files w !! path, w).

Definition writeFile (path content : string) : M unit :=
  emit (EvWriteFile path content) ;;;
  w <- theWorld ;;
  setFiles (<[path := content]> (files w)).

(** [unlink(path).catch(() => {})]: a rejection changes nothing. *)
Definition unlink (path : string) : M unit :=
  emit (EvUnlink path) ;;;
  w <- theWorld ;;
  setFiles (delete path (files w)).

(** *** container.ts *)

Definition lookupEnv (key : string) (envVars : list (string * string)) : option string :=
  snd <$> List.find (fun kv : string * string => String.eqb (fst kv) key) envVars.

Definition envFlagsOf (envVars : list (string * string)) (internalPort : N) : list string :=
  let envFlags :=
    flat_map (fun kv : string * string => ["-e"; fst kv +:+ "=" +:+ snd kv]) envVars in
  match lookupEnv "PORT" envVars with
  | Some v => if JS.truthy v then envFlags
              else envFlags ++ ["-e"; "PORT=" +:+ JS.show internalPort]
  | None => envFlags ++ ["-e"; "PORT=" +:+ JS.show internalPort]
  end.

Definition runArgs (config : ContainerConfig) : list string :=
  ["run"; "-d"; "--name"; cfgContainerName config;
   "-p"; JS.show (cfgHostPort config) +:+ ":" +:+ JS.show (cfgInternalPort config);
   "--restart"; "unless-stopped";
   "--memory"; cfgMemoryLimit config;
   "--cpus"; cfgCpuLimit config;
   "--label"; "thakur.projectId=" +:+ cfgProjectId config;
   "--label"; "thakur.buildId=" +:+ cfgBuildId config;
   "-e"; "NODE_ENV=production"]
  ++ envFlagsOf (cfgEnvVars config) (cfgInternalPort config)
  ++ [cfgImageName config].

Definition orElse (s fallback : string) : string :=
  if JS.truthy s then s else fallback.

(** [e || fallback] for a string that may be [undefined]. *)
Definition orElseOpt (e : option string) (fallback : string) : string :=
  match e with
  | Some s => orElse s fallback
  | None => fallback
  end.

Definition runContainer (config : ContainerConfig) : M RunResult :=
  result <- execDocker (runArgs config) ;;
  if negb (exitCode result =? 0)%Z then
    ret {| runSuccess := false; runContainerId := "";
           runError := Some (orElse (stderr result) "Failed to start container") |}
  else
    ret {| runSuccess := true; runContainerId := JS.trim (stdout result);
           runError := None |}.

Definition stopContainer (containerName : string) (timeout : N) : M bool :=
  result <- execDocker ["stop"; "-t"; JS.show timeout; containerName] ;;
  ret (exitCode result =? 0)%Z.

Definition removeContainer (containerName : string) (force : bool) : M bool :=
  let args := if force then ["rm"; "-f"; containerName] else ["rm"; containerName] in
  result <- execDocker args ;;
  ret (exitCode result =? 0)%Z.

Definition stopAndRemoveContainer (containerName : string) : M bool :=
  stopContainer containerName 10 ;;;
  removeContainer containerName true.

Definition getContainerInfo (containerName : string) : M (option ContainerInfo) :=
  result <- execDocker ["inspect"; "--format"; "{{.Id}} {{.State.Status}}"; containerName] ;;
  if negb (exitCode result =? 0)%Z then ret None
  else
    let parts := JS.split " " (stdout result) in
    ret (Some {| infoId := nth 0 parts ""; infoName := containerName;
                 infoStatus := nth 1 parts "" |}).

Definition containerExists (containerName : string) : M bool :=
  result <- execDocker ["container"; "inspect"; containerName] ;;
  ret (exitCode result =? 0)%Z.

Definition isContainerRunning (containerName : string) : M bool :=
  info <- getContainerInfo containerName ;;
  ret (match info with
       | Some i => String.eqb (infoStatus i) "running"
       | None => false
       end).

Definition getContainerLogs (containerName : string) (tail : N) : M string :=
  result <- execDocker ["logs"; "--tail"; JS.show tail; containerName] ;;
  ret (stdout result +:+ stderr result).

(** [streamContainerLogs]: spawns [docker logs -f --tail 0 name] and returns
    the cleanup closure, here the handle that [kill] terminates.  The lines
    the process delivers later go to [LogService.stream] for [build]. *)
Definition streamContainerLogs (containerName build : string) : M nat :=
  w <- theWorld ;;
  let h := nextHandle w in
  emit (EvSpawnLogs h containerName build) ;;;
  setStreams (logStreamers w) ({[h]} ∪ active w) (S h) ;;;
  ret h.

(** Calling the cleanup closure: [proc.kill('SIGTERM')]. *)
Definition kill (h : nat) : M unit :=
  emit (EvKill h) ;;;
  w <- theWorld ;;
  setStreams (logStreamers w) (active w ∖ {[h]}) (nextHandle w).

Definition ensureContainerStopped (projectId : string) : M unit :=
  let containerName := getContainerName projectId in
  present <- containerExists containerName ;;
  if present then stopAndRemoveContainer containerName ;;; ret tt
  else ret tt.

(** The arguments of the listing: name and the two management labels of
    every running container that carries the project label. *)
Definition psArgs : list string :=
  ["ps"; "--format";
   "{{.Names}} {{.Label " +:+ JS.dq +:+ "thakur.projectId" +:+ JS.dq
     +:+ "}} {{.Label " +:+ JS.dq +:+ "thakur.buildId" +:+ JS.dq +:+ "}}";
   "--filter"; "label=thakur.projectId"].

Definition listRunningContainers : M (list ManagedContainer) :=
  result <- execDocker psArgs ;;
  if negb (exitCode result =? 0)%Z then ret []
  else ret (parseContainerList (stdout result)).

(** *** image-builder.ts *)

Fixpoint detectEntryIn (sourceDir : string) (patterns : list string) : M (option string) :=
  match patterns with
  | [] => ret None
  | pattern :: rest =>
      present <- existsSync (join sourceDir pattern) ;;
      if present then ret (Some pattern) else detectEntryIn sourceDir rest
  end.

Definition detectEntryFile (sourceDir : string) : M (option string) :=
  detectEntryIn sourceDir ENTRY_PATTERNS.

Definition hasStartScript (sourceDir : string) : M bool :=
  let pkgPath := join sourceDir "package.json" in
  present <- existsSync pkgPath ;;
  if negb present then ret false
  else
    content <- readFileSync pkgPath ;;
    ret (match content with
         | Some c => jsonHasStartScript c
         | None => false
         end).

Definition callLog (onLog : option (string -> M unit)) (message : string) : M unit :=
  match onLog with
  | Some f => f message
  | None => ret tt
  end.

(** What a call of [buildImage] comes to: the promise resolves with a
    [BuildResult], or it rejects because [readFileSync] threw. *)
Inductive BuildOutcome :=
| Resolved (r : BuildResult)
| Rejected (message : string).

Definition buildImage
    (projectId buildId sourceDir : string) (framework : AppType)
    (internalPort : N) (onLog : option (string -> M unit)) : M BuildOutcome :=
  let imageName := getImageName projectId buildId in
  let dockerfilePath := join sourceDir "Dockerfile" in
  sourceThere <- existsSync sourceDir ;;
  if negb sourceThere then
    ret (Resolved {| buildSuccess := false; buildImageName := imageName;
                     buildError := Some ("Source directory not found: " +:+ sourceDir) |})
  else
    recipeThere <- existsSync dockerfilePath ;;
    prepared <-
      (if recipeThere then
         original <- readFileSync dockerfilePath ;;
         match original with
         | None => ret (Some "EISDIR: illegal operation on a directory, read")
         | Some originalContent =>
             let sanitizedContent := sanitizeDockerfile originalContent internalPort in
             (if negb (String.eqb originalContent sanitizedContent) then
                writeFile dockerfilePath sanitizedContent ;;;
                callLog onLog "Using existing Dockerfile (sanitized for security)"
              else callLog onLog "Using existing Dockerfile") ;;;
             ret None
         end
       else
         scripted <- hasStartScript sourceDir ;;
         entryFile <-
           (if negb scripted then
              found <- detectEntryFile sourceDir ;;
              match found with
              | Some f => callLog onLog ("Detected entry file: " +:+ f) ;;; ret (Some f)
              | None =>
                  callLog onLog "Warning: No start script or entry file found" ;;;
                  ret None
              end
            else ret None) ;;
         let content := getDockerfileContent framework internalPort entryFile in
         writeFile dockerfilePath content ;;;
         callLog onLog ("Generated Dockerfile for " +:+ appTypeName framework) ;;;
         ret None) ;;
    match prepared with
    | Some thrown => ret (Rejected thrown)
    | None =>
        callLog onLog ("Building Docker image: " +:+ imageName) ;;;
        result <- execDockerWithStream ["build"; "-t"; imageName; sourceDir]
                    (fun line => callLog onLog line) ;;
        stillThere <- existsSync dockerfilePath ;;
        (if stillThere then unlink dockerfilePath else ret tt) ;;;
        if negb (fst result =? 0)%Z then
          ret (Resolved {| buildSuccess := false; buildImageName := imageName;
                           buildError := Some (orElseOpt (snd result) "Docker build failed") |})
        else
          callLog onLog ("Image built successfully: " +:+ imageName) ;;;
          ret (Resolved {| buildSuccess := true; buildImageName := imageName;
                           buildError := None |})
    end.

Definition removeImage (imageName : string) : M bool :=
  result <- execDocker ["rmi"; "-f"; imageName] ;;
  ret (exitCode result =? 0)%Z.

(** The comparator of [pruneProjectImages]:
    [new Date(b.date).getTime() - new Date(a.date).getTime()]; a NaN
    result counts as 0, as [Array.prototype.sort] prescribes. *)
Definition compareImages (a b : Image) : Z :=
  match getTime (imgDate b), getTime (imgDate a) with
  | Some tb, Some ta => tb - ta
  | _, _ => 0
  end.

(** A stable sort by [compareImages]: an element goes before the first
    one it does not compare greater than. *)
Fixpoint insertImage (x : Image) (l : list Image) : list Image :=
  match l with
  | [] => [x]
  | y :: l' => if (0 <? compareImages x y)%Z then y :: insertImage x l' else x :: l
  end.

Definition hasDate (a : Image) : bool :=
  match getTime (imgDate a) with
  | Some _ => true
  | None => false
  end.

(** The comparator is a consistent one on [l] when every date is valid, or
    when it finds no two images different (some date is invalid and the
    valid ones are equal). *)
Definition consistentOn (l : list Image) : bool :=
  forallb hasDate l
  || forallb (fun a => forallb (fun b => (compareImages a b =? 0)%Z) l) l.

(** [images.sort(compare)]: [Array.prototype.sort] is stable and, with a
    consistent comparator, leaves the array in the one order that is
    sorted and keeps equal elements in place; with an inconsistent one the
    order is the engine's. *)
Definition sortImages (l : list Image) : list Image :=
  if consistentOn l then foldr insertImage [] l else engineSort l.

Definition listedImages (stdout : string) : list Image :=
  sortImages (map parseImageLine (JS.split JS.nl stdout)).

(** The arguments of the image listing: every image whose reference
    matches the project's prefix, with its creation time. *)
Definition imagesArgs (projectId : string) : list string :=
  let prefix := "thakur-deploy/" +:+ JS.slice0 8 projectId in
  ["images"; "--format"; "{{.Repository}}:{{.Tag}} {{.CreatedAt}}";
   "--filter"; "reference=" +:+ prefix +:+ ":*"].

Definition pruneProjectImages (projectId : string) (keepCount : nat) : M unit :=
  result <- execDocker (imagesArgs projectId) ;;
  if negb (exitCode result =? 0)%Z || negb (JS.truthy (stdout result)) then ret tt
  else
    let images := listedImages (stdout result) in
    let toRemove := drop keepCount images in
    forEach toRemove (fun img => removeImage (imgName img) ;;; ret tt).


(** *** index.ts: DockerService *)

(** [appType === 'vite' ? VITE_INTERNAL_PORT : DEFAULT_INTERNAL_PORT], the
    first thing [deploy] computes. *)
Definition internalPortFor (appType : AppType) : N :=
  match appType with
  | vite => VITE_INTERNAL_PORT
  | _ => DEFAULT_INTERNAL_PORT
  end.

(** [res.ok || res.status < 500] for a resolved [fetch]; a rejected one is
    caught and counts as not ready. *)
Definition respondsHealthy (o : FetchOutcome) : bool :=
  match status o with
  | Some s => ((200 <=? s) && (s <=? 299) || (s <? 500))%N
  | None => false
  end.

(** [await fetch(`http://localhost:${port}`)] inside the [try] of the
    loop: the call settles, after the time the endpoint takes, and the
    clock has moved on by then.  The code passes no timeout or abort
    signal, so that time is the endpoint's alone. *)
Definition doFetch (port : N) : M FetchOutcome :=
  w <- theWorld ;;
  let (o, rt) := fetch port (clock w) (runtime w) in
  emit (EvFetch port (status o)) ;;;
  setRuntime rt ;;; advance (Z.of_N (took o)) ;;; ret o.

(** [await new Promise((r) => setTimeout(r, ms))]. *)
Definition sleep (ms : Z) : M unit := emit (EvSleep ms) ;;; advance ms.

Definition now : M Z := fun w => (clock w, w).

(** The [while] loop of [waitForHealthy]; [None] when [fuel] iterations do
    not finish it. *)
Fixpoint waitLoop (fuel : nat) (port : N) (start timeoutMs : Z) : M (option bool) :=
  match fuel with
  | O => ret None
  | S fuel' =>
      t <- now ;;
      if (t - start <? timeoutMs)%Z then
        res <- doFetch port ;;
        if respondsHealthy res then ret (Some true)
        else sleep 500 ;;; waitLoop fuel' port start timeoutMs
      else ret (Some false)
  end.

(** Every iteration but the last sleeps 500 ms, so this many suffice. *)
Definition waitFuel (timeoutMs : Z) : nat := Z.to_nat (timeoutMs / 500) + 2.

Definition waitForHealthy (port : N) (timeoutMs : Z) : M bool :=
  start <- now ;;
  r <- waitLoop (waitFuel timeoutMs) port start timeoutMs ;;
  ret (default false r).

Definition stopLogStreaming (projectId : string) : M unit :=
  w <- theWorld ;;
  match logStreamers w !! projectId with
  | Some cleanup =>
      kill cleanup ;;;
      w' <- theWorld ;;
      setStreams (delete projectId (logStreamers w')) (active w') (nextHandle w')
  | None => ret tt
  end.

Definition startLogStreaming (projectId buildId : string) : M unit :=
  stopLogStreaming projectId ;;;
  let containerName := getContainerName projectId in
  cleanup <- streamContainerLogs containerName buildId ;;
  w <- theWorld ;;
  setStreams (<[projectId := cleanup]> (logStreamers w)) (active w) (nextHandle w).

Definition deploy
    (projectId buildId sourceDir : string) (hostPort : N) (appType : AppType)
    (envVars : list (string * string)) : M DeployResult :=
  let containerName := getContainerName projectId in
  let internalPort := internalPortFor appType in
  LogService_stream buildId "Preparing container environment..." "info" ;;;
  ensureContainerStopped projectId ;;;
  LogService_stream buildId "Building Docker image..." "info" ;;;
  outcome <- buildImage projectId buildId sourceDir appType internalPort
               (Some (fun msg => LogService_stream buildId msg "info")) ;;
  match outcome with
  | Rejected message =>
      LogService_stream buildId ("Deployment error: " +:+ message) "error" ;;;
      ret {| success := false; containerId := None; error := Some message |}
  | Resolved buildResult =>
      if negb (buildSuccess buildResult) then
        LogService_stream buildId
          ("Image build failed: " +:+ default "undefined" (buildError buildResult))
          "error" ;;;
        ret {| success := false; containerId := None; error := buildError buildResult |}
      else
        LogService_stream buildId "Starting container..." "info" ;;;
        let config :=
          {| cfgProjectId := projectId; cfgBuildId := buildId;
             cfgImageName := buildImageName buildResult;
             cfgContainerName := containerName;
             cfgHostPort := hostPort; cfgInternalPort := internalPort;
             cfgEnvVars := envVars;
             cfgMemoryLimit := DEFAULT_MEMORY; cfgCpuLimit := DEFAULT_CPUS;
             cfgWorkDir := sourceDir |} in
        runResult <- runContainer config ;;
        if negb (runSuccess runResult) then
          LogService_stream buildId
            ("Container failed to start: " +:+ default "undefined" (runError runResult))
            "error" ;;;
          ret {| success := false; containerId := None; error := runError runResult |}
        else
          LogService_stream buildId ("Container started: " +:+ containerName) "info" ;;;
          LogService_stream buildId "Performing health check..." "info" ;;;
          healthy <- waitForHealthy hostPort 15000 ;;
          if negb healthy then
            logs <- getContainerLogs containerName 50 ;;
            LogService_stream buildId
              ("Container logs:" +:+ String JS.nl logs) "warning" ;;;
            LogService_stream buildId "Health check failed" "error" ;;;
            stopAndRemoveContainer containerName ;;;
            ret {| success := false; containerId := None;
                   error := Some "Health check failed" |}
          else
            LogService_stream buildId "Container deployed successfully!" "success" ;;;
            pruneProjectImages projectId 3 ;;;
            startLogStreaming projectId buildId ;;;
            ret {| success := true; containerId := Some (runContainerId runResult);
                   error := None |}
  end.

Definition stop (projectId : string) (buildId : option string) : M bool :=
  stopLogStreaming projectId ;;;
  let containerName := getContainerName projectId in
  let announce :=
    match buildId with
    | Some b => if JS.truthy b then Some b else None
    | None => None
    end in
  match announce with
  | Some b => LogService_stream b "Stopping container..." "info"
  | None => ret tt
  end ;;;
  result <- stopAndRemoveContainer containerName ;;
  match announce with
  | Some b => if result then LogService_stream b "Container stopped" "success" else ret tt
  | None => ret tt
  end ;;;
  ret result.

Definition cleanup (projectId : string) (buildIds : option (list string)) : M unit :=
  stopLogStreaming projectId ;;;
  ensureContainerStopped projectId ;;;
  match buildIds with
  | Some ids =>
      forEach ids (fun buildId => removeImage (getImageName projectId buildId) ;;; ret tt)
  | None => ret tt
  end.

Definition isRunning (projectId : string) : M bool :=
  isContainerRunning (getContainerName projectId).

Definition getLogs (projectId : string) (tail : N) : M string :=
  getContainerLogs (getContainerName projectId) tail.

Definition recoverLogStreams : M unit :=
  console_log "[DockerService] Recovering log streams for running containers..." ;;;
  containers <- listRunningContainers ;;
  forEach containers (fun c => startLogStreaming (projectId c) (buildId c)) ;;;
  console_log ("[DockerService] Recovered log streams for "
               +:+ JS.show (N.of_nat (length containers)) +:+ " containers").

(** The polls the health check makes if nothing stops it: state of the
    endpoint and time at which poll [k] is issued, and what it answers. *)
Fixpoint pollState (port : N) (k : nat) (rt : Runtime) (t : Z) : Runtime * Z :=
  match k with
  | O => (rt, t)
  | S k' =>
      let (o, rt') := fetch port t rt in
      pollState port k' rt' (t + Z.of_N (took o) + 500)
  end.

Fixpoint pollEventsFrom (port : N) (n : nat) (rt : Runtime) (t : Z) : list Event :=
  match n with
  | O => []
  | S n' =>
      let (o, rt') := fetch port t rt in
      EvFetch port (status o) :: EvSleep 500
        :: pollEventsFrom port n' rt' (t + Z.of_N (took o) + 500)
  end.

(** [n] polls, each followed by the pause before the next one. *)
Definition pollEvents (port : N) (n : nat) (w : World) : list Event :=
  pollEventsFrom port n (runtime w) (clock w).

Definition pollTime (port : N) (k : nat) (w : World) : Z :=
  snd (pollState port k (runtime w) (clock w)).

Definition pollOutcome (port : N) (k : nat) (w : World) : FetchOutcome :=
  let (rt, t) := pollState port k (runtime w) (clock w) in
  fst (fetch port t rt).

(** *** Describing a run

    [wp m w Q]: running [m] in [w] gives a result and a world that satisfy
    [Q].  [steps w w' evs]: the engine has done [evs] and has left the
    directories and the registry of log streams alone.  [quiet w w' evs]:
    moreover it has written no file and no time has passed. *)

Definition wp {A} (m : M A) (w : World) (Q : A -> World -> Prop) : Prop :=
  Q (fst (m w)) (snd (m w)).

Record steps (w w' : World) (evs : list Event) : Prop := {
  steps_dirs : dirs w' = dirs w;
  steps_streams : logStreamers w' = logStreamers w;
  steps_active : active w' = active w;
  steps_next : nextHandle w' = nextHandle w;
  steps_trace : trace w' = trace w ++ evs
}.

Record quiet (w w' : World) (evs : list Event) : Prop := {
  quiet_steps : steps w w' evs;
  quiet_files : files w' = files w;
  quiet_clock : clock w' = clock w
}.

(** The commands by which a container is looked up and torn down. *)
Definition teardownEvent (name : string) (e : Event) : Prop :=
  exists x, e = EvDocker ["container"; "inspect"; name] x
            \/ e = EvDocker ["stop"; "-t"; "10"; name] x
            \/ e = EvDocker ["rm"; "-f"; name] x.

Definition isLog (e : Event) : bool :=
  match e with
  | EvLog _ _ _ => true
  | _ => false
  end.

(** What is left of a run when the lines sent to the log sink are set
    aside. *)
Definition effects (evs : list Event) : list Event :=
  List.filter (fun e => negb (isLog e)) evs.

(** A log callback is a sink: it may record lines, and does nothing else. *)
Definition sink (onLog : option (string -> M unit)) : Prop :=
  forall f, onLog = Some f -> forall msg w,
    wp (f msg) w (fun _ w' => exists evs,
      quiet w w' evs /\ effects evs = [] /\ runtime w' = runtime w).

Definition existsIn (w : World) (path : string) : bool :=
  bool_decide (path ∈ dom (files w)) || bool_decide (path ∈ dirs w).

Definition buildArgs (projectId buildId sourceDir : string) : list string :=
  ["build"; "-t"; getImageName projectId buildId; sourceDir].

(** The [BuildResult] that [buildImage] makes of the exit status and the
    error text of the build. *)
Definition buildResultOf (imageName : string) (x : Z) (err : option string) : BuildResult :=
  if negb (x =? 0)%Z then
    {| buildSuccess := false; buildImageName := imageName;
       buildError := Some (orElseOpt err "Docker build failed") |}
  else
    {| buildSuccess := true; buildImageName := imageName; buildError := None |}.

(** The entry file that [buildImage] puts into a synthesised recipe. *)
Definition entryFor (sourceDir : string) (w : World) : option string :=
  if fst (hasStartScript sourceDir w) then None
  else fst (detectEntryFile sourceDir w).

(** What [buildImage] does besides logging, and what it returns, when the
    source directory exists and no directory is in the place of the
    recipe: [recipe] is written first unless [written] is [false]. *)
Definition buildRun (projectId buildId sourceDir : string)
    (written : bool) (recipe : string) (w : World)
    (out : BuildOutcome) (w' : World) (evs : list Event) : Prop :=
  let path := join sourceDir "Dockerfile" in
  let fs := if written then <[path := recipe]> (files w) else files w in
  let r := docker (buildArgs projectId buildId sourceDir) fs (runtime w) in
  effects evs
    = (if written then [EvWriteFile path recipe] else [])
      ++ [EvDocker (buildArgs projectId buildId sourceDir) (exitOf (fst r));
          EvUnlink path] /\
  files w' = delete path (files w) /\
  runtime w' = snd r /\
  out = Resolved (buildResultOf (getImageName projectId buildId)
                    (exitOf (fst r)) (streamError (fst r))).

(** Only lines for the log sink were produced between [w] and [w']. *)
Definition logged (w w' : World) : Prop :=
  exists evs, quiet w w' evs /\ effects evs = [] /\ runtime w' = runtime w.

(** The configuration that [deploy] hands to [runContainer]. *)
Definition deployConfig (projectId buildId sourceDir : string) (hostPort : N)
    (appType : AppType) (envVars : list (string * string)) : ContainerConfig :=
  {| cfgProjectId := projectId; cfgBuildId := buildId;
     cfgImageName := getImageName projectId buildId;
     cfgContainerName := getContainerName projectId;
     cfgHostPort := hostPort; cfgInternalPort := internalPortFor appType;
     cfgEnvVars := envVars;
     cfgMemoryLimit := DEFAULT_MEMORY; cfgCpuLimit := DEFAULT_CPUS;
     cfgWorkDir := sourceDir |}.

Definition healthyAnswer (a : option N) : bool :=
  match a with
  | Some s => (s <? 500)%N
  | None => false
  end.

(** A pause of the health check, or a poll of it that was not answered
    with a status below 500. *)
Definition unansweredPoll (port : N) (e : Event) : Prop :=
  e = EvSleep 500 \/ exists a, e = EvFetch port a /\ healthyAnswer a = false.

Definition recipeWrite (path : string) (e : Event) : Prop :=
  exists content, e = EvWriteFile path content.

Definition registryKept (w w' : World) : Prop :=
  logStreamers w' = logStreamers w /\ active w' = active w /\
  nextHandle w' = nextHandle w.

(** The runtime can end the command [args] with exit status [x], and the
    endpoint can answer a probe of [port] with [a]. *)
Definition answered (args : list string) (x : Z) : Prop :=
  exists fs rt, x = exitOf (fst (docker args fs rt)).

Definition replied (port : N) (a : option N) : Prop :=
  exists t rt, a = status (fst (fetch port t rt)).

(** The five ways a call of [deploy] can go, by what it did besides
    logging ([effects]), what it returned and what became of the registry
    of log streams; with what made it go that way: the source directory or
    the recipe could not be read, or the runtime or the endpoint answered
    so. *)
Inductive deployRun (p b dir : string) (host : N) (app : AppType)
    (env : list (string * string)) (w : World)
    (res : DeployResult) (w' : World) (evs : list Event) : Prop :=
| NotBuilt (td : list Event) :
    Forall (teardownEvent (getContainerName p)) td ->
    effects evs = td ->
    success res = false -> registryKept w w' ->
    existsIn w dir = false \/
      (files w !! join dir "Dockerfile" = None /\ join dir "Dockerfile" ∈ dirs w) ->
    deployRun p b dir host app env w res w' evs
| BuildFailed (td recipe : list Event) (x : Z) :
    Forall (teardownEvent (getContainerName p)) td ->
    Forall (recipeWrite (join dir "Dockerfile")) recipe ->
    effects evs = td ++ recipe
                  ++ [EvDocker (buildArgs p b dir) x; EvUnlink (join dir "Dockerfile")] ->
    x <> 0%Z ->
    success res = false -> registryKept w w' ->
    answered (buildArgs p b dir) x ->
    deployRun p b dir host app env w res w' evs
| StartFailed (td recipe : list Event) (y : Z) :
    Forall (teardownEvent (getContainerName p)) td ->
    Forall (recipeWrite (join dir "Dockerfile")) recipe ->
    effects evs = td ++ recipe
                  ++ [EvDocker (buildArgs p b dir) 0; EvUnlink (join dir "Dockerfile");
                      EvDocker (runArgs (deployConfig p b dir host app env)) y] ->
    y <> 0%Z ->
    success res = false -> registryKept w w' ->
    answered (runArgs (deployConfig p b dir host app env)) y ->
    deployRun p b dir host app env w res w' evs
| HealthCheckFailed (td recipe polls before : list Event) (lx sx rx : Z) (logs : string) :
    Forall (teardownEvent (getContainerName p)) td ->
    Forall (recipeWrite (join dir "Dockerfile")) recipe ->
    Forall (unansweredPoll host) polls ->
    effects evs = td ++ recipe
                  ++ [EvDocker (buildArgs p b dir) 0; EvUnlink (join dir "Dockerfile");
                      EvDocker (runArgs (deployConfig p b dir host app env)) 0]
                  ++ polls
                  ++ [EvDocker ["logs"; "--tail"; "50"; getContainerName p] lx;
                      EvDocker ["stop"; "-t"; "10"; getContainerName p] sx;
                      EvDocker ["rm"; "-f"; getContainerName p] rx] ->
    evs = before
          ++ [EvDocker ["logs"; "--tail"; "50"; getContainerName p] lx;
              EvLog b ("Container logs:" +:+ String JS.nl logs) "warning";
              EvLog b "Health check failed" "error";
              EvDocker ["stop"; "-t"; "10"; getContainerName p] sx;
              EvDocker ["rm"; "-f"; getContainerName p] rx] ->
    (15000 <= clock w' - clock w)%Z ->
    res = {| success := false; containerId := None;
             error := Some "Health check failed" |} ->
    registryKept w w' ->
    (exists a rest, polls = EvFetch host a :: rest) ->
    deployRun p b dir host app env w res w' evs
| Deployed (td recipe polls removals : list Event) (answer : option N) (ix : Z)
           (id : string) :
    Forall (teardownEvent (getContainerName p)) td ->
    Forall (recipeWrite (join dir "Dockerfile")) recipe ->
    Forall (unansweredPoll host) polls ->
    healthyAnswer answer = true ->
    Forall (fun e => exists name x, e = EvDocker ["rmi"; "-f"; name] x) removals ->
    effects evs = td ++ recipe
                  ++ [EvDocker (buildArgs p b dir) 0; EvUnlink (join dir "Dockerfile");
                      EvDocker (runArgs (deployConfig p b dir host app env)) 0]
                  ++ polls
                  ++ [EvFetch host answer; EvDocker (imagesArgs p) ix]
                  ++ removals
                  ++ match logStreamers w !! p with
                     | Some h => [EvKill h]
                     | None => []
                     end
                  ++ [EvSpawnLogs (nextHandle w) (getContainerName p) b] ->
    res = {| success := true; containerId := Some id; error := None |} ->
    logStreamers w' = <[p := nextHandle w]> (logStreamers w) ->
    nextHandle w' = S (nextHandle w) ->
    active w' = {[nextHandle w]} ∪
                match logStreamers w !! p with
                | Some h => active w ∖ {[h]}
                | None => active w
                end ->
    replied host answer ->
    deployRun p b dir host app env w res w' evs.

(** The registry of log streams is in order: the handles it holds are
    the stream processes that have not been cancelled, no two projects
    hold the same one, and handles still to be given out are fresh. *)
Definition regOk (m : gmap string nat) (a : gset nat) (n : nat) : Prop :=
  (forall p h, m !! p = Some h -> h ∈ a) /\
  (forall h, h ∈ a -> exists p, m !! p = Some h) /\
  (forall p q h, m !! p = Some h -> m !! q = Some h -> p = q) /\
  (forall h, h ∈ a -> h < n).

Definition registryOk (w : World) : Prop :=
  regOk (logStreamers w) (active w) (nextHandle w).

(** [e] is the removal of image [img], whatever its exit status. *)
Definition removalOf (img : Image) (e : Event) : Prop :=
  exists x, e = EvDocker ["rmi"; "-f"; imgName img] x.



(** The operations of the service that touch the registry of log streams. *)
Inductive Op :=
| OpDeploy (projectId buildId sourceDir : string) (hostPort : N) (appType : AppType)
           (envVars : list (string * string))
| OpStartLogStreaming (projectId buildId : string)
| OpStopLogStreaming (projectId : string)
| OpStop (projectId : string) (buildId : option string)
| OpCleanup (projectId : string) (buildIds : option (list string))
| OpRecoverLogStreams.

Definition perform (op : Op) (w : World) : World :=
  match op with
  | OpDeploy p b d h t e => snd (deploy p b d h t e w)
  | OpStartLogStreaming p b => snd (startLogStreaming p b w)
  | OpStopLogStreaming p => snd (stopLogStreaming p w)
  | OpStop p b => snd (stop p b w)
  | OpCleanup p bs => snd (cleanup p bs w)
  | OpRecoverLogStreams => snd (recoverLogStreams w)
  end.

Definition performAll (ops : list Op) (w : World) : World :=
  foldl (fun w op => perform op w) w ops.

(** The process starts with an empty registry and no stream process. *)
Definition initialWorld (rt : Runtime) (fs : gmap string string) (ds : gset string) : World :=
  {| runtime := rt; files := fs; dirs := ds; logStreamers := ∅; active := ∅;
     nextHandle := 0; clock := 0; trace := [] |}.

End Engine.

(** ** A scripted environment

    A small concrete runtime, used to run the engine on examples: [docker]
    answers every command from a fixed table, the probed endpoint refuses
    the connection until the time [healthyFrom] and answers [code] from then
    on, and dates are plain decimal numbers of milliseconds. *)

Module Demo.

Definition ok (out : string) : Spawned := Closed (Some 0%Z) [Out out].

Definition failed (err : string) : Spawned := Closed (Some 1%Z) [Err err].

Definition parseMillis (s : string) : option Z :=
  if JS.isEmpty s then None
  else (fun u => Z.of_N (N.of_uint u)) <$> NilEmpty.uint_of_string s.

Definition scripted (reply : list string -> Spawned)
    (healthyFrom : option Z) (code : N) : Env :=
  {| Runtime := unit;
     docker := fun args _ rt => (reply args, rt);
     fetch := fun _ t rt =>
       ({| status := match healthyFrom with
                     | Some t0 => if (t0 <=? t)%Z then Some code else None
                     | None => None
                     end;
           took := 0 |}, rt);
     getTime := parseMillis;
     jsonHasStartScript := fun _ => false;
     join := fun dir name => dir +:+ "/" +:+ name;
     engineSort := fun l => l;
     engineSort_perm := fun l => Permutation_refl l |}.

(** Every command succeeds; [docker images] lists five images. *)
Definition fiveImages : string :=
  "thakur-deploy/proj-aaa:b1 100
thakur-deploy/proj-aaa:b2 500
thakur-deploy/proj-aaa:b3 300
thakur-deploy/proj-aaa:b4 200
thakur-deploy/proj-aaa:b5 400
".

Definition replyAll (args : list string) : Spawned :=
  match args with
  | "images" :: _ => ok fiveImages
  | "run" :: _ => ok "c0ffee
"
  | "logs" :: _ => ok "boot
"
  | "ps" :: _ => ok "thakur-proj-aaa proj-aaaa1111 bld-bbbb2222
thakur-orphan  bld-cccc3333
"
  | _ => ok ""
  end.

Definition up : Env := scripted replyAll (Some 2000%Z) 200.
Definition down : Env := scripted replyAll None 200.

(** The runtime is down: every command fails. *)
Definition broken : Env := scripted (fun _ => failed "daemon down") None 200.

Definition sourceTree : gmap string string :=
  {[ "/tmp/src/src/index.ts" := "export default 1" ]}.

Definition ownRecipe : gmap string string :=
  {[ "/tmp/src/Dockerfile" := "FROM node:20
EXPOSE 8080
CMD node index.js" ]}.

Definition canonicalRecipe : string :=
  "FROM node:20
EXPOSE 3000
ENV PORT=3000
CMD node index.js".

Definition rootRecipe : string :=
  "FROM node:20
USER root
EXPOSE 3000
ENV PORT=3000
CMD node index.js".

(** A fresh process of the engine over the source directory [/tmp/src]. *)
Definition world (E : Env) (rt : @Runtime E) (fs : gmap string string) : @World E :=
  initialWorld rt fs {[ "/tmp/src" ]}.

End Demo.


(** ** Further notions for the properties of the engine *)

(** The thirteen lines of the recipe synthesised for a server. *)
Definition bunLines (internalPort : N) (cmd : string) : list string :=
  ["FROM oven/bun:1-alpine AS builder"; "WORKDIR /app"; "COPY package.json ./";
   "RUN bun install"; "COPY . ."; ""; "FROM oven/bun:1-alpine"; "WORKDIR /app";
   "COPY --from=builder /app ."; "ENV NODE_ENV=production";
   "ENV PORT=" +:+ JS.show internalPort; "EXPOSE " +:+ JS.show internalPort; cmd].

(** What [ensureContainerStopped] does to the container [name]: it looks
    it up, and stops and removes it when the lookup succeeds. *)
Definition teardownRun (name : string) (evs : list Event) : Prop :=
  exists x,
    (x <> 0%Z /\ evs = [EvDocker ["container"; "inspect"; name] x]) \/
    (x = 0%Z /\ exists sx rx,
       evs = [EvDocker ["container"; "inspect"; name] 0;
              EvDocker ["stop"; "-t"; "10"; name] sx;
              EvDocker ["rm"; "-f"; name] rx]).

Definition isFetch (e : Event) : bool :=
  match e with
  | EvFetch _ _ => true
  | _ => false
  end.

(** The build for which [stop] announces what it does: a build identifier
    that is given and not empty. *)
Definition announced (buildId : option string) : option string :=
  match buildId with
  | Some b => if JS.truthy b then Some b else None
  | None => None
  end.

(** The stream that a call cancels: the one registered for the project. *)
Definition cancelled `{E : Env} (p : string) (w : World) : list Event :=
  match logStreamers w !! p with
  | Some h => [EvKill h]
  | None => []
  end.

(** What the runtime prints for one image under the format that
    [pruneProjectImages] asks for, [{{.Repository}}:{{.Tag}} {{.CreatedAt}}]. *)
Definition imageLine (i : Image) : string := imgName i +:+ " " +:+ imgDate i.

(** What the runtime prints for one container under the format that
    [listRunningContainers] asks for: name and the two labels. *)
Definition psLine (m : ManagedContainer) : string :=
  containerName m +:+ " " +:+ projectId m +:+ " " +:+ buildId m.

(** What the runtime prints for a listing: every line ended by a newline. *)
Definition printedLines (lines : list string) : string :=
  foldr (fun l rest => l +:+ String JS.nl rest) "" lines.

(** A line is tight when [trim] has nothing to take from it: it starts
    with a character that is not white space and does not end in white
    space. *)
Definition tight (l : string) : Prop :=
  (exists a r, l = String a r /\ JS.isSpace a = false) /\ JS.trimEnd l = l.

Fixpoint noSpace (s : string) : bool :=
  match s with
  | "" => true
  | String a s' => negb (JS.isSpace a) && noSpace s'
  end.

(** A name or label value as the runtime prints it: not empty and
    without white space. *)
Definition word (s : string) : bool := JS.truthy s && noSpace s.

Definition labelled (m : ManagedContainer) : bool :=
  word (containerName m) && word (projectId m) && word (buildId m).

(** An image as the runtime lists it: the reference is a word, the
    creation time is not empty, on one line and does not end in white
    space. *)
Definition wellListed (i : Image) : bool :=
  word (imgName i) && JS.truthy (imgDate i) && negb (JS.contains JS.nl (imgDate i))
  && String.eqb (JS.trimEnd (imgDate i)) (imgDate i).


(** ** Subdomains: nginx-service.ts and the availability check

    The host on which nginx runs is a parameter as well ([Host]): whether
    a write, a link or a removal in the site directory succeeds, and how
    the reload of nginx exits, given what the service has done so far.
    A [Bun.write] that throws leaves the file as it was; the site
    directory holds regular files only; [Bun.spawn] itself does not
    throw. *)

(** [toLowerCase] on an ASCII string: the letters [A-Z] change. *)
Definition lower (c : ascii) : ascii :=
  let n := nat_of_ascii c in
  if (65 <=? n)%nat && (n <=? 90)%nat then ascii_of_nat (n + 32) else c.

Fixpoint toLowerCase (s : string) : string :=
  match s with
  | "" => ""
  | String c s' => String (lower c) (toLowerCase s')
  end.

Fixpoint allChars (f : ascii -> bool) (s : string) : bool :=
  match s with
  | "" => true
  | String c s' => f c && allChars f s'
  end.

(** The character class [[a-z0-9-]]. *)
Definition isLabelChar (c : ascii) : bool :=
  let n := nat_of_ascii c in
  (97 <=? n)%nat && (n <=? 122)%nat || (48 <=? n)%nat && (n <=? 57)%nat || (n =? 45)%nat.

(** [/^[a-z0-9-]+$/.test(s)]. *)
Definition isLabel (s : string) : bool := JS.truthy s && allChars isLabelChar s.

(** [s.endsWith(c)] for a one-character string. *)
Fixpoint endsWith (s : string) (c : ascii) : bool :=
  match s with
  | "" => false
  | String a s' => if JS.isEmpty s' then Ascii.eqb a c else endsWith s' c
  end.

(** Letters of either case, digits and the hyphen. *)
Definition isHostChar (c : ascii) : bool := isLabelChar (lower c).

Inductive HostEvent :=
| HvWrite (path content : string)
| HvSymlink (target path : string)
| HvUnlink (path : string)
| HvReload (exit : option Z).

Class Host := {
  (** [process.env.BASE_DOMAIN || 'thakur.dev']. *)
  BASE_DOMAIN : string;
  pathJoin : string -> string -> string;
  (** [Bun.write(path, _)], [symlink(_, path)] and [unlink(path)] after the
      given history: the message of the error when the call throws. *)
  writeFails : list HostEvent -> string -> option string;
  symlinkFails : list HostEvent -> string -> option string;
  unlinkFails : list HostEvent -> string -> option string;
  (** [proc.exitCode] of [sudo systemctl reload nginx]; [None] is [null]. *)
  reloadExit : list HostEvent -> gmap string string -> option Z
}.

(** What an asynchronous call comes to. *)
Inductive Outcome (A : Type) :=
| Returned (a : A)
| Thrown (message : string).
Arguments Returned {A} a.
Arguments Thrown {A} message.

Module NginxService.

Section Service.

Context {H : Host}.

Definition AVAILABLE_DIR : string := "/etc/nginx/platform-sites".
Definition ENABLED_DIR : string := "/etc/nginx/platform-sites".

Definition RESERVED : list string :=
  ["www"; "api"; "admin"; "dashboard"; "deploy"; "git"; "db"; "mail"; "staging"; "dev"].

Definition isSubdomainAllowed (sub : string) : bool :=
  if negb (JS.truthy sub) then false
  else
    let s := JS.trim (toLowerCase sub) in
    if existsb (String.eqb s) RESERVED then false
    else if negb (isLabel s) then false
    else if JS.startsWith s "-" || endsWith s "-" then false
    else true.

Definition generateConfig (sub : string) (port : N) : string :=
  "
    server {
        listen 80;
        server_name " +:+ sub +:+ "." +:+ BASE_DOMAIN +:+ ";

        # Redirect all HTTP to HTTPS
        return 301 https://$host$request_uri;
    }

    server {
        listen 443 ssl;
        server_name " +:+ sub +:+ "." +:+ BASE_DOMAIN +:+ ";

        # Wildcard certificate for *.thakur.dev
        ssl_certificate     /etc/letsencrypt/live/" +:+ BASE_DOMAIN +:+ "/fullchain.pem;
        ssl_certificate_key /etc/letsencrypt/live/" +:+ BASE_DOMAIN +:+ "/privkey.pem;

        ssl_protocols TLSv1.2 TLSv1.3;
        ssl_ciphers HIGH:!aNULL:!MD5;

        location / {
            proxy_pass http://localhost:" +:+ JS.show port +:+ ";
            proxy_http_version 1.1;

            proxy_set_header Upgrade $http_upgrade;
            proxy_set_header Connection " +:+ JS.dq +:+ "upgrade" +:+ JS.dq +:+ ";
            proxy_set_header Host $host;

            proxy_set_header X-Real-IP $remote_addr;
            proxy_set_header X-Forwarded-For $proxy_add_x_forwarded_for;

            proxy_read_timeout 300;
            proxy_connect_timeout 300;
            proxy_send_timeout 300;
        }
    }
    ".

(** The site directory and what the service has done to the host. *)
Record Site := {
  confs : gmap string string;
  past : list HostEvent
}.

Definition T (A : Type) : Type := Site -> Outcome A * Site.

Definition pure {A} (a : A) : T A := fun s => (Returned a, s).
Definition throw {A} (message : string) : T A := fun s => (Thrown message, s).
Definition andThen {A B} (m : T A) (k : A -> T B) : T B :=
  fun s => match m s with
           | (Returned a, s') => k a s'
           | (Thrown message, s') => (Thrown message, s')
           end.

Notation "x <- m ;; k" := (andThen m (fun x => k))
  (at level 100, m at next level, right associativity, only parsing).
Notation "m ;;; k" := (andThen m (fun _ => k))
  (at level 100, k at level 200, right associativity, only parsing).

Definition existsSync (path : string) : T bool :=
  fun s => (Returned (bool_decide (path ∈ dom (confs s))), s).

Definition bunWrite (path content : string) : T unit := fun s =>
  match writeFails (past s) path with
  | Some message => (Thrown message, s)
  | None => (Returned tt, {| confs := <[path := content]> (confs s);
                             past := past s ++ [HvWrite path content] |})
  end.

Definition symlink (target path : string) : T unit := fun s =>
  match symlinkFails (past s) path with
  | Some message => (Thrown message, s)
  | None => (Returned tt, {| confs := match confs s !! target with
                                      | Some c => <[path := c]> (confs s)
                                      | None => confs s
                                      end;
                             past := past s ++ [HvSymlink target path] |})
  end.

Definition unlink (path : string) : T unit := fun s =>
  match unlinkFails (past s) path with
  | Some message => (Thrown message, s)
  | None => (Returned tt, {| confs := delete path (confs s);
                             past := past s ++ [HvUnlink path] |})
  end.

Definition reload : T unit := fun s =>
  let exit := reloadExit (past s) (confs s) in
  let s' := {| confs := confs s; past := past s ++ [HvReload exit] |} in
  match exit with
  | Some 0%Z => (Returned tt, s')
  | _ => (Thrown "Failed to reload nginx", s')
  end.

Definition createConfig (sub : string) (port : N) : T unit :=
  if negb (isSubdomainAllowed sub) then
    throw ("Invalid or reserved subdomain: " +:+ sub)
  else
    let content := generateConfig sub port in
    let available := pathJoin AVAILABLE_DIR (sub +:+ ".conf") in
    let enabled := pathJoin ENABLED_DIR (sub +:+ ".conf") in
    bunWrite available content ;;;
    present <- existsSync enabled ;;
    (if negb present then symlink available enabled else pure tt) ;;;
    reload.

Definition removeConfig (sub : string) : T unit :=
  let available := pathJoin AVAILABLE_DIR (sub +:+ ".conf") in
  let enabled := pathJoin ENABLED_DIR (sub +:+ ".conf") in
  enabledThere <- existsSync enabled ;;
  (if enabledThere then unlink enabled else pure tt) ;;;
  availableThere <- existsSync available ;;
  (if availableThere then unlink available else pure tt) ;;;
  reload.

Definition isLink (e : HostEvent) : bool :=
  match e with
  | HvSymlink _ _ => true
  | _ => false
  end.

Definition isUnlink (e : HostEvent) : bool :=
  match e with
  | HvUnlink _ => true
  | _ => false
  end.

End Service.

End NginxService.

(** The availability check of the control API (cloudflare-service.ts). *)

(** What the DNS provider answers to the query for a name: the number of
    records it holds, a response that is not [ok], or a failure of the
    request or of reading its body. *)
Inductive ApiAnswer :=
| ApiRecords (count : nat)
| ApiNotOk
| ApiFailed (message : string).

Module CloudflareService.

Section Service.

Context {H : Host}.

(** [process.env.CLOUDFLARE_API_TOKEN] and [process.env.CLOUDFLARE_ZONE_ID],
    and the provider, asked for the records of a name. *)
Variable CF_API_TOKEN CF_ZONE_ID : option string.
Variable dnsRecords : string -> ApiAnswer.

Definition RESERVED : list string := ["www"; "api"; "admin"; "mail"; "ftp"; "localhost"].

Definition configured (v : option string) : bool :=
  match v with
  | Some s => JS.truthy s
  | None => false
  end.

Definition checkSubdomain (subdomain : string) : Outcome bool :=
  if negb (JS.truthy subdomain) then Returned false
  else
    let s := JS.trim (toLowerCase subdomain) in
    if negb (isLabel s) then
      Thrown "Invalid subdomain format. Use letters, numbers, and hyphens."
    else if JS.startsWith s "-" || endsWith s "-" then
      Thrown "Subdomain cannot start or end with a hyphen."
    else if existsb (String.eqb s) RESERVED then Returned false
    else if negb (configured CF_API_TOKEN) || negb (configured CF_ZONE_ID) then
      Returned true
    else
      let queryName := s +:+ "." +:+ BASE_DOMAIN in
      match dnsRecords queryName with
      | ApiRecords count => Returned (count =? 0)%nat
      | ApiNotOk => Thrown "Failed to check domain availability with provider."
      | ApiFailed message => Thrown message
      end.

End Service.

End CloudflareService.

(** ** ui: how long ago

    Times are milliseconds since the epoch, as [getTime] gives them for a
    valid date; on such values the quotients and comparisons of the code
    are exact. *)

Definition showZ (z : Z) : string :=
  if (z <? 0)%Z then "-" +:+ JS.show (Z.to_N (- z)) else JS.show (Z.to_N z).

(** project-card.tsx *)
Definition timeAgo (now date : Z) : string :=
  let seconds := ((now - date) / 1000)%Z in
  if (31536000 <? seconds)%Z then showZ (seconds / 31536000) +:+ "y ago"
  else if (2592000 <? seconds)%Z then showZ (seconds / 2592000) +:+ "mo ago"
  else if (86400 <? seconds)%Z then showZ (seconds / 86400) +:+ "d ago"
  else if (3600 <? seconds)%Z then showZ (seconds / 3600) +:+ "h ago"
  else if (60 <? seconds)%Z then showZ (seconds / 60) +:+ "m ago"
  else showZ seconds +:+ "s ago".

Section RepositoryList.

(** [new Date(s).getTime()] ([None] for an invalid date) and
    [date.toLocaleDateString('en-US', { month: 'short', day: 'numeric' })]. *)
Variable parseDate : string -> option Z.
Variable toLocaleDateString : option Z -> string.

(** [formatDate] of the repository list. *)
Definition formatDate (now : Z) (dateString : option string) : string :=
  match dateString with
  | None => ""
  | Some text =>
      if negb (JS.truthy text) then ""
      else
        match parseDate text with
        | None => toLocaleDateString None
        | Some date =>
            let diffTime := Z.abs (now - date) in
            let diffDays := (diffTime / (1000 * 60 * 60 * 24))%Z in
            if (diffDays =? 0)%Z then "Today"
            else if (diffDays =? 1)%Z then "Yesterday"
            else if (diffDays <? 7)%Z then showZ diffDays +:+ " days ago"
            else if (diffDays <? 30)%Z then showZ (diffDays / 7) +:+ " weeks ago"
            else toLocaleDateString (Some date)
        end
  end.

End RepositoryList.

Definition isSpawn (e : Event) : bool :=
  match e with
  | EvSpawnLogs _ _ _ => true
  | _ => false
  end.

(** ** Further samples

    A runtime that lists two managed containers and finds a running one,
    the five images of the scripted listing, and a host on which every
    file operation and every reload of nginx succeeds. *)

Module Samples.

Definition plainRecipe : string :=
  "FROM node:20
CMD node index.js".

(** A recipe that switches to the root user, written with two spaces. *)
Definition spacedRootRecipe : string :=
  "FROM node:20
USER  root
CMD node index.js".

(** A recipe whose EXPOSE instruction is written with a tab. *)
Definition tabbedRecipe : string :=
  "FROM node:20" +:+ String JS.nl ("EXPOSE" +:+ String JS.tab "8080")
  +:+ String JS.nl "CMD node index.js".

Definition managed : list ManagedContainer :=
  [{| containerName := "thakur-proj-aaa"; projectId := "proj-aaaa1111";
      buildId := "bld-bbbb2222" |};
   {| containerName := "thakur-proj-ccc"; projectId := "proj-cccc3333";
      buildId := "bld-dddd4444" |}].

Definition replyListing (args : list string) : Spawned :=
  match args with
  | "ps" :: _ => Demo.ok "thakur-proj-aaa proj-aaaa1111 bld-bbbb2222
thakur-proj-ccc proj-cccc3333 bld-dddd4444
"
  | "inspect" :: _ => Demo.ok "c0ffee running
"
  | _ => Demo.ok ""
  end.

Definition tidy : Env := Demo.scripted replyListing None 200.

(** The runtime of the scripted environment, with an endpoint that refuses
    every connection after [d] milliseconds. *)
Definition slow (d : N) : Env :=
  {| Runtime := unit;
     docker := fun args _ rt => (Demo.replyAll args, rt);
     fetch := fun _ _ rt => ({| status := None; took := d |}, rt);
     getTime := Demo.parseMillis;
     jsonHasStartScript := fun _ => false;
     join := fun dir name => dir +:+ "/" +:+ name;
     engineSort := fun l => l;
     engineSort_perm := fun l => Permutation_refl l |}.



(** The runtime of the scripted environment when the project has three
    images. *)
Definition threeListed : list Image :=
  [{| imgName := "thakur-deploy/proj-aaa:b1"; imgDate := "100" |};
   {| imgName := "thakur-deploy/proj-aaa:b2"; imgDate := "500" |};
   {| imgName := "thakur-deploy/proj-aaa:b3"; imgDate := "300" |}].

Definition replyThree (args : list string) : Spawned :=
  match args with
  | "images" :: _ => Demo.ok "thakur-deploy/proj-aaa:b1 100
thakur-deploy/proj-aaa:b2 500
thakur-deploy/proj-aaa:b3 300
"
  | _ => Demo.replyAll args
  end.

Definition three : Env := Demo.scripted replyThree None 200.

(** A recipe that sets the port variable next to another one, and one
    that sets it in the form [ENV <key> <value>]. *)
Definition combinedRecipe : string :=
  "FROM node:20
EXPOSE 3000
ENV NODE_ENV=production PORT=3000
CMD node index.js".

Definition legacyRecipe : string :=
  "FROM node:20
EXPOSE 3000
ENV PORT 3000
CMD node index.js".

Definition fiveListed : list Image :=
  [{| imgName := "thakur-deploy/proj-aaa:b1"; imgDate := "100" |};
   {| imgName := "thakur-deploy/proj-aaa:b2"; imgDate := "500" |};
   {| imgName := "thakur-deploy/proj-aaa:b3"; imgDate := "300" |};
   {| imgName := "thakur-deploy/proj-aaa:b4"; imgDate := "200" |};
   {| imgName := "thakur-deploy/proj-aaa:b5"; imgDate := "400" |}].

Definition okHost : Host :=
  {| BASE_DOMAIN := "thakur.dev";
     pathJoin := fun dir name => dir +:+ "/" +:+ name;
     writeFails := fun _ _ => None;
     symlinkFails := fun _ _ => None;
     unlinkFails := fun _ _ => None;
     reloadExit := fun _ _ => Some 0%Z |}.

Definition emptySite : NginxService.Site :=
  {| NginxService.confs := ∅; NginxService.past := [] |}.

End Samples.


(** * Properties *)

(** ** Strings *)

Lemma truthy_nonempty (s : string) : JS.truthy s = true <-> s <> "".
Proof. by destruct s. Qed.

Lemma sapp_cons (a : ascii) (s t : string) : String a s +:+ t = String a (s +:+ t).
Proof. reflexivity. Qed.

Lemma sapp_nil_l (t : string) : "" +:+ t = t.
Proof. reflexivity. Qed.

Lemma sapp_nil_r (s : string) : s +:+ "" = s.
Proof. induction s as [|a s IH]; [reflexivity|]. rewrite sapp_cons, IH. reflexivity. Qed.

Lemma sapp_assoc (a b c : string) : (a +:+ b) +:+ c = a +:+ b +:+ c.
Proof. induction a as [|x a IH]; [done|]. by rewrite !sapp_cons, IH. Qed.

Lemma sapp_nonempty (s t : string) (c : ascii) : s +:+ String c t <> "".
Proof. by destruct s. Qed.

Lemma length_sapp (s t : string) :
  String.length (s +:+ t) = String.length s + String.length t.
Proof. induction s as [|a s IH]; [done|]. rewrite sapp_cons. simpl. by rewrite IH. Qed.

Lemma length_slice0 (n : nat) (s : string) :
  String.length (JS.slice0 n s) = Nat.min n (String.length s).
Proof.
  unfold JS.slice0. revert s. induction n as [|n IH]; intros [|a s]; simpl; try done.
  by rewrite IH.
Qed.

Lemma sapp_inv_tail (s1 s2 r : string) : s1 +:+ r = s2 +:+ r -> s1 = s2.
Proof.
  revert s2. induction s1 as [|a s1 IH]; intros [|b s2] H.
  - done.
  - apply (f_equal String.length) in H. rewrite !length_sapp in H. simpl in H. lia.
  - apply (f_equal String.length) in H. rewrite !length_sapp in H. simpl in H. lia.
  - rewrite !sapp_cons in H. injection H as -> H. by rewrite (IH _ H).
Qed.

Lemma slice0_app (m rest : string) : JS.slice0 (String.length m) (m +:+ rest) = m.
Proof.
  unfold JS.slice0. induction m as [|a m IH]; simpl; [by destruct rest|].
  by rewrite IH.
Qed.

(** [rest] is what is left of [s] after a prefix of it. *)
Lemma dropWhile_suffix (f : ascii -> bool) (s : string) :
  exists m, s = m +:+ JS.dropWhile f s.
Proof.
  induction s as [|a s [m IH]]; [by exists ""|]. simpl.
  destruct (f a); [|by exists ""].
  exists (String a m). by rewrite sapp_cons, <- IH.
Qed.

Lemma contains_app (c : ascii) (s t : string) :
  JS.contains c (s +:+ t) = JS.contains c s || JS.contains c t.
Proof.
  induction s as [|a s IH]; [reflexivity|].
  rewrite sapp_cons. simpl. rewrite IH. apply orb_assoc.
Qed.

Lemma contains_dropWhile (c : ascii) (f : ascii -> bool) (s : string) :
  JS.contains c (JS.dropWhile f s) = true -> JS.contains c s = true.
Proof.
  induction s as [|a s IH]; simpl; [done|].
  destruct (f a); [|done].
  intros H. rewrite (IH H). apply orb_true_r.
Qed.

Lemma split_nonempty (c : ascii) (s : string) : JS.split c s <> [].
Proof.
  destruct s as [|a s]; simpl; [done|].
  destruct (Ascii.eqb a c); [done|]. destruct (JS.split c s); done.
Qed.

Lemma split_fields_clean (c : ascii) (s field : string) :
  In field (JS.split c s) -> JS.contains c field = false.
Proof.
  revert field. induction s as [|a s IH]; simpl; intros field.
  - intros [<-|[]]. reflexivity.
  - destruct (Ascii.eqb a c) eqn:Hac.
    + intros [<-|H]; [reflexivity | by apply IH].
    + destruct (JS.split c s) as [|f0 rest] eqn:Hs.
      * intros [<-|[]]. simpl. by rewrite Hac.
      * intros [<-|H].
        -- simpl. rewrite Hac. simpl. apply IH. by left.
        -- apply IH. by right.
Qed.

Lemma split_app_clean (c : ascii) (s t : string) :
  JS.contains c s = false ->
  JS.split c (s +:+ String c t) = s :: JS.split c t.
Proof.
  induction s as [|a s IH]; intros H.
  - rewrite sapp_nil_l. simpl. by rewrite Ascii.eqb_refl.
  - simpl in H. apply orb_false_iff in H as [Hac Hs].
    rewrite sapp_cons. simpl. rewrite Hac. by rewrite (IH Hs).
Qed.

Lemma split_clean (c : ascii) (s : string) :
  JS.contains c s = false -> JS.split c s = [s].
Proof.
  induction s as [|a s IH]; simpl; intros H; [done|].
  apply orb_false_iff in H as [Hac Hs]. rewrite Hac. by rewrite (IH Hs).
Qed.

(** Splitting what [join] built gives the fields back. *)
Lemma split_join (c : ascii) (l : list string) :
  l <> [] -> (forall field, In field l -> JS.contains c field = false) ->
  JS.split c (JS.join c l) = l.
Proof.
  induction l as [|s l IH]; [done|]. intros _ Hclean.
  destruct l as [|s' l].
  - simpl. apply split_clean. apply Hclean. by left.
  - change (JS.join c (s :: s' :: l)) with (s +:+ String c (JS.join c (s' :: l))).
    rewrite split_app_clean by (apply Hclean; by left).
    f_equal. apply IH; [done|]. intros field H. apply Hclean. by right.
Qed.

(** Joining what [split] produced gives the string back. *)
Lemma join_split (c : ascii) (s : string) : JS.join c (JS.split c s) = s.
Proof.
  induction s as [|a s IH]; [reflexivity|]. simpl.
  destruct (Ascii.eqb a c) eqn:Hac.
  - apply Ascii.eqb_eq in Hac as ->.
    pose proof (split_nonempty c s) as Hne.
    destruct (JS.split c s) as [|f0 rest]; [done|].
    change (JS.join c ("" :: f0 :: rest)) with ("" +:+ String c (JS.join c (f0 :: rest))).
    by rewrite IH.
  - pose proof (split_nonempty c s) as Hne.
    destruct (JS.split c s) as [|f0 rest]; [done|].
    destruct rest as [|f1 rest].
    + simpl in *. by rewrite IH.
    + change (JS.join c (String a f0 :: f1 :: rest))
        with (String a f0 +:+ String c (JS.join c (f1 :: rest))).
      change (JS.join c (f0 :: f1 :: rest))
        with (f0 +:+ String c (JS.join c (f1 :: rest))) in IH.
      by rewrite sapp_cons, IH.
Qed.

Lemma dropWhile_head (f : ascii -> bool) (s : string) (a : ascii) (r : string) :
  JS.dropWhile f s = String a r -> f a = false.
Proof.
  induction s as [|b s IH]; simpl; [done|].
  destruct (f b) eqn:Hb; [done|]. intros [= <- _]. done.
Qed.

Lemma trimEnd_cons (a : ascii) (s : string) :
  JS.isSpace a = false -> JS.trimEnd (String a s) = String a (JS.trimEnd s).
Proof. intros H. simpl. by rewrite H. Qed.

Lemma trimEnd_head (s : string) (a : ascii) (r : string) :
  JS.trimEnd s = String a r -> exists s', s = String a s'.
Proof.
  destruct s as [|b s]; simpl; [done|].
  destruct (JS.isSpace b && JS.isEmpty (JS.trimEnd s)); [done|].
  intros [= <- _]. by eexists.
Qed.

Lemma noSpace_trimEnd (s : string) : noSpace s = true -> JS.trimEnd s = s.
Proof.
  induction s as [|a s IH]; [done|]. simpl.
  intros [Ha%negb_true_iff Hs]%andb_true_iff. by rewrite Ha, (IH Hs).
Qed.

(** When the trimmed, upper-cased line starts with two given letters, the
    line starts with them too, after its leading white space and up to
    case. *)
Lemma trimmed_head2 (x y : ascii) (p line : string) :
  JS.startsWith (trimmedLine line) (String x (String y p)) = true ->
  exists a b r, JS.trimStart line = String a (String b r)
                /\ JS.upper a = x /\ JS.upper b = y.
Proof.
  unfold JS.startsWith, trimmedLine, JS.trim.
  destruct (JS.trimStart line) as [|a r0] eqn:Hstart; [done|].
  pose proof (dropWhile_head _ _ _ _ Hstart) as Ha.
  rewrite (trimEnd_cons _ _ Ha). simpl.
  destruct (ascii_dec x (JS.upper a)) as [->|]; [|done].
  destruct (JS.trimEnd r0) as [|b r1] eqn:Hr0; [done|].
  destruct (trimEnd_head _ _ _ Hr0) as [r0' ->]. simpl.
  destruct (ascii_dec y (JS.upper b)) as [->|]; [|done].
  intros _. by exists a, b, r0'.
Qed.

Lemma upper_space (c : ascii) : JS.isSpace c = true -> JS.upper c = c.
Proof. destruct c as [[] [] [] [] [] [] [] []]; done. Qed.

Lemma space_not_letter (c : ascii) : JS.isSpace c = true -> JS.upper c <> "P"%char.
Proof. destruct c as [[] [] [] [] [] [] [] []]; done. Qed.

Lemma show_digits (n : N) : exists d ds,
  JS.show n = String d ds /\ JS.isDigit d = true /\ JS.isSpace d = false.
Proof.
  unfold JS.show.
  assert (Hne : N.to_uint n <> Decimal.Nil).
  { destruct n as [|p]; [done|]. apply DecimalPos.Unsigned.to_uint_nonnil. }
  destruct (N.to_uint n); [done|..]; simpl; eauto.
Qed.

Lemma string_of_uint_clean (c : ascii) (u : Decimal.uint) :
  JS.isDigit c = false -> JS.contains c (NilEmpty.string_of_uint u) = false.
Proof.
  intros Hc.
  induction u; cbn [NilEmpty.string_of_uint JS.contains]; [done|..];
    rewrite IHu, orb_false_r; apply Ascii.eqb_neq; intros <-; done.
Qed.

Lemma show_clean (c : ascii) (n : N) :
  JS.isDigit c = false -> JS.contains c (JS.show n) = false.
Proof. apply string_of_uint_clean. Qed.

Lemma string_of_uint_all_digits (u : Decimal.uint) :
  JS.dropWhile JS.isDigit (NilEmpty.string_of_uint u) = "".
Proof. induction u; simpl; done. Qed.

(** ** Sanitising a recipe *)

Lemma matchPortAssign_head (c : ascii) (s : string) :
  JS.upper c <> "P"%char -> matchPortAssign (String c s) = None.
Proof.
  intros Hc. destruct s as [|o [|r [|t rest]]]; try reflexivity.
  cbn [matchPortAssign].
  destruct (Ascii.eqb (JS.upper c) "P") eqn:Heq; [|reflexivity].
  by apply Ascii.eqb_eq in Heq.
Qed.

Lemma replacePort_head (c : ascii) (s : string) (port : N) :
  JS.upper c <> "P"%char ->
  replacePort (String c s) port = String c (replacePort s port).
Proof.
  intros Hc. cbn [replacePort]. by rewrite (matchPortAssign_head _ _ Hc).
Qed.

(** The replacement leaves the first two letters of the line alone when
    neither of them is a P. *)
Lemma replacePort_trimStart (line : string) (port : N) (a b : ascii) (r : string) :
  JS.trimStart line = String a (String b r) ->
  JS.upper a <> "P"%char -> JS.upper b <> "P"%char ->
  exists r', JS.trimStart (replacePort line port) = String a (String b r').
Proof.
  intros Hline Ha Hb. induction line as [|c line IH]; [done|].
  unfold JS.trimStart in *. cbn [JS.dropWhile] in Hline.
  destruct (JS.isSpace c) eqn:Hc.
  - rewrite (replacePort_head _ _ _ (space_not_letter _ Hc)).
    cbn [JS.dropWhile]. rewrite Hc. by apply IH.
  - injection Hline as -> ->.
    rewrite (replacePort_head _ _ _ Ha), (replacePort_head _ _ _ Hb).
    cbn [JS.dropWhile]. rewrite Hc. by eexists.
Qed.

Lemma matchPortAssign_clean (c : ascii) (s rest : string) :
  matchPortAssign s = Some rest ->
  JS.contains c rest = true -> JS.contains c s = true.
Proof.
  destruct s as [|p [|o [|r [|t s]]]]; try done.
  cbn [matchPortAssign].
  destruct (_ && _); [|done].
  set (r1 := JS.dropWhile JS.isSpace s).
  set (r2 := match r1 with String "="%char r' => r' | _ => r1 end).
  destruct (JS.dropWhile JS.isSpace r2) as [|d r3] eqn:Hr3; [done|].
  destruct (JS.isDigit d); [|done].
  intros [= <-] Hc.
  assert (H2 : JS.contains c r2 = true).
  { apply (contains_dropWhile c JS.isSpace). rewrite Hr3.
    by apply (contains_dropWhile c JS.isDigit). }
  assert (H1 : JS.contains c r1 = true).
  { subst r2. destruct r1 as [|e r1']; [done|].
    destruct (ascii_dec e "="%char) as [->|Hne].
    - cbn [JS.contains]. rewrite H2. apply orb_true_r.
    - destruct e as [[] [] [] [] [] [] [] []]; done. }
  apply (contains_dropWhile c JS.isSpace) in H1.
  cbn [JS.contains]. rewrite H1. by rewrite !orb_true_r.
Qed.

Lemma replacePort_clean (c : ascii) (line : string) (port : N) :
  JS.isDigit c = false -> c <> "P"%char -> c <> "O"%char -> c <> "R"%char ->
  c <> "T"%char -> c <> "="%char ->
  JS.contains c line = false -> JS.contains c (replacePort line port) = false.
Proof.
  intros Hd HP HO HR HT HE. induction line as [|a line IH]; intros Hline.
  - reflexivity.
  - cbn [replacePort].
    destruct (matchPortAssign (String a line)) as [rest|] eqn:Hm.
    + rewrite !contains_app, (show_clean _ _ Hd).
      destruct (JS.contains c rest) eqn:Hrest.
      * by rewrite (matchPortAssign_clean _ _ _ Hm Hrest) in Hline.
      * cbn [JS.contains]. rewrite !orb_false_r.
        repeat (apply orb_false_iff; split); try reflexivity;
          apply Ascii.eqb_neq; congruence.
    + cbn [JS.contains] in *. apply orb_false_iff in Hline as [-> Hline].
      by rewrite IH.
Qed.

Lemma exposeLine_isExpose (port : N) :
  isExposeLine ("EXPOSE " +:+ JS.show port) = true.
Proof.
  destruct (show_digits port) as (d & ds & -> & _ & Hd).
  unfold isExposeLine, trimmedLine, JS.trim, JS.startsWith.
  change ("EXPOSE " +:+ String d ds) with
    (String "E" (String "X" (String "P" (String "O" (String "S" (String "E"
       (String " " (String d ds)))))))).
  cbn [JS.trimStart JS.dropWhile JS.isSpace Ascii.is_space].
  rewrite !trimEnd_cons by done.
  cbn [JS.trimEnd]. rewrite Hd. cbn [andb JS.isEmpty]. reflexivity.
Qed.

Lemma starts_not_expose (a b : ascii) (r : string) :
  JS.isSpace a = false -> JS.upper a <> "E"%char \/ JS.upper b <> "X"%char ->
  isExposeLine (String a (String b r)) = false.
Proof.
  intros Ha Hab. destruct (isExposeLine _) eqn:Hex; [|reflexivity].
  apply trimmed_head2 in Hex as (a' & b' & r' & Hstart & Ha' & Hb').
  unfold JS.trimStart in Hstart. cbn [JS.dropWhile] in Hstart. rewrite Ha in Hstart.
  injection Hstart as <- <- _. tauto.
Qed.

Lemma portEnv_not_expose (line : string) (port : N) :
  isPortEnvLine line = true -> isExposeLine (replacePort line port) = false.
Proof.
  unfold isPortEnvLine. intros [Henv _]%andb_true_iff.
  apply trimmed_head2 in Henv as (a & b & r & Hstart & Ha & Hb).
  destruct (replacePort_trimStart line port a b r Hstart) as [r' Hr'].
  { by rewrite Ha. } { by rewrite Hb. }
  destruct (isExposeLine _) eqn:Hex; [|reflexivity].
  apply trimmed_head2 in Hex as (a' & b' & r'' & Hstart' & Ha' & Hb').
  rewrite Hr' in Hstart'. injection Hstart' as <- <- _.
  rewrite Hb in Hb'. done.
Qed.

(** What the sanitiser makes of one line is an EXPOSE line exactly when the
    line was one, and then it is the canonical one. *)
Lemma sanitizeLine_expose (port : N) (line : string) :
  isExposeLine (sanitizeLine port line) = isExposeLine line /\
  (isExposeLine line = true -> sanitizeLine port line = "EXPOSE " +:+ JS.show port).
Proof.
  unfold sanitizeLine. destruct (isExposeLine line) eqn:Hex.
  - split; [apply exposeLine_isExpose | done].
  - split; [|done].
    destruct (isPortEnvLine line) eqn:Henv; [by apply portEnv_not_expose|].
    destruct (isDangerousLine line); [|done].
    by apply starts_not_expose; [|left].
Qed.

Lemma sanitizeLine_clean (port : N) (line : string) :
  JS.contains JS.nl line = false -> JS.contains JS.nl (sanitizeLine port line) = false.
Proof.
  intros Hline. unfold sanitizeLine.
  destruct (isExposeLine line).
  { rewrite contains_app. by rewrite show_clean. }
  destruct (isPortEnvLine line).
  { by apply replacePort_clean. }
  destruct (isDangerousLine line); [|done].
  rewrite contains_app, Hline. reflexivity.
Qed.

Lemma in_insertBeforeCmd (x l : string) (ls : list string) :
  In l (insertBeforeCmd x ls) <-> l = x \/ In l ls.
Proof.
  induction ls as [|y ls IH]; simpl.
  - intuition congruence.
  - destruct (isCmdLine y); simpl; [intuition congruence|].
    rewrite IH. intuition congruence.
Qed.

Lemma filter_insertBeforeCmd (f : string -> bool) (x : string) (ls : list string) :
  f x = false -> List.filter f (insertBeforeCmd x ls) = List.filter f ls.
Proof.
  intros Hx. induction ls as [|y ls IH]; simpl.
  - by rewrite Hx.
  - destruct (isCmdLine y); simpl; [by rewrite Hx|]. by rewrite IH.
Qed.

Lemma filter_sanitized (port : N) (ls : list string) :
  List.filter isExposeLine (map (sanitizeLine port) ls)
  = repeat ("EXPOSE " +:+ JS.show port) (length (List.filter isExposeLine ls)).
Proof.
  induction ls as [|l ls IH]; [reflexivity|]. simpl.
  destruct (sanitizeLine_expose port l) as [-> Hl].
  destruct (isExposeLine l); simpl; [|done]. rewrite IH. f_equal. by apply Hl.
Qed.

Lemma existsb_filter {A} (f : A -> bool) (l : list A) :
  existsb f l = negb (Nat.eqb (length (List.filter f l)) 0).
Proof.
  induction l as [|x l IH]; [reflexivity|]. simpl.
  destruct (f x); simpl; [reflexivity | apply IH].
Qed.

Lemma envLine_not_expose (port : N) :
  isExposeLine ("ENV PORT=" +:+ JS.show port) = false.
Proof. by apply starts_not_expose; [|right]. Qed.

Lemma sanitizeLines_expose (ls : list string) (port : N) :
  List.filter isExposeLine (sanitizeLines ls port)
  = repeat ("EXPOSE " +:+ JS.show port)
      (Nat.max 1 (length (List.filter isExposeLine ls))).
Proof.
  unfold sanitizeLines.
  assert (Hmid :
    List.filter isExposeLine
      (if existsb isExposeLine ls then map (sanitizeLine port) ls
       else map (sanitizeLine port) ls ++ ["EXPOSE " +:+ JS.show port])
    = repeat ("EXPOSE " +:+ JS.show port)
        (Nat.max 1 (length (List.filter isExposeLine ls)))).
  { rewrite existsb_filter.
    destruct (length (List.filter isExposeLine ls)) as [|n] eqn:Hn; simpl.
    - rewrite List.filter_app, filter_sanitized, Hn. simpl.
      by rewrite exposeLine_isExpose.
    - by rewrite filter_sanitized, Hn. }
  destruct (existsb (fun l => negb (isExposeLine l) && isPortEnvLine l) ls); [done|].
  rewrite filter_insertBeforeCmd by apply envLine_not_expose. done.
Qed.

Lemma sanitizeLines_clean (ls : list string) (port : N) (l : string) :
  (forall l0, In l0 ls -> JS.contains JS.nl l0 = false) ->
  In l (sanitizeLines ls port) -> JS.contains JS.nl l = false.
Proof.
  intros Hls. unfold sanitizeLines.
  assert (Hmap : forall l0, In l0 (map (sanitizeLine port) ls) ->
                            JS.contains JS.nl l0 = false).
  { intros l0 (l1 & <- & Hl1)%in_map_iff. apply sanitizeLine_clean. by apply Hls. }
  assert (Hexp : JS.contains JS.nl ("EXPOSE " +:+ JS.show port) = false).
  { rewrite contains_app. by rewrite show_clean. }
  assert (Henv : JS.contains JS.nl ("ENV PORT=" +:+ JS.show port) = false).
  { rewrite contains_app. by rewrite show_clean. }
  assert (Hmid : forall l0,
    In l0 (if existsb isExposeLine ls then map (sanitizeLine port) ls
           else map (sanitizeLine port) ls ++ ["EXPOSE " +:+ JS.show port]) ->
    JS.contains JS.nl l0 = false).
  { intros l0. destruct (existsb isExposeLine ls); [apply Hmap|].
    intros [H|[<-|[]]]%in_app_iff; [by apply Hmap | done]. }
  destruct (existsb (fun l0 => negb (isExposeLine l0) && isPortEnvLine l0) ls);
    [apply Hmid|].
  intros [->|H]%in_insertBeforeCmd; [done | by apply Hmid].
Qed.

Lemma sanitizeLines_nonempty (ls : list string) (port : N) :
  ls <> [] -> sanitizeLines ls port <> [].
Proof.
  intros Hls Hnil.
  pose proof (sanitizeLines_expose ls port) as H. rewrite Hnil in H.
  destruct (length (List.filter isExposeLine ls)); done.
Qed.

(** The lines of the sanitised content are the sanitised lines. *)
Lemma sanitizeDockerfile_lines (content : string) (port : N) :
  JS.split JS.nl (sanitizeDockerfile content port)
  = sanitizeLines (JS.split JS.nl content) port.
Proof.
  unfold sanitizeDockerfile. apply split_join.
  - apply sanitizeLines_nonempty, split_nonempty.
  - intros l. apply sanitizeLines_clean. apply split_fields_clean.
Qed.

(** *** The recipes that the sanitiser leaves as they are *)

Lemma matchPortAssign_suffix (s rest : string) :
  matchPortAssign s = Some rest -> exists m, s = m +:+ rest.
Proof.
  destruct s as [|p [|o [|r [|t s]]]]; try done.
  cbn [matchPortAssign].
  destruct (_ && _); [|done].
  destruct (dropWhile_suffix JS.isSpace s) as [m1 H1].
  set (r1 := JS.dropWhile JS.isSpace s) in *.
  assert (H2 : exists m2, r1 = m2 +:+ match r1 with
                                      | String "="%char r' => r'
                                      | _ => r1
                                      end).
  { destruct r1 as [|e r1']; [by exists ""|].
    destruct (ascii_dec e "="%char) as [->|Hne]; [by exists "="|].
    exists "". destruct e as [[] [] [] [] [] [] [] []]; done. }
  destruct H2 as [m2 H2].
  set (r2 := match r1 with String "="%char r' => r' | _ => r1 end) in *.
  destruct (dropWhile_suffix JS.isSpace r2) as [m3 H3].
  destruct (JS.dropWhile JS.isSpace r2) as [|d r3] eqn:Hr3; [done|].
  destruct (JS.isDigit d); [|done].
  intros [= <-].
  destruct (dropWhile_suffix JS.isDigit (String d r3)) as [m4 H4].
  exists (String p (String o (String r (String t (m1 +:+ m2 +:+ m3 +:+ m4))))).
  rewrite !sapp_cons. do 4 f_equal.
  change (if JS.isDigit d then JS.dropWhile JS.isDigit r3 else String d r3)
    with (JS.dropWhile JS.isDigit (String d r3)).
  rewrite !sapp_assoc, <- H4, <- H3, <- H2. exact H1.
Qed.

(** The replacement leaves a line as it is exactly when the line has no
    match, or the match already reads [PORT=<port>]. *)
Lemma replacePort_fixed (line : string) (port : N) :
  replacePort line port = line <->
  match portAssignment line with
  | Some text => text = "PORT=" +:+ JS.show port
  | None => True
  end.
Proof.
  induction line as [|c line IH]; [done|].
  cbn [replacePort portAssignment].
  destruct (matchPortAssign (String c line)) as [rest|] eqn:Hm.
  - destruct (matchPortAssign_suffix _ _ Hm) as [m Hsplit].
    rewrite Hsplit. rewrite length_sapp, Nat.add_sub, slice0_app.
    change ("PORT=" +:+ JS.show port +:+ rest) with (("PORT=" +:+ JS.show port) +:+ rest).
    split.
    + intros H. symmetry. by apply sapp_inv_tail in H.
    + by intros ->.
  - rewrite <- IH. split; [by intros [= ->] | by intros ->].
Qed.

Lemma length_insertBeforeCmd (x : string) (ls : list string) :
  length (insertBeforeCmd x ls) = S (length ls).
Proof.
  induction ls as [|l ls IH]; [done|]. simpl.
  destruct (isCmdLine l); simpl; [done | by rewrite IH].
Qed.

Lemma length_sanitizeLines (ls : list string) (port : N) :
  length (sanitizeLines ls port)
  = length ls + (if existsb isExposeLine ls then 0 else 1)
    + (if existsb (fun l => negb (isExposeLine l) && isPortEnvLine l) ls then 0 else 1).
Proof.
  unfold sanitizeLines.
  destruct (existsb isExposeLine ls),
    (existsb (fun l => negb (isExposeLine l) && isPortEnvLine l) ls);
    rewrite ?length_insertBeforeCmd, ?length_app, ?length_map; simpl; lia.
Qed.

Lemma map_fixed {A} (f : A -> A) (l : list A) :
  map f l = l <-> forall x, In x l -> f x = x.
Proof.
  induction l as [|a l IH]; simpl; [by intuition|].
  split.
  - intros [= Ha Hl] x [<-|Hx]; [done|]. by apply IH.
  - intros H. f_equal; [apply H; by left|]. apply IH. intros x Hx. apply H. by right.
Qed.

Lemma sanitizeLines_fixed (ls : list string) (port : N) :
  sanitizeLines ls port = ls <->
  existsb isExposeLine ls = true /\
  existsb (fun l => negb (isExposeLine l) && isPortEnvLine l) ls = true /\
  forall l, In l ls -> sanitizeLine port l = l.
Proof.
  split.
  - intros H. pose proof (length_sanitizeLines ls port) as Hlen. rewrite H in Hlen.
    unfold sanitizeLines in H.
    destruct (existsb isExposeLine ls); [|simpl in Hlen; lia].
    destruct (existsb (fun l => negb (isExposeLine l) && isPortEnvLine l) ls);
      [|simpl in Hlen; lia].
    by rewrite map_fixed in H.
  - intros (Hexp & Henv & Hid). unfold sanitizeLines. rewrite Hexp, Henv.
    by apply map_fixed.
Qed.

Lemma sanitizeLine_fixed (port : N) (l : string) :
  sanitizeLine port l = l <->
  if isExposeLine l then l = "EXPOSE " +:+ JS.show port
  else if isPortEnvLine l then
    match portAssignment l with
    | Some text => text = "PORT=" +:+ JS.show port
    | None => True
    end
  else isDangerousLine l = false.
Proof.
  unfold sanitizeLine. destruct (isExposeLine l); [by split|].
  destruct (isPortEnvLine l); [apply replacePort_fixed|].
  destruct (isDangerousLine l); [|done]. split; [|done].
  intros H. apply (f_equal String.length) in H. rewrite length_sapp in H.
  simpl in H. lia.
Qed.

(** Sanitising gives the recipe back exactly when it has an EXPOSE line
    and each reads [EXPOSE <port>], it has an ENV line that mentions PORT
    and the first assignment on each, if any, reads [PORT=<port>], and no
    other line is one that the sanitiser comments out. *)
Lemma sanitizeDockerfile_fixed (content : string) (port : N) :
  sanitizeDockerfile content port = content <->
  exposesOnly content port = true /\ setsPortTo content port = true /\
  harmless content = true.
Proof.
  assert (Hlines : sanitizeDockerfile content port = content <->
                   sanitizeLines (JS.split JS.nl content) port = JS.split JS.nl content).
  { split.
    - intros H. rewrite <- sanitizeDockerfile_lines. by rewrite H.
    - intros H. unfold sanitizeDockerfile. rewrite H. apply join_split. }
  rewrite Hlines, sanitizeLines_fixed. unfold exposesOnly, setsPortTo, harmless.
  cbv zeta. rewrite !andb_true_iff, !forallb_forall.
  set (ls := JS.split JS.nl content). clearbody ls.
  split.
  - intros (Hexp & Henv & Hid). repeat split; try done; intros l Hl;
      specialize (Hid l Hl); apply sanitizeLine_fixed in Hid;
      destruct (isExposeLine l), (isPortEnvLine l); cbn [negb andb orb]; try done.
    + by apply String.eqb_eq.
    + by apply String.eqb_eq.
    + destruct (portAssignment l); [by apply String.eqb_eq | done].
    + by rewrite Hid.
  - intros ([Hexp Hexps] & [Henv Henvs] & Hsafe). repeat split; try done.
    intros l Hl. apply sanitizeLine_fixed.
    specialize (Hexps l Hl). specialize (Henvs l Hl). specialize (Hsafe l Hl).
    destruct (isExposeLine l), (isPortEnvLine l); cbn [negb andb orb] in *.
    + by apply String.eqb_eq.
    + by apply String.eqb_eq.
    + destruct (portAssignment l); [by apply String.eqb_eq | done].
    + by apply negb_true_iff.
Qed.

(** *** Lines that pass the sanitiser *)

Lemma sanitizeLines_keeps (l : string) (ls : list string) (port : N) :
  In l ls -> In (sanitizeLine port l) (sanitizeLines ls port).
Proof.
  intros Hl. unfold sanitizeLines.
  assert (Hmap : In (sanitizeLine port l) (map (sanitizeLine port) ls)) by by apply in_map.
  assert (Hmid : In (sanitizeLine port l)
                   (if existsb isExposeLine ls then map (sanitizeLine port) ls
                    else map (sanitizeLine port) ls ++ ["EXPOSE " +:+ JS.show port])).
  { destruct (existsb isExposeLine ls); [done|]. apply in_app_iff. by left. }
  destruct (existsb (fun l0 => negb (isExposeLine l0) && isPortEnvLine l0) ls); [done|].
  apply in_insertBeforeCmd. by right.
Qed.

(** A line that the callback leaves as it is stays a line of the recipe. *)
Lemma sanitize_keeps_line (content l : string) (port : N) :
  sanitizeLine port l = l ->
  In l (JS.split JS.nl content) ->
  In l (JS.split JS.nl (sanitizeDockerfile content port)).
Proof.
  intros Hfix Hl. rewrite sanitizeDockerfile_lines, <- Hfix. by apply sanitizeLines_keeps.
Qed.

Lemma includes_without (s p : string) (c : ascii) :
  JS.contains c s = false -> JS.includes s (String c p) = false.
Proof.
  induction s as [|a s IH]; [done|]. cbn [JS.contains JS.includes String.prefix].
  intros [Hac Hs]%orb_false_iff. rewrite (IH Hs), orb_false_r.
  destruct (ascii_dec c a) as [->|]; [|done]. by rewrite Ascii.eqb_refl in Hac.
Qed.

Lemma string_of_uint_plain (u : Decimal.uint) :
  noSpace (NilEmpty.string_of_uint u) = true /\
  JS.toUpperCase (NilEmpty.string_of_uint u) = NilEmpty.string_of_uint u.
Proof. induction u; cbn; [done|..]; destruct IHu as [-> ->]; done. Qed.

(** [EXPOSE], a tab and a port: an instruction that exposes the port, and
    that the sanitiser, which looks for [EXPOSE] and a space, passes on. *)
Lemma sanitizeLine_tab_expose (port other : N) :
  sanitizeLine port ("EXPOSE" +:+ String JS.tab (JS.show other))
  = "EXPOSE" +:+ String JS.tab (JS.show other).
Proof.
  destruct (string_of_uint_plain (N.to_uint other)) as [Hplain Hupper].
  fold (JS.show other) in Hplain, Hupper.
  set (line := "EXPOSE" +:+ String JS.tab (JS.show other)).
  assert (Htrim : trimmedLine line = line).
  { unfold trimmedLine, JS.trim, line.
    change ("EXPOSE" +:+ String JS.tab (JS.show other))
      with (String "E" (String "X" (String "P" (String "O" (String "S" (String "E"
              (String JS.tab (JS.show other)))))))).
    cbn [JS.trimStart JS.dropWhile JS.isSpace Ascii.is_space].
    rewrite !trimEnd_cons by done. cbn [JS.trimEnd].
    rewrite (noSpace_trimEnd _ Hplain).
    destruct (show_digits other) as (d & ds & Hshow & _). rewrite Hshow at 1.
    cbn [JS.isEmpty andb]. rewrite andb_false_r. cbn [JS.toUpperCase].
    by rewrite Hupper. }
  assert (Hminus : forall c, JS.isDigit c = false ->
            Ascii.eqb "E" c = false -> Ascii.eqb "X" c = false ->
            Ascii.eqb "P" c = false -> Ascii.eqb "O" c = false ->
            Ascii.eqb "S" c = false -> Ascii.eqb JS.tab c = false ->
            JS.contains c line = false).
  { intros c Hd HE HX HP HO HS HT. unfold line.
    change ("EXPOSE" +:+ String JS.tab (JS.show other))
      with (String "E" (String "X" (String "P" (String "O" (String "S" (String "E"
              (String JS.tab (JS.show other)))))))).
    cbn [JS.contains].
    by rewrite HE, HX, HP, HO, HS, HT, (show_clean _ _ Hd). }
  unfold sanitizeLine, isExposeLine, isPortEnvLine, isDangerousLine.
  rewrite Htrim.
  rewrite (includes_without line _ "-"), (includes_without line _ "D") by by apply Hminus.
  done.
Qed.

(** C3 (the code departs from the specification).  For every recipe in
    the ASCII range and every assigned internal port, the lines of the
    sanitised recipe contain the instruction [EXPOSE <port>]; every line of
    the output in which the sanitiser recognises an EXPOSE instruction
    (trimmed and upper-cased, it starts with [EXPOSE] and a space) is
    exactly that one; and the output has as many such lines as the input
    had, or one (appended) when the input had none.  But an instruction
    that separates [EXPOSE] from the port by a tab is not recognised: it
    is a line of the output as it was in the input, whatever port it
    exposes. *)
Theorem sanitize_exposes_only_assigned_port (content : string) (internalPort : N) :
  let expose := "EXPOSE " +:+ JS.show internalPort in
  let output := JS.split JS.nl (sanitizeDockerfile content internalPort) in
  let input := JS.split JS.nl content in
  JS.isAscii content = true ->
  In expose output /\
  (forall l, In l output -> isExposeLine l = true -> l = expose) /\
  List.filter isExposeLine output
  = repeat expose (Nat.max 1 (length (List.filter isExposeLine input))) /\
  (forall other,
     In ("EXPOSE" +:+ String JS.tab (JS.show other)) input ->
     In ("EXPOSE" +:+ String JS.tab (JS.show other)) output).
Proof.
  intros expose output input _.
  assert (Hf : List.filter isExposeLine output
               = repeat expose (Nat.max 1 (length (List.filter isExposeLine input)))).
  { subst output. rewrite sanitizeDockerfile_lines. apply sanitizeLines_expose. }
  split; [|split; [|split; [exact Hf|]]].
  - assert (Hin : In expose (List.filter isExposeLine output)).
    { rewrite Hf. destruct (length (List.filter isExposeLine input)); by left. }
    by apply filter_In in Hin as [Hin _].
  - intros l Hl Hex.
    assert (Hin : In l (List.filter isExposeLine output)) by by apply filter_In.
    rewrite Hf in Hin. by apply repeat_spec in Hin.
  - intros other. apply sanitize_keeps_line, sanitizeLine_tab_expose.
Qed.

Lemma sanitize_exposes_only_assigned_port_witness :
  let output := JS.split JS.nl (sanitizeDockerfile Samples.tabbedRecipe 3000) in
  In "EXPOSE 3000" output /\
  In ("EXPOSE" +:+ String JS.tab "8080") output.
Proof.
  destruct (sanitize_exposes_only_assigned_port Samples.tabbedRecipe 3000 eq_refl)
    as (H1 & _ & _ & H2).
  split; [exact H1|]. apply (H2 8080%N). vm_compute. tauto.
Defined.

(** ** Naming *)

Lemma slice0_prefix (n : nat) (s : string) :
  exists rest, s = JS.slice0 n s +:+ rest
               /\ String.length (JS.slice0 n s) = Nat.min n (String.length s).
Proof.
  unfold JS.slice0. revert s. induction n as [|n IH]; intros s.
  - exists s. by destruct s.
  - destruct s as [|c s]; [by exists ""|].
    destruct (IH s) as (rest & Hs & Hlen). exists rest. simpl.
    rewrite sapp_cons. by rewrite <- Hs, Hlen.
Qed.

Lemma slice0_get (n i : nat) (s : string) :
  i < n -> get i (JS.slice0 n s) = get i s.
Proof.
  intros Hi. unfold JS.slice0. rewrite substring_correct1 by done.
  by rewrite Nat.add_0_r.
Qed.

Lemma slice0_ext (n : nat) (s t : string) :
  (forall i, i < n -> get i s = get i t) -> JS.slice0 n s = JS.slice0 n t.
Proof.
  unfold JS.slice0. revert s t. induction n as [|n IH]; intros s t H.
  - by destruct s, t.
  - pose proof (H 0 ltac:(lia)) as H0.
    destruct s as [|a s], t as [|b t]; simpl in H0; try done.
    injection H0 as ->. simpl. f_equal. apply IH.
    intros i Hi. apply (H (S i)). lia.
Qed.

(** C7.  The container name is the fixed prefix followed by the first 8
    characters of the project identifier, the image reference is the fixed
    namespace, the first 8 characters of the project identifier, a colon and
    the first 8 characters of the build identifier; both are functions of
    those characters alone, and two project identifiers that differ at one
    of their first 8 positions get different container names. *)
Theorem naming_first_eight_characters (p q b : string) :
  (exists p8 b8 restp restb,
      p = p8 +:+ restp /\ String.length p8 = Nat.min 8 (String.length p) /\
      b = b8 +:+ restb /\ String.length b8 = Nat.min 8 (String.length b) /\
      getContainerName p = "thakur-" +:+ p8 /\
      getImageName p b = "thakur-deploy/" +:+ p8 +:+ ":" +:+ b8) /\
  ((forall i, i < 8 -> get i p = get i q) ->
     getContainerName p = getContainerName q /\ getImageName p b = getImageName q b) /\
  (forall i, i < 8 -> get i p <> get i q -> getContainerName p <> getContainerName q).
Proof.
  split; [|split].
  - destruct (slice0_prefix 8 p) as (restp & Hp & Hlp).
    destruct (slice0_prefix 8 b) as (restb & Hb & Hlb).
    by exists (JS.slice0 8 p), (JS.slice0 8 b), restp, restb.
  - intros H. unfold getContainerName, getImageName.
    by rewrite (slice0_ext 8 p q H).
  - intros i Hi Hne Heq. apply Hne.
    unfold getContainerName in Heq. apply String.app_inj in Heq.
    by rewrite <- (slice0_get 8 i p Hi), <- (slice0_get 8 i q Hi), Heq.
Qed.

Lemma naming_first_eight_characters_witness :
  getContainerName "proj-aaaa1111" <> getContainerName "proj-aab" /\
  getContainerName "proj-aaaa1111" = getContainerName "proj-aaaa2222".
Proof.
  split.
  - destruct (naming_first_eight_characters "proj-aaaa1111" "proj-aab" "") as (_ & _ & H).
    apply (H 7); [lia | simpl; congruence].
  - destruct (naming_first_eight_characters "proj-aaaa1111" "proj-aaaa2222" "") as (_ & H & _).
    apply H. intros i Hi.
    do 8 (destruct i as [|i]; [reflexivity|]). lia.
Defined.

(** ** Reading the runtime's listings back *)

Lemma join_nonempty (c : ascii) (l : list string) :
  Forall (fun s => s <> "") l -> l <> [] -> JS.join c l <> "".
Proof.
  intros Hl Hne. destruct l as [|s l]; [done|].
  apply Forall_cons in Hl as [Hs _]. destruct l; [done|].
  change (JS.join c (s :: s0 :: l)) with (s +:+ String c (JS.join c (s0 :: l))).
  apply sapp_nonempty.
Qed.

Lemma parseImageLine_imageLine (i : Image) :
  JS.contains " " (imgName i) = false -> parseImageLine (imageLine i) = i.
Proof.
  intros Hname. unfold parseImageLine, imageLine.
  change (" " +:+ imgDate i) with (String " " (imgDate i)).
  rewrite split_app_clean by done. rewrite join_split. by destruct i.
Qed.

Lemma noSpace_contains (s : string) (c : ascii) :
  noSpace s = true -> JS.isSpace c = true -> JS.contains c s = false.
Proof.
  intros Hs Hc. induction s as [|a s IH]; [done|].
  simpl in *. apply andb_true_iff in Hs as [Ha Hs]. rewrite (IH Hs), orb_false_r.
  apply Ascii.eqb_neq. intros ->. by rewrite Hc in Ha.
Qed.

Lemma splitWsGo_letter (a : ascii) (s : string) (inRun : bool) :
  JS.isSpace a = false ->
  JS.splitWsGo (String a s) inRun
  = match JS.splitWsGo s false with
    | field :: rest => String a field :: rest
    | [] => [String a ""]
    end.
Proof. intros Ha. cbn [JS.splitWsGo]. by rewrite Ha. Qed.

Lemma splitWsGo_word (s : string) (inRun : bool) :
  noSpace s = true -> s <> "" -> JS.splitWsGo s inRun = [s].
Proof.
  intros Hs Hne. destruct s as [|a s]; [done|]. clear Hne.
  revert a inRun Hs. induction s as [|b s IH]; intros a inRun Hs;
    cbn [noSpace] in Hs; apply andb_true_iff in Hs as [Ha%negb_true_iff Hs];
    rewrite (splitWsGo_letter _ _ _ Ha).
  - done.
  - by rewrite (IH b false Hs).
Qed.

Lemma splitWsGo_field (s rest : string) (inRun : bool) :
  noSpace s = true -> s <> "" ->
  JS.splitWsGo (s +:+ String " " rest) inRun = s :: JS.splitWsGo rest true.
Proof.
  intros Hs Hne. destruct s as [|a s]; [done|]. clear Hne.
  revert a inRun Hs. induction s as [|b s IH]; intros a inRun Hs;
    cbn [noSpace] in Hs; apply andb_true_iff in Hs as [Ha%negb_true_iff Hs];
    rewrite sapp_cons, (splitWsGo_letter _ _ _ Ha).
  - by rewrite sapp_nil_l.
  - by rewrite (IH b false Hs).
Qed.

Lemma parseContainerLine_psLine (m : ManagedContainer) :
  labelled m = true -> parseContainerLine (psLine m) = Some m.
Proof.
  unfold labelled, word.
  intros [[[Hc1 Hc2]%andb_true_iff [Hp1 Hp2]%andb_true_iff]%andb_true_iff
          [Hb1 Hb2]%andb_true_iff]%andb_true_iff.
  apply truthy_nonempty in Hc1, Hp1, Hb1.
  unfold parseContainerLine, psLine, JS.splitWs.
  change (" " +:+ projectId m +:+ " " +:+ buildId m)
    with (String " " (projectId m +:+ String " " (buildId m))).
  rewrite splitWsGo_field, splitWsGo_field, splitWsGo_word by done.
  by destruct m.
Qed.

Lemma psLine_clean (m : ManagedContainer) :
  labelled m = true -> JS.contains JS.nl (psLine m) = false /\ psLine m <> "".
Proof.
  unfold labelled, word.
  intros [[[Hc1 Hc2]%andb_true_iff [Hp1 Hp2]%andb_true_iff]%andb_true_iff
          [Hb1 Hb2]%andb_true_iff]%andb_true_iff.
  unfold psLine. split.
  - rewrite !contains_app, (noSpace_contains (containerName m) JS.nl),
      (noSpace_contains (projectId m) JS.nl), (noSpace_contains (buildId m) JS.nl) by done.
    done.
  - apply truthy_nonempty in Hc1. by destruct (containerName m).
Qed.

Lemma parseContainerList_psLines (ms : list ManagedContainer) :
  forallb labelled ms = true ->
  parseContainerList (JS.join JS.nl (map psLine ms)) = ms.
Proof.
  intros Hms. rewrite forallb_forall in Hms. unfold parseContainerList.
  destruct ms as [|m0 ms0] eqn:Hcase; [done|]. rewrite <- Hcase in *.
  rewrite split_join.
  2:{ by rewrite Hcase. }
  2:{ intros l (m & <- & Hm)%in_map_iff. by apply psLine_clean, Hms. }
  clear Hcase m0 ms0. induction ms as [|m ms IH]; [done|].
  assert (Hm : labelled m = true) by (apply Hms; by left).
  cbn [map List.filter].
  destruct (psLine_clean m Hm) as [_ Hne%truthy_nonempty]. rewrite Hne.
  cbn [map List.filter]. rewrite (parseContainerLine_psLine m Hm).
  unfold keepContainer at 1.
  unfold labelled, word in Hm.
  apply andb_true_iff in Hm as [[_ [Hp _]%andb_true_iff]%andb_true_iff [Hb _]%andb_true_iff].
  rewrite Hp, Hb. cbn [andb omap]. simpl. f_equal. apply IH.
  intros m' Hm'. apply Hms. by right.
Qed.

Lemma trimStart_tight (a : ascii) (s : string) :
  JS.isSpace a = false -> JS.trimStart (String a s) = String a s.
Proof. intros H. unfold JS.trimStart. simpl. by rewrite H. Qed.

Lemma trimEnd_newline (s : string) :
  JS.trimEnd (s +:+ String JS.nl "") = JS.trimEnd s.
Proof.
  induction s as [|c s IH]; [done|].
  rewrite sapp_cons. cbn [JS.trimEnd]. by rewrite IH.
Qed.

Lemma trimEnd_app (s t : string) :
  JS.trimEnd t = t -> t <> "" -> JS.trimEnd (s +:+ t) = s +:+ t.
Proof.
  intros Ht Hne. induction s as [|c s IH]; [done|].
  rewrite sapp_cons. cbn [JS.trimEnd]. rewrite IH.
  destruct (s +:+ t) eqn:Hst; [|by rewrite andb_false_r].
  destruct s; [by rewrite sapp_nil_l in Hst | done].
Qed.

Lemma tight_nonempty (l : string) : tight l -> l <> "".
Proof. by intros [(a & r & -> & _) _]. Qed.

Lemma tight_app (s t : string) :
  (exists a r, s = String a r /\ JS.isSpace a = false) ->
  JS.trimEnd t = t -> t <> "" -> tight (s +:+ t).
Proof.
  intros (a & r & -> & Ha) Ht Hne. split.
  - exists a, (r +:+ t). by rewrite sapp_cons.
  - by apply trimEnd_app.
Qed.

Lemma word_head (s : string) :
  word s = true -> exists a r, s = String a r /\ JS.isSpace a = false.
Proof.
  unfold word. destruct s as [|a r]; [done|]. simpl.
  intros [Ha%negb_true_iff _]%andb_true_iff. by exists a, r.
Qed.

Lemma word_tight (s : string) : word s = true -> tight s.
Proof.
  intros H. split; [by apply word_head|].
  apply noSpace_trimEnd. unfold word in H. by apply andb_true_iff in H as [_ H].
Qed.

Lemma join_tight (ls : list string) :
  ls <> [] -> Forall tight ls -> tight (JS.join JS.nl ls).
Proof.
  induction ls as [|l ls IH]; [done|]. intros _ Hall.
  apply Forall_cons in Hall as [Hl Hall].
  destruct ls as [|l' ls]; [done|].
  change (JS.join JS.nl (l :: l' :: ls))
    with (l +:+ String JS.nl (JS.join JS.nl (l' :: ls))).
  destruct (IH ltac:(done) Hall) as [Hhead Hend].
  apply tight_app; [by destruct Hl | | done].
  cbn [JS.trimEnd]. rewrite Hend.
  destruct Hhead as (a & r & -> & _). by rewrite andb_false_r.
Qed.

Lemma printedLines_join (ls : list string) :
  ls <> [] -> printedLines ls = JS.join JS.nl ls +:+ String JS.nl "".
Proof.
  induction ls as [|l ls IH]; [done|]. intros _.
  destruct ls as [|l' ls]; [done|].
  change (printedLines (l :: l' :: ls)) with (l +:+ String JS.nl (printedLines (l' :: ls))).
  rewrite IH by done.
  change (JS.join JS.nl (l :: l' :: ls))
    with (l +:+ String JS.nl (JS.join JS.nl (l' :: ls))).
  by rewrite sapp_assoc.
Qed.

(** What [execDocker] makes of a listing that the runtime prints one tight
    line after the other, each ended by a newline: the lines, joined. *)
Lemma trim_printedLines (ls : list string) :
  Forall tight ls -> JS.trim (printedLines ls) = JS.join JS.nl ls.
Proof.
  intros Hall. destruct ls as [|l0 ls0] eqn:Hcase; [done|].
  rewrite <- Hcase in *. assert (Hne : ls <> []) by by rewrite Hcase.
  clear Hcase. rewrite (printedLines_join ls Hne).
  destruct (join_tight ls Hne Hall) as [(a & r & Hjoin & Ha) Hend].
  unfold JS.trim. rewrite Hjoin, sapp_cons, (trimStart_tight _ _ Ha).
  by rewrite <- sapp_cons, <- Hjoin, trimEnd_newline.
Qed.

Lemma imageLine_tight (i : Image) : wellListed i = true -> tight (imageLine i).
Proof.
  unfold wellListed.
  intros [[[Hname Hdate%truthy_nonempty]%andb_true_iff _]%andb_true_iff
          Hend%String.eqb_eq]%andb_true_iff.
  unfold imageLine. apply tight_app; [by apply word_head | | ].
  - change (" " +:+ imgDate i) with (String " " (imgDate i)).
    cbn [JS.trimEnd]. rewrite Hend. destruct (imgDate i); [done|].
    by rewrite andb_false_r.
  - done.
Qed.

Lemma imageLine_clean (i : Image) :
  wellListed i = true -> JS.contains JS.nl (imageLine i) = false.
Proof.
  unfold wellListed.
  intros [[[Hname _]%andb_true_iff Hnl%negb_true_iff]%andb_true_iff _]%andb_true_iff.
  unfold imageLine, word in *. apply andb_true_iff in Hname as [_ Hname].
  rewrite !contains_app, (noSpace_contains _ JS.nl Hname), Hnl by done. done.
Qed.

(** Parsing the listing that the runtime prints for [imgs] gives [imgs]
    back. *)
Lemma parse_printed_images (imgs : list Image) :
  imgs <> [] -> forallb wellListed imgs = true ->
  map parseImageLine (JS.split JS.nl (JS.trim (printedLines (map imageLine imgs)))) = imgs.
Proof.
  intros Hne Hall. rewrite forallb_forall in Hall.
  rewrite trim_printedLines.
  2:{ apply List.Forall_forall. intros l (i & <- & Hi)%in_map_iff.
      by apply imageLine_tight, Hall. }
  rewrite split_join.
  2:{ by destruct imgs. }
  2:{ intros l (i & <- & Hi)%in_map_iff. by apply imageLine_clean, Hall. }
  rewrite map_map. rewrite <- (map_id imgs) at 2. apply map_ext_in.
  intros i Hi. apply parseImageLine_imageLine.
  specialize (Hall i Hi). unfold wellListed, word in Hall.
  apply andb_true_iff in Hall as [[[[_ Hname]%andb_true_iff _]%andb_true_iff _]%andb_true_iff _].
  by apply noSpace_contains.
Qed.

Lemma psLine_tight (m : ManagedContainer) : labelled m = true -> tight (psLine m).
Proof.
  unfold labelled.
  intros [[Hc Hp]%andb_true_iff Hb]%andb_true_iff.
  destruct (word_tight _ Hb) as [Hbh Hbe]. destruct (word_tight _ Hp) as [Hph Hpe].
  unfold psLine. apply tight_app; [by apply word_head | | done].
  change (" " +:+ projectId m +:+ " " +:+ buildId m)
    with (String " " (projectId m +:+ String " " (buildId m))).
  assert (Hrest : JS.trimEnd (projectId m +:+ String " " (buildId m))
                  = projectId m +:+ String " " (buildId m)).
  { apply trimEnd_app; [|done]. cbn [JS.trimEnd]. rewrite Hbe.
    destruct Hbh as (a & r & -> & _). by rewrite andb_false_r. }
  cbn [JS.trimEnd]. rewrite Hrest.
  destruct Hph as (a & r & -> & _). by rewrite andb_false_r.
Qed.


(** ** Runs of the engine *)

Section Runs.

Context {E : Env}.

Notation "x <- m ;; k" := (bind m (fun x => k))
  (at level 100, m at next level, right associativity, only parsing).
Notation "m ;;; k" := (bind m (fun _ => k))
  (at level 100, k at level 200, right associativity, only parsing).

Lemma wp_bind {A B} (m : M A) (k : A -> M B) (w : World) (Q : B -> World -> Prop) :
  wp m w (fun a w1 => wp (k a) w1 Q) -> wp (bind m k) w Q.
Proof. unfold wp, bind. by destruct (m w). Qed.

Lemma wp_ret {A} (a : A) (w : World) (Q : A -> World -> Prop) :
  Q a w -> wp (ret a) w Q.
Proof. done. Qed.

Lemma wp_mono {A} (m : M A) (w : World) (P Q : A -> World -> Prop) :
  wp m w P -> (forall a w', P a w' -> Q a w') -> wp m w Q.
Proof. unfold wp. auto. Qed.

Ltac wp_apply lem := eapply wp_mono; [apply lem | cbv beta].
Ltac wp_return := apply wp_ret; cbv beta.

Lemma wp_theWorld (w : World) (Q : World -> World -> Prop) :
  Q w w -> wp theWorld w Q.
Proof. done. Qed.

Lemma steps_refl (w : World) : steps w w [].
Proof. split; try done. by rewrite app_nil_r. Qed.

Lemma steps_trans (w w1 w2 : World) (e1 e2 : list Event) :
  steps w w1 e1 -> steps w1 w2 e2 -> steps w w2 (e1 ++ e2).
Proof.
  intros [] []. split; try congruence.
  rewrite app_assoc. congruence.
Qed.

Lemma quiet_refl (w : World) : quiet w w [].
Proof. split; [apply steps_refl | done..]. Qed.

Lemma quiet_trans (w w1 w2 : World) (e1 e2 : list Event) :
  quiet w w1 e1 -> quiet w1 w2 e2 -> quiet w w2 (e1 ++ e2).
Proof.
  intros [] []. split; [by eapply steps_trans | congruence..].
Qed.

Lemma quiet_cons (w w1 w2 : World) (e : Event) (evs : list Event) :
  quiet w w1 [e] -> quiet w1 w2 evs -> quiet w w2 (e :: evs).
Proof. apply (quiet_trans w w1 w2 [e] evs). Qed.

Lemma emit_full (e : Event) (w : World) :
  wp (emit e) w (fun _ w' => quiet w w' [e] /\ runtime w' = runtime w).
Proof. by repeat split. Qed.

Lemma emit_spec (e : Event) (w : World) :
  wp (emit e) w (fun _ w' => quiet w w' [e]).
Proof. by repeat split. Qed.

Lemma exitCode_buffered (p : Spawned) : exitCode (buffered p) = exitOf p.
Proof. by destruct p. Qed.

Lemma spawnDocker_full (args : list string) (w : World) :
  wp (spawnDocker args) w (fun p w' =>
    quiet w w' [EvDocker args (exitOf p)] /\
    p = fst (docker args (files w) (runtime w)) /\
    runtime w' = snd (docker args (files w) (runtime w))).
Proof.
  unfold wp, spawnDocker, bind, theWorld. simpl.
  destruct (docker args (files w) (runtime w)) as [p rt]. by repeat split.
Qed.

Lemma execDocker_full (args : list string) (w : World) :
  wp (execDocker args) w (fun r w' =>
    quiet w w' [EvDocker args (exitCode r)] /\
    r = buffered (fst (docker args (files w) (runtime w))) /\
    runtime w' = snd (docker args (files w) (runtime w))).
Proof.
  unfold execDocker. apply wp_bind.
  wp_apply (spawnDocker_full args w). intros p w' (Hq & -> & Hrt).
  wp_return. by rewrite exitCode_buffered.
Qed.

Lemma execDocker_spec (args : list string) (w : World) :
  wp (execDocker args) w (fun r w' => quiet w w' [EvDocker args (exitCode r)]).
Proof. wp_apply (execDocker_full args w). tauto. Qed.

Lemma LogService_stream_spec (b msg level : string) (w : World) :
  wp (LogService_stream b msg level) w (fun _ w' => quiet w w' [EvLog b msg level]).
Proof. apply emit_spec. Qed.

Lemma forEach_quiet {A} (P : A -> Event -> Prop) (f : A -> M unit) (l : list A) (w : World) :
  (forall x w0, wp (f x) w0 (fun _ w' => exists e, quiet w0 w' [e] /\ P x e)) ->
  wp (forEach l f) w (fun _ w' => exists evs, quiet w w' evs /\ Forall2 P l evs).
Proof.
  intros Hf. revert w. induction l as [|x l IH]; intros w.
  - wp_return. exists []. split; [apply quiet_refl | constructor].
  - cbn [forEach]. apply wp_bind.
    wp_apply (Hf). intros _ w1 (e & He & HP).
    wp_apply (IH). intros _ w2 (evs & Hevs & HPs).
    exists (e :: evs). split; [by eapply quiet_cons | by constructor].
Qed.


Lemma forEach_rel {A} (R : World -> World -> Prop) (f : A -> M unit) (l : list A) (w : World) :
  (forall w0, R w0 w0) ->
  (forall w0 w1 w2, R w0 w1 -> R w1 w2 -> R w0 w2) ->
  (forall x w0, In x l -> wp (f x) w0 (fun _ w' => R w0 w')) ->
  wp (forEach l f) w (fun _ w' => R w w').
Proof.
  intros Hrefl Htrans. revert w. induction l as [|x l IH]; intros w Hf.
  - apply wp_ret, Hrefl.
  - cbn [forEach]. apply wp_bind.
    eapply wp_mono; [apply Hf; by left | cbv beta]. intros [] w1 H1.
    eapply wp_mono; [apply IH; intros; apply Hf; by right | cbv beta].
    intros [] w2 H2. by eapply Htrans.
Qed.

(** *** container.ts *)

Lemma stopContainer_spec (name : string) (timeout : N) (w : World) :
  wp (stopContainer name timeout) w (fun _ w' => exists x,
    quiet w w' [EvDocker ["stop"; "-t"; JS.show timeout; name] x]).
Proof.
  unfold stopContainer. apply wp_bind.
  wp_apply (execDocker_spec). intros r w' H.
  wp_return. by eexists.
Qed.

Lemma removeContainer_spec (name : string) (w : World) :
  wp (removeContainer name true) w (fun _ w' => exists x,
    quiet w w' [EvDocker ["rm"; "-f"; name] x]).
Proof.
  unfold removeContainer. apply wp_bind.
  wp_apply (execDocker_spec). intros r w' H.
  wp_return. by eexists.
Qed.

Lemma stopAndRemoveContainer_spec (name : string) (w : World) :
  wp (stopAndRemoveContainer name) w (fun _ w' => exists x y,
    quiet w w' [EvDocker ["stop"; "-t"; "10"; name] x; EvDocker ["rm"; "-f"; name] y]).
Proof.
  unfold stopAndRemoveContainer. apply wp_bind.
  wp_apply (stopContainer_spec). intros _ w1 (x & H1).
  wp_apply (removeContainer_spec). intros _ w2 (y & H2).
  exists x, y. by eapply quiet_cons.
Qed.

Lemma ensureContainerStopped_spec (p : string) (w : World) :
  wp (ensureContainerStopped p) w (fun _ w' => exists evs,
    quiet w w' evs /\ Forall (teardownEvent (getContainerName p)) evs).
Proof.
  unfold ensureContainerStopped, containerExists. apply wp_bind, wp_bind.
  wp_apply (execDocker_spec). intros r w1 H1. wp_return.
  destruct (exitCode r =? 0)%Z.
  - apply wp_bind. wp_apply (stopAndRemoveContainer_spec).
    intros _ w2 (x & y & H2). wp_return. eexists. split.
    + by eapply quiet_cons.
    + repeat constructor; eexists; eauto.
  - wp_return. eexists. split; [done|].
    repeat constructor; eexists; eauto.
Qed.

Lemma runContainer_spec (config : ContainerConfig) (w : World) :
  wp (runContainer config) w (fun r w' => exists x,
    quiet w w' [EvDocker (runArgs config) x] /\ runSuccess r = (x =? 0)%Z /\
    x = exitOf (fst (docker (runArgs config) (files w) (runtime w)))).
Proof.
  unfold runContainer. apply wp_bind.
  wp_apply (execDocker_full (runArgs config) w). intros r w' (H & Hr & _).
  assert (Hx : exitCode r = exitOf (fst (docker (runArgs config) (files w) (runtime w))))
    by (rewrite Hr; apply exitCode_buffered).
  destruct (exitCode r =? 0)%Z eqn:Hz; wp_return; exists (exitCode r); by rewrite Hz.
Qed.

Lemma getContainerLogs_spec (name : string) (tail : N) (w : World) :
  wp (getContainerLogs name tail) w (fun _ w' => exists x,
    quiet w w' [EvDocker ["logs"; "--tail"; JS.show tail; name] x]).
Proof.
  unfold getContainerLogs. apply wp_bind.
  wp_apply (execDocker_spec). intros r w' H.
  wp_return. by eexists.
Qed.

Lemma listRunningContainers_spec (w : World) :
  wp listRunningContainers w (fun l w' =>
    let r := buffered (fst (docker psArgs (files w) (runtime w))) in
    quiet w w' [EvDocker psArgs (exitCode r)] /\
    l = if (exitCode r =? 0)%Z then parseContainerList (stdout r) else []).
Proof.
  unfold listRunningContainers. apply wp_bind.
  wp_apply (execDocker_full psArgs w). intros r w' (Hq & -> & _).
  destruct (exitCode _ =? 0)%Z; by wp_return.
Qed.

(** *** The registry of log streams *)

Lemma stopLogStreaming_spec (p : string) (w : World) :
  wp (stopLogStreaming p) w (fun _ w' =>
    runtime w' = runtime w /\ files w' = files w /\ dirs w' = dirs w /\
    clock w' = clock w /\ nextHandle w' = nextHandle w /\
    logStreamers w' = delete p (logStreamers w) /\
    match logStreamers w !! p with
    | Some h => active w' = active w ∖ {[h]} /\ trace w' = trace w ++ [EvKill h]
    | None => active w' = active w /\ trace w' = trace w
    end).
Proof.
  unfold wp, stopLogStreaming, bind, theWorld. simpl.
  destruct (logStreamers w !! p) as [h|] eqn:Hp; simpl.
  - by repeat split.
  - repeat split; try done. by rewrite delete_id.
Qed.

Lemma startLogStreaming_spec (p b : string) (w : World) :
  wp (startLogStreaming p b) w (fun _ w' =>
    runtime w' = runtime w /\ files w' = files w /\ dirs w' = dirs w /\
    clock w' = clock w /\ nextHandle w' = S (nextHandle w) /\
    logStreamers w' = <[p := nextHandle w]> (logStreamers w) /\
    match logStreamers w !! p with
    | Some h =>
        active w' = {[nextHandle w]} ∪ (active w ∖ {[h]}) /\
        trace w' = trace w ++ [EvKill h; EvSpawnLogs (nextHandle w) (getContainerName p) b]
    | None =>
        active w' = {[nextHandle w]} ∪ active w /\
        trace w' = trace w ++ [EvSpawnLogs (nextHandle w) (getContainerName p) b]
    end).
Proof.
  unfold startLogStreaming. apply wp_bind.
  wp_apply (stopLogStreaming_spec).
  intros _ w1 (Hrt & Hfs & Hds & Hck & Hnx & Hreg & Hold).
  unfold wp, streamContainerLogs, bind, theWorld. simpl.
  rewrite Hrt, Hfs, Hds, Hck, Hnx, Hreg, insert_delete_eq.
  repeat split; try done.
  destruct (logStreamers w !! p) as [h|]; destruct Hold as [-> ->];
    split; try done. by rewrite <- app_assoc.
Qed.


(** *** Discovering the managed containers *)

Lemma parseContainerList_In (out : string) (m : ManagedContainer) :
  In m (parseContainerList out) <->
  exists line rest,
    In line (JS.split JS.nl out) /\
    JS.splitWs line = containerName m :: projectId m :: buildId m :: rest /\
    projectId m <> "" /\ buildId m <> "".
Proof.
  unfold parseContainerList.
  rewrite <- list_elem_of_In, list_elem_of_omap. split.
  - intros (o & Ho & Hid). simpl in Hid. subst o.
    apply list_elem_of_In, filter_In in Ho as [Ho Hkeep].
    apply in_map_iff in Ho as (line & Hparse & Hline).
    apply filter_In in Hline as [Hline _].
    unfold parseContainerLine in Hparse.
    destruct (JS.splitWs line) as [|c [|p [|b rest]]] eqn:Hws; try done.
    injection Hparse as <-. simpl in *.
    apply andb_true_iff in Hkeep as [Hp Hb].
    exists line, rest. by rewrite <- !truthy_nonempty.
  - intros (line & rest & Hline & Hws & Hp & Hb).
    exists (Some m). split; [|done].
    apply list_elem_of_In, filter_In. split.
    + apply in_map_iff. exists line. split.
      * unfold parseContainerLine. rewrite Hws. by destruct m.
      * apply filter_In. split; [done|]. destruct line; [|done].
        by compute in Hws.
    + simpl. apply andb_true_iff. by rewrite !truthy_nonempty.
Qed.

Lemma stdout_buffered (p : Spawned) : stdout (buffered p) = JS.trim (printed p).
Proof. by destruct p. Qed.

(** C10.  [listRunningContainers] runs [docker ps] for the containers that
    carry the project label.  The listing is empty when that command exits
    non-zero (or cannot run).  When it exits 0, the entries are exactly
    the records read from the lines of the trimmed output that have at
    least three white-space separated fields and a non-empty second and
    third field (for output in the ASCII range): every other line is
    dropped, so every entry has a non-empty project and build identifier.
    The log streams that [recoverLogStreams] attaches are attached for
    such entries only. *)
Theorem listing_keeps_labelled_containers (w : World) :
  let listing :=
    ["ps"; "--format";
     "{{.Names}} {{.Label " +:+ JS.dq +:+ "thakur.projectId" +:+ JS.dq
       +:+ "}} {{.Label " +:+ JS.dq +:+ "thakur.buildId" +:+ JS.dq +:+ "}}";
     "--filter"; "label=thakur.projectId"] in
  let ran := fst (docker listing (files w) (runtime w)) in
  let listed := fst (listRunningContainers w) in
  let recovered := snd (recoverLogStreams w) in
  (exitOf ran <> 0%Z -> listed = []) /\
  (exitOf ran = 0%Z -> JS.isAscii (printed ran) = true -> forall m,
     In m listed <->
     exists line rest,
       In line (JS.split JS.nl (JS.trim (printed ran))) /\
       JS.splitWs line = containerName m :: projectId m :: buildId m :: rest /\
       projectId m <> "" /\ buildId m <> "") /\
  (forall m, In m listed -> projectId m <> "" /\ buildId m <> "") /\
  (exists evs, trace recovered = trace w ++ evs /\
     forall h c b, In (EvSpawnLogs h c b) evs ->
       exists m, In m listed /\ c = getContainerName (projectId m) /\ b = buildId m
                 /\ projectId m <> "" /\ buildId m <> "").
Proof.
  intros listing ran listed recovered.
  change listing with psArgs in ran.
  set (r := buffered ran).
  assert (Hcode : exitCode r = exitOf ran) by apply exitCode_buffered.
  assert (Hout : stdout r = JS.trim (printed ran)) by apply stdout_buffered.
  rewrite <- Hcode, <- Hout. clear Hcode Hout.
  pose proof (listRunningContainers_spec w) as Hlist.
  unfold wp in Hlist. cbv zeta in Hlist. destruct Hlist as [_ Hlisted].
  change (buffered (fst (docker psArgs (files w) (runtime w)))) with r in Hlisted.
  fold listed in Hlisted. clearbody r.
  assert (Hlabels : forall m, In m listed -> projectId m <> "" /\ buildId m <> "").
  { intros m. rewrite Hlisted. destruct (exitCode r =? 0)%Z; [|done].
    intros (_ & _ & _ & _ & Hp & Hb)%parseContainerList_In. done. }
  split; [|split; [|split; [exact Hlabels|]]].
  - intros Hx. rewrite Hlisted.
    by destruct (Z.eqb_spec (exitCode r) 0).
  - intros Hx _ m. rewrite Hlisted, Hx. simpl. apply parseContainerList_In.
  - subst recovered.
    set (Q := fun (_ : unit) (w' : World) =>
      exists evs, trace w' = trace w ++ evs /\
        forall h c b, In (EvSpawnLogs h c b) evs ->
          exists m, In m listed /\ c = getContainerName (projectId m) /\ b = buildId m
                    /\ projectId m <> "" /\ buildId m <> "").
    change (wp recoverLogStreams w Q). unfold recoverLogStreams, console_log.
    apply wp_bind. wp_apply (emit_full). intros _ w1 [H1 Hrt].
    apply wp_bind. wp_apply (listRunningContainers_spec w1).
    intros l w2 [H2 Hl].
    rewrite (quiet_files _ _ _ H1), Hrt in Hl.
    assert (Hsame : l = listed).
    { rewrite Hl. subst listed. pose proof (listRunningContainers_spec w) as [_ H0].
      exact (eq_sym H0). }
    clear Hl. subst l.
    apply wp_bind.
    set (R := fun w0 w' : World =>
      exists evs, trace w' = trace w0 ++ evs /\
        forall h c b, In (EvSpawnLogs h c b) evs ->
          exists m, In m listed /\ c = getContainerName (projectId m) /\ b = buildId m).
    eapply wp_mono; [apply (forEach_rel R)|cbv beta].
    + intros w0. exists []. split; [by rewrite app_nil_r | intros ??? []].
    + intros w0 w3 w4 (e1 & Ht1 & He1) (e2 & Ht2 & He2).
      exists (e1 ++ e2). split; [rewrite Ht2, Ht1; by rewrite app_assoc|].
      intros h c b [H|H]%in_app_iff; eauto.
    + intros m w0 Hm. wp_apply (startLogStreaming_spec (projectId m) (buildId m) w0).
      intros _ w3 (_ & _ & _ & _ & _ & _ & Hold).
      destruct (logStreamers w0 !! projectId m) as [h0|]; destruct Hold as [_ Ht];
        eexists; (split; [exact Ht|]); intros h c b Hin; simpl in Hin;
        exists m; intuition congruence.
    + intros [] w3 (evs & Ht3 & He3).
      wp_apply (emit_spec). intros [] w4 H4. subst Q. cbv beta.
      eexists. split.
      * rewrite (steps_trace _ _ _ (quiet_steps _ _ _ H4)), Ht3.
        rewrite (steps_trace _ _ _ (quiet_steps _ _ _ H2)).
        rewrite (steps_trace _ _ _ (quiet_steps _ _ _ H1)).
        rewrite <- !app_assoc. reflexivity.
      * intros h c b Hin. simpl in Hin.
        rewrite !in_app_iff in Hin. simpl in Hin.
        destruct Hin as [Hin|[Hin|[Hin|[Hin|[]]]]]; try done.
        destruct (He3 h c b Hin) as (m & Hm & -> & ->).
        exists m. destruct (Hlabels m Hm). done.
Qed.


(** *** Pruning images *)

Lemma insertImage_perm (x : Image) (l : list Image) :
  Permutation (insertImage x l) (x :: l).
Proof.
  induction l as [|y l IH]; simpl; [done|].
  destruct (0 <? compareImages x y)%Z; [|done].
  rewrite IH. apply perm_swap.
Qed.

Lemma insertionSort_perm (l : list Image) : Permutation (foldr insertImage [] l) l.
Proof.
  induction l as [|x l IH]; simpl; [done|].
  rewrite insertImage_perm. by constructor.
Qed.

Lemma sortImages_perm (l : list Image) : Permutation (sortImages l) l.
Proof.
  unfold sortImages. destruct (consistentOn l);
    [apply insertionSort_perm | apply engineSort_perm].
Qed.








Lemma removeImage_spec (name : string) (w : World) :
  wp (removeImage name) w (fun _ w' => exists x,
    quiet w w' [EvDocker ["rmi"; "-f"; name] x]).
Proof.
  unfold removeImage. apply wp_bind.
  wp_apply (execDocker_spec). intros r w' H. wp_return. by eexists.
Qed.

Lemma pruneProjectImages_spec (p : string) (keepCount : nat) (w : World) :
  wp (pruneProjectImages p keepCount) w (fun _ w' =>
    let r := buffered (fst (docker (imagesArgs p) (files w) (runtime w))) in
    exists removals,
      quiet w w' (EvDocker (imagesArgs p) (exitCode r) :: removals) /\
      Forall2 removalOf
        (if negb (exitCode r =? 0)%Z || negb (JS.truthy (stdout r)) then []
         else drop keepCount (listedImages (stdout r)))
        removals).
Proof.
  unfold pruneProjectImages. apply wp_bind.
  wp_apply (execDocker_full (imagesArgs p) w). intros r w1 (H1 & -> & _).
  set (r := buffered (docker (imagesArgs p) (files w) (runtime w)).1) in *.
  destruct (negb (exitCode r =? 0)%Z || negb (JS.truthy (stdout r))).
  - wp_return. exists []. split; [done | constructor].
  - wp_apply (forEach_quiet removalOf).
    + intros img w0. apply wp_bind. wp_apply (removeImage_spec).
      intros _ w2 (x & H2). wp_return. exists (EvDocker ["rmi"; "-f"; imgName img] x).
      split; [done | by exists x].
    + intros [] w2 (evs & H2 & Hevs). exists evs. split; [|done].
      by eapply quiet_cons.
Qed.

(** What pruning does when the listing succeeds and the runtime prints
    one line for each of [imgs]: it removes the images that follow the
    first [keepCount] in the sorted order, one after the other, whatever
    each removal answers. *)
Lemma prune_printed_listing (p : string) (keepCount : nat) (imgs : list Image) (w : World) :
  let ran := fst (docker (imagesArgs p) (files w) (runtime w)) in
  let w' := snd (pruneProjectImages p keepCount w) in
  exitOf ran = 0%Z ->
  printed ran = printedLines (map imageLine imgs) ->
  forallb wellListed imgs = true ->
  exists removals,
    trace w' = trace w ++ EvDocker (imagesArgs p) 0 :: removals /\
    files w' = files w /\
    Forall2 removalOf (drop keepCount (sortImages imgs)) removals.
Proof.
  intros ran w' Hexit Hout Hall.
  pose proof (pruneProjectImages_spec p keepCount w) as H. unfold wp in H. cbv zeta in H.
  fold w' in H. destruct H as (removals & Hq & Hrem).
  change (fst (docker (imagesArgs p) (files w) (runtime w))) with ran in Hq, Hrem.
  rewrite exitCode_buffered, Hexit in Hq, Hrem.
  rewrite stdout_buffered, Hout in Hrem.
  cbn [Z.eqb negb orb] in Hrem.
  exists removals. split; [apply (steps_trace _ _ _ (quiet_steps _ _ _ Hq))|].
  split; [apply (quiet_files _ _ _ Hq)|].
  destruct imgs as [|i0 imgs0] eqn:Hcase.
  { simpl in Hrem. inversion Hrem. unfold sortImages. simpl. rewrite drop_nil. constructor. }
  rewrite <- Hcase in *.
  assert (Hne : imgs <> []) by by rewrite Hcase.
  unfold listedImages in Hrem. rewrite (parse_printed_images imgs Hne Hall) in Hrem.
  assert (Htruthy : JS.truthy (JS.trim (printedLines (map imageLine imgs))) = true).
  { rewrite trim_printedLines.
    - apply truthy_nonempty, tight_nonempty, join_tight; [by rewrite Hcase|].
      apply List.Forall_forall. intros l (i & <- & Hi)%in_map_iff.
      rewrite forallb_forall in Hall. by apply imageLine_tight, Hall.
    - apply List.Forall_forall. intros l (i & <- & Hi)%in_map_iff.
      rewrite forallb_forall in Hall. by apply imageLine_tight, Hall. }
  rewrite Htruthy in Hrem. exact Hrem.
Qed.



(** *** The health check *)

Lemma doFetch_spec (port : N) (w : World) :
  wp (doFetch port) w (fun o w' =>
    o = fst (fetch port (clock w) (runtime w)) /\
    runtime w' = snd (fetch port (clock w) (runtime w)) /\
    clock w' = (clock w + Z.of_N (took o))%Z /\
    files w' = files w /\
    steps w w' [EvFetch port (status o)]).
Proof.
  unfold wp, doFetch, bind, theWorld. simpl.
  destruct (fetch port (clock w) (runtime w)) as [o rt]. by repeat split.
Qed.

Lemma sleep_spec (ms : Z) (w : World) :
  wp (sleep ms) w (fun _ w' =>
    runtime w' = runtime w /\ clock w' = (clock w + ms)%Z /\
    files w' = files w /\ steps w w' [EvSleep ms]).
Proof. by repeat split. Qed.

Lemma pollState_time_mono (port : N) (k : nat) (rt : Runtime) (t : Z) :
  (t + 500 * Z.of_nat k <= snd (pollState port k rt t))%Z.
Proof.
  revert rt t. induction k as [|k IH]; intros rt t; simpl; [lia|].
  destruct (fetch port t rt) as [o rt'].
  specialize (IH rt' (t + Z.of_N (took o) + 500)%Z). lia.
Qed.

Lemma pollState_add (port : N) (j k : nat) (rt : Runtime) (t : Z) :
  pollState port (j + k) rt t
  = pollState port k (fst (pollState port j rt t)) (snd (pollState port j rt t)).
Proof.
  revert rt t. induction j as [|j IH]; intros rt t; simpl; [done|].
  destruct (fetch port t rt) as [o rt']. apply IH.
Qed.

Lemma pollTime_mono (port : N) (j k : nat) (w : World) :
  j <= k -> (pollTime port j w <= pollTime port k w)%Z.
Proof.
  intros Hjk. unfold pollTime.
  replace k with (j + (k - j)) by lia. rewrite pollState_add.
  pose proof (pollState_time_mono port (k - j)
                (fst (pollState port j (runtime w) (clock w)))
                (snd (pollState port j (runtime w) (clock w)))). lia.
Qed.

(** One round of the loop moves the schedule on by one poll. *)
Lemma poll_shift (port : N) (w w1 : World) :
  runtime w1 = snd (fetch port (clock w) (runtime w)) ->
  clock w1 = (clock w + Z.of_N (took (fst (fetch port (clock w) (runtime w)))) + 500)%Z ->
  (forall k, pollTime port (S k) w = pollTime port k w1) /\
  (forall k, pollOutcome port (S k) w = pollOutcome port k w1) /\
  (forall k, pollEvents port (S k) w
             = EvFetch port (status (fst (fetch port (clock w) (runtime w))))
               :: EvSleep 500 :: pollEvents port k w1).
Proof.
  intros Hrt Hck. unfold pollTime, pollOutcome, pollEvents. simpl.
  destruct (fetch port (clock w) (runtime w)) as [o rt']. simpl in *.
  rewrite Hrt, Hck. done.
Qed.

(** What the loop does, whatever the fuel: [n] unanswered polls within
    the window, then a healthy answer, the end of the window, or the end
    of the fuel. *)
Lemma waitLoop_spec (fuel : nat) (port : N) (start timeoutMs : Z) (w : World) :
  wp (waitLoop fuel port start timeoutMs) w (fun res w' =>
    exists n last,
      steps w w' (pollEvents port n w ++ last) /\ files w' = files w /\
      (forall j, j < n ->
         (pollTime port j w - start < timeoutMs)%Z /\
         respondsHealthy (pollOutcome port j w) = false) /\
      match res with
      | Some true =>
          last = [EvFetch port (status (pollOutcome port n w))] /\
          (pollTime port n w - start < timeoutMs)%Z /\
          respondsHealthy (pollOutcome port n w) = true /\
          clock w' = (pollTime port n w + Z.of_N (took (pollOutcome port n w)))%Z
      | Some false =>
          last = [] /\ (timeoutMs <= pollTime port n w - start)%Z /\
          clock w' = pollTime port n w
      | None => last = [] /\ n = fuel
      end).
Proof.
  revert w. induction fuel as [|fuel IH]; intros w.
  - wp_return. exists 0, []. split; [apply steps_refl|].
    repeat split; try done; lia.
  - cbn [waitLoop]. apply wp_bind. unfold now at 1. unfold wp at 1. simpl.
    destruct (Z.ltb_spec (clock w - start) timeoutMs) as [Hin|Hout].
    + apply wp_bind. wp_apply (doFetch_spec port w).
      intros o w1 (Ho & Hrt1 & Hck1 & Hfs1 & Hst1).
      destruct (respondsHealthy o) eqn:Hhealthy.
      * wp_return. exists 0, [EvFetch port (status o)].
        unfold pollTime, pollOutcome, pollEvents. simpl. rewrite <- Ho.
        split; [exact Hst1|]. repeat split; try done; lia.
      * apply wp_bind. wp_apply (sleep_spec 500 w1).
        intros _ w2 (Hrt2 & Hck2 & Hfs2 & Hst2).
        destruct (poll_shift port w w2) as (Htime & Hout & Hevs).
        { congruence. } { rewrite Hck2, Hck1, Ho. done. }
        wp_apply (IH w2). intros res w3 (n & last & Hst3 & Hfs3 & Hbefore & Hres).
        exists (S n), last. split; [|split; [congruence|split]].
        -- rewrite Hevs, <- Ho.
           change (steps w w3 ([EvFetch port (status o)] ++ [EvSleep 500]
                                ++ (pollEvents port n w2 ++ last))).
           eapply steps_trans; [exact Hst1|]. by eapply steps_trans.
        -- intros [|j] Hj.
           ++ unfold pollTime, pollOutcome. simpl. rewrite <- Ho. done.
           ++ rewrite Htime, Hout. apply Hbefore. lia.
        -- rewrite Htime, Hout.
           destruct res as [[]|]; [done..|]. destruct Hres as [-> ->]. done.
    + wp_return. exists 0, []. unfold pollTime. simpl.
      split; [apply steps_refl|]. repeat split; try done; lia.
Qed.

Lemma waitFuel_enough (timeoutMs : Z) :
  (timeoutMs < 500 * (Z.of_nat (waitFuel timeoutMs) - 1))%Z.
Proof.
  unfold waitFuel.
  destruct (Z.le_gt_cases 0 timeoutMs) as [Hpos|Hneg].
  - pose proof (Z.div_pos timeoutMs 500 Hpos ltac:(lia)).
    pose proof (Z.mod_pos_bound timeoutMs 500 ltac:(lia)).
    pose proof (Z.div_mod timeoutMs 500 ltac:(lia)). lia.
  - lia.
Qed.


Lemma pollTime_ge (port : N) (k : nat) (w : World) :
  (clock w + 500 * Z.of_nat k <= pollTime port k w)%Z.
Proof. apply pollState_time_mono. Qed.

Lemma pollTime_S (port : N) (k : nat) (w : World) :
  pollTime port (S k) w
  = (pollTime port k w + Z.of_N (took (pollOutcome port k w)) + 500)%Z.
Proof.
  unfold pollTime, pollOutcome. replace (S k) with (k + 1) by lia.
  rewrite pollState_add.
  destruct (pollState port k (runtime w) (clock w)) as [rt t]. simpl.
  by destruct (fetch port t rt).
Qed.

Lemma respondsHealthy_iff (o : FetchOutcome) :
  respondsHealthy o = true <-> exists s, status o = Some s /\ (s < 500)%N.
Proof.
  unfold respondsHealthy. destruct (status o) as [s|].
  - split.
    + intros H. exists s. split; [done|].
      apply orb_true_iff in H as [[_ H]%andb_true_iff|H].
      * apply N.leb_le in H. lia.
      * by apply N.ltb_lt in H.
    + intros (s' & [= <-] & Hs). apply orb_true_iff. right. by apply N.ltb_lt.
  - split; [done|]. by intros (s & ? & _).
Qed.

Lemma waitForHealthy_spec (port : N) (timeoutMs : Z) (w : World) :
  wp (waitForHealthy port timeoutMs) w (fun healthy w' =>
    fst (waitLoop (waitFuel timeoutMs) port (clock w) timeoutMs w) = Some healthy /\
    exists n,
      steps w w' (pollEvents port n w ++
                  if healthy then [EvFetch port (status (pollOutcome port n w))] else []) /\
      files w' = files w /\
      (forall j, j < n ->
         (pollTime port j w - clock w < timeoutMs)%Z /\
         respondsHealthy (pollOutcome port j w) = false) /\
      if healthy then
        (pollTime port n w - clock w < timeoutMs)%Z /\
        respondsHealthy (pollOutcome port n w) = true /\
        clock w' = (pollTime port n w + Z.of_N (took (pollOutcome port n w)))%Z
      else
        (timeoutMs <= pollTime port n w - clock w)%Z /\ clock w' = pollTime port n w).
Proof.
  unfold waitForHealthy. apply wp_bind. unfold now at 1. unfold wp at 1. simpl.
  apply wp_bind.
  pose proof (waitLoop_spec (waitFuel timeoutMs) port (clock w) timeoutMs w) as Hloop.
  unfold wp at 1. unfold wp in Hloop.
  destruct (waitLoop (waitFuel timeoutMs) port (clock w) timeoutMs w) as [res w'].
  simpl in *. wp_return.
  destruct Hloop as (n & last & Hst & Hfs & Hbefore & Hres).
  destruct res as [[]|]; simpl.
  - destruct Hres as (-> & Hres). split; [done|]. by exists n.
  - destruct Hres as (-> & Hres). split; [done|]. by exists n.
  - exfalso. destruct Hres as [_ ->].
    pose proof (waitFuel_enough timeoutMs) as Hfuel.
    assert (Hlt : waitFuel timeoutMs - 1 < waitFuel timeoutMs)
      by (unfold waitFuel; lia).
    destruct (Hbefore _ Hlt) as [Hin _].
    pose proof (pollTime_ge port (waitFuel timeoutMs - 1) w).
    unfold waitFuel in *. lia.
Qed.

(** C5 (amended).  The loop of [waitForHealthy] ends within its fuel.  It
    makes polls, the next one 500 ms after the earlier one has settled,
    and does nothing else.  It returns [true] exactly when some poll
    issued before the timeout has elapsed is answered with a status below
    500.  When it returns [false], the timeout has elapsed; and when every
    fetch settles within [d] ms, less than [d] + 500 ms have passed
    beyond it.  With polls that are refused at once and a timeout that is
    a multiple of 500 ms, it returns exactly at the timeout.  The code
    sets no limit on the time a fetch takes: without such a [d] nothing
    bounds the time of the return. *)
Theorem health_check_polls_until_timeout (port : N) (timeoutMs : Z) (w : World) :
  let healthy := fst (waitForHealthy port timeoutMs w) in
  let w' := snd (waitForHealthy port timeoutMs w) in
  let elapsed := (clock w' - clock w)%Z in
  fst (waitLoop (waitFuel timeoutMs) port (clock w) timeoutMs w) = Some healthy /\
  (forall k, pollTime port (S k) w
             = (pollTime port k w + Z.of_N (took (pollOutcome port k w)) + 500)%Z) /\
  (exists n, trace w' = trace w ++ pollEvents port n w ++
               if healthy then [EvFetch port (status (pollOutcome port n w))] else []) /\
  (healthy = true <->
     exists k s, (pollTime port k w - clock w < timeoutMs)%Z /\
                 status (pollOutcome port k w) = Some s /\ (s < 500)%N) /\
  (healthy = false ->
     (timeoutMs <= elapsed)%Z /\
     forall d, (forall k, Z.of_N (took (pollOutcome port k w)) <= d)%Z ->
               (elapsed < Z.max timeoutMs 0 + d + 500)%Z) /\
  (healthy = false ->
     (forall k, took (pollOutcome port k w) = 0%N) ->
     (0 <= timeoutMs)%Z -> (timeoutMs mod 500 = 0)%Z -> elapsed = timeoutMs).
Proof.
  intros healthy w' elapsed.
  pose proof (waitForHealthy_spec port timeoutMs w) as H. unfold wp in H.
  fold healthy w' in H. destruct H as (Hfuel & n & Hst & _ & Hbefore & Hres).
  split; [exact Hfuel|]. split; [intros k; apply pollTime_S|].
  split; [exists n; by destruct Hst|].
  assert (Htimes : forall d, (forall k, Z.of_N (took (pollOutcome port k w)) <= d)%Z ->
            healthy = false ->
            (timeoutMs <= elapsed)%Z /\ (elapsed < Z.max timeoutMs 0 + d + 500)%Z /\
            (n = 0 \/ exists m, n = S m /\ (pollTime port m w - clock w < timeoutMs)%Z)).
  { intros d Hd Hh. rewrite Hh in Hres. destruct Hres as [Hout Hck].
    subst elapsed. rewrite Hck. split; [done|].
    destruct n as [|m].
    - unfold pollTime. simpl. pose proof (Hd 0). split; [lia | by left].
    - destruct (Hbefore m ltac:(lia)) as [Hin _].
      rewrite pollTime_S. pose proof (Hd m). split; [lia|]. right. by exists m. }
  split; [|split].
  - split.
    + intros Hh. rewrite Hh in Hres. destruct Hres as (Hin & Hok & _).
      apply respondsHealthy_iff in Hok as (s & Hs & Hlt). by exists n, s.
    + intros (k & s & Hin & Hs & Hlt).
      destruct healthy eqn:Hh; [done|]. exfalso.
      destruct Hres as [Hout _].
      destruct (Nat.lt_ge_cases k n) as [Hk|Hk].
      * destruct (Hbefore k Hk) as [_ Hno].
        assert (Hyes : respondsHealthy (pollOutcome port k w) = true)
          by (apply respondsHealthy_iff; by exists s).
        congruence.
      * pose proof (pollTime_mono port n k w Hk). lia.
  - intros Hh. split.
    + rewrite Hh in Hres. destruct Hres as [Hout Hck]. subst elapsed. lia.
    + intros d Hd. by destruct (Htimes d Hd Hh) as (_ & ? & _).
  - intros Hh Hzero Hpos Hmod.
    assert (Hk : forall k, pollTime port k w = (clock w + 500 * Z.of_nat k)%Z).
    { induction k as [|k IHk]; [unfold pollTime; simpl; lia|].
      rewrite pollTime_S, IHk, Hzero. lia. }
    rewrite Hh in Hres. destruct Hres as [Hout Hck]. subst elapsed.
    rewrite Hck, Hk in *.
    apply Z.mod_divide in Hmod as [q Hq]; [|lia].
    destruct n as [|m]; [lia|].
    destruct (Hbefore m ltac:(lia)) as [Hin _]. rewrite Hk in Hin. nia.
Qed.


(** *** Building an image *)

Lemma effects_app (a b : list Event) : effects (a ++ b) = effects a ++ effects b.
Proof. apply List.filter_app. Qed.

Lemma logged_refl (w : World) : logged w w.
Proof. exists []. split; [apply quiet_refl | done]. Qed.

Lemma logged_trans (w w1 w2 : World) : logged w w1 -> logged w1 w2 -> logged w w2.
Proof.
  intros (e1 & H1 & Hf1 & Hr1) (e2 & H2 & Hf2 & Hr2). exists (e1 ++ e2).
  split; [by eapply quiet_trans|]. split; [|congruence].
  by rewrite effects_app, Hf1, Hf2.
Qed.

Lemma callLog_spec (onLog : option (string -> M unit)) (msg : string) (w : World) :
  sink onLog -> wp (callLog onLog msg) w (fun _ w' => logged w w').
Proof.
  intros Hsink. destruct onLog as [f|]; simpl.
  - by apply Hsink.
  - wp_return. apply logged_refl.
Qed.

Lemma LogService_sink (b level : string) :
  sink (Some (fun msg => LogService_stream b msg level)).
Proof.
  intros f [= <-] msg w. wp_apply (emit_full). intros _ w' [Hq Hrt].
  by exists [EvLog b msg level].
Qed.

Lemma existsSync_spec (path : string) (w : World) :
  wp (existsSync path) w (fun b w' => w' = w /\ b = existsIn w path).
Proof. done. Qed.

Lemma writeFile_spec (path content : string) (w : World) :
  wp (writeFile path content) w (fun _ w' =>
    steps w w' [EvWriteFile path content] /\ clock w' = clock w /\
    runtime w' = runtime w /\ files w' = <[path := content]> (files w)).
Proof. by repeat split. Qed.

Lemma unlink_spec (path : string) (w : World) :
  wp (unlink path) w (fun _ w' =>
    steps w w' [EvUnlink path] /\ clock w' = clock w /\
    runtime w' = runtime w /\ files w' = delete path (files w)).
Proof. by repeat split. Qed.

Lemma detectEntryIn_pure (dir : string) (patterns : list string) (w : World) :
  snd (detectEntryIn dir patterns w) = w.
Proof.
  induction patterns as [|pat rest IH]; [done|].
  cbn [detectEntryIn]. unfold bind, existsSync at 1.
  by destruct (_ || _).
Qed.

Lemma hasStartScript_pure (dir : string) (w : World) :
  snd (hasStartScript dir w) = w.
Proof.
  unfold hasStartScript, bind, existsSync, readFileSync, ret.
  by destruct (_ || _).
Qed.

Lemma execDockerWithStream_spec (args : list string)
    (onLog : option (string -> M unit)) (w : World) :
  sink onLog ->
  wp (execDockerWithStream args (fun line => callLog onLog line)) w (fun res w' =>
    let r := docker args (files w) (runtime w) in
    res = (exitOf (fst r), streamError (fst r)) /\ runtime w' = snd r /\
    exists evs, quiet w w' (EvDocker args (exitOf (fst r)) :: evs)
                /\ effects evs = []).
Proof.
  intros Hsink. unfold execDockerWithStream. apply wp_bind.
  wp_apply (spawnDocker_full args w). intros p w1 (H1 & -> & Hrt1).
  destruct (fst (docker args (files w) (runtime w))) as [code output|message] eqn:Hran.
  - apply wp_bind.
    eapply wp_mono; [apply (forEach_rel logged)|cbv beta].
    + apply logged_refl.
    + apply logged_trans.
    + intros c w0 _. eapply wp_mono; [apply (forEach_rel logged)|cbv beta].
      * apply logged_refl.
      * apply logged_trans.
      * intros line w2 _. by apply callLog_spec.
      * done.
    + intros [] w2 (evs & H2 & Hfx & Hrt2). wp_return.
      split; [done|]. split; [congruence|].
      exists evs. split; [by eapply quiet_cons | done].
  - wp_return. split; [done|]. split; [done|].
    exists []. split; [done|done].
Qed.


Lemma existsIn_file (w : World) (path content : string) :
  files w !! path = Some content -> existsIn w path = true.
Proof.
  intros H. unfold existsIn. rewrite bool_decide_eq_true_2; [done|].
  apply elem_of_dom. by eexists.
Qed.

Lemma existsIn_nofile (w : World) (path : string) :
  files w !! path = None -> existsIn w path = bool_decide (path ∈ dirs w).
Proof.
  intros H. unfold existsIn. rewrite bool_decide_eq_false_2; [done|].
  by apply not_elem_of_dom.
Qed.

Lemma buildImage_spec (p b dir : string) (fw : AppType) (port : N)
    (onLog : option (string -> M unit)) (w : World) :
  sink onLog ->
  wp (buildImage p b dir fw port onLog) w (fun out w' =>
    let path := join dir "Dockerfile" in
    exists evs, steps w w' evs /\ clock w' = clock w /\
      if negb (existsIn w dir) then
        evs = [] /\ files w' = files w /\ runtime w' = runtime w /\
        out = Resolved {| buildSuccess := false;
                          buildImageName := getImageName p b;
                          buildError := Some ("Source directory not found: " +:+ dir) |}
      else
        match files w !! path with
        | Some c =>
            buildRun p b dir (negb (String.eqb c (sanitizeDockerfile c port)))
              (sanitizeDockerfile c port) w out w' evs
        | None =>
            if bool_decide (path ∈ dirs w) then
              evs = [] /\ files w' = files w /\ runtime w' = runtime w /\
              exists msg, out = Rejected msg
            else
              buildRun p b dir true
                (getDockerfileContent fw port (entryFor dir w)) w out w' evs
        end).
Proof.
  intros Hsink. unfold buildImage. apply wp_bind.
  wp_apply (existsSync_spec dir w). intros ? ? [-> ->].
  destruct (existsIn w dir) eqn:Hdir; cbn [negb].
  2:{ wp_return. exists []. split; [apply steps_refl | done]. }
  apply wp_bind. wp_apply (existsSync_spec (join dir "Dockerfile") w).
  intros ? ? [-> ->].
  (* the build and the clean-up, once the recipe is in place *)
  assert (Htail : forall (written : bool) (recipe : string) (w1 : World) (e1 : list Event),
    steps w w1 e1 -> clock w1 = clock w -> runtime w1 = runtime w ->
    files w1 = (if written then <[join dir "Dockerfile" := recipe]> (files w) else files w) ->
    is_Some (files w1 !! join dir "Dockerfile") ->
    effects e1 = (if written then [EvWriteFile (join dir "Dockerfile") recipe] else []) ->
    wp (callLog onLog ("Building Docker image: " +:+ getImageName p b) ;;;
        result <- execDockerWithStream ["build"; "-t"; getImageName p b; dir]
                    (fun line => callLog onLog line) ;;
        stillThere <- existsSync (join dir "Dockerfile") ;;
        (if stillThere then unlink (join dir "Dockerfile") else ret tt) ;;;
        if negb (fst result =? 0)%Z then
          ret (Resolved {| buildSuccess := false; buildImageName := getImageName p b;
                           buildError := Some (orElseOpt (snd result) "Docker build failed") |})
        else
          callLog onLog ("Image built successfully: " +:+ getImageName p b) ;;;
          ret (Resolved {| buildSuccess := true; buildImageName := getImageName p b;
                           buildError := None |}))
      w1
      (fun out w' => exists evs, steps w w' evs /\ clock w' = clock w /\
                                 buildRun p b dir written recipe w out w' evs)).
  { intros written recipe w1 e1 Hst1 Hck1 Hrt1 Hfs1 [c1 Hthere] Hfx1.
    apply wp_bind. eapply wp_mono; [by apply callLog_spec | cbv beta].
    intros _ w2 (e2 & Hq2 & Hfx2 & Hrt2).
    apply wp_bind. eapply wp_mono; [by apply execDockerWithStream_spec | cbv beta].
    intros res w3 (-> & Hrt3 & e3 & Hq3 & Hfx3).
    pose proof (quiet_files _ _ _ Hq2) as Hfs2.
    pose proof (quiet_files _ _ _ Hq3) as Hfs3.
    rewrite Hfs2, Hrt2, Hrt1 in Hrt3, Hq3 |- *.
    set (r := docker ["build"; "-t"; getImageName p b; dir] (files w1) (runtime w)) in *.
    apply wp_bind. wp_apply (existsSync_spec (join dir "Dockerfile") w3).
    intros ? ? [-> ->].
    rewrite (existsIn_file w3 _ c1) by congruence.
    apply wp_bind. wp_apply (unlink_spec (join dir "Dockerfile") w3).
    intros _ w4 (Hst4 & Hck4 & Hrt4 & Hfs4).
    pose proof (steps_trans _ _ _ _ _ Hst1
                  (steps_trans _ _ _ _ _ (quiet_steps _ _ _ Hq2)
                     (steps_trans _ _ _ _ _ (quiet_steps _ _ _ Hq3) Hst4))) as Hst.
    assert (Hck : clock w4 = clock w).
    { rewrite Hck4, (quiet_clock _ _ _ Hq3), (quiet_clock _ _ _ Hq2). done. }
    assert (Hfiles : files w4 = delete (join dir "Dockerfile") (files w)).
    { rewrite Hfs4, Hfs3, Hfs2, Hfs1. destruct written; [|done].
      apply delete_insert_eq. }
    assert (Hfx : effects (e1 ++ e2 ++ (EvDocker ["build"; "-t"; getImageName p b; dir]
                                         (exitOf (fst r)) :: e3)
                              ++ [EvUnlink (join dir "Dockerfile")])
                  = (if written then [EvWriteFile (join dir "Dockerfile") recipe] else [])
                    ++ [EvDocker (buildArgs p b dir) (exitOf (fst r));
                        EvUnlink (join dir "Dockerfile")]).
    { rewrite !effects_app, Hfx1, Hfx2. simpl. by rewrite Hfx3. }
    assert (Hr : r = docker (buildArgs p b dir)
                       (if written then <[join dir "Dockerfile" := recipe]> (files w)
                        else files w) (runtime w)).
    { subst r. by rewrite Hfs1. }
    cbn [fst snd]. unfold buildRun, buildResultOf. cbv zeta. rewrite <- Hr.
    destruct (negb (exitOf (fst r) =? 0)%Z).
    - wp_return. eexists. split; [exact Hst|]. split; [done|].
      split; [exact Hfx|]. split; [done|]. split; [congruence|done].
    - apply wp_bind. eapply wp_mono; [by apply callLog_spec | cbv beta].
      intros _ w5 (e5 & Hq5 & Hfx5 & Hrt5). wp_return.
      eexists. split; [exact (steps_trans _ _ _ _ _ Hst (quiet_steps _ _ _ Hq5))|].
      split; [rewrite (quiet_clock _ _ _ Hq5); done|].
      split; [by rewrite effects_app, Hfx, Hfx5, app_nil_r|].
      split; [rewrite (quiet_files _ _ _ Hq5); done|].
      split; [congruence|done]. }
  cbv zeta.
  destruct (files w !! join dir "Dockerfile") as [c|] eqn:Hfile.
  - rewrite (existsIn_file w _ c Hfile). apply wp_bind, wp_bind.
    unfold wp at 1, readFileSync. cbn [fst snd]. rewrite Hfile.
    apply wp_bind.
    destruct (String.eqb c (sanitizeDockerfile c port)) eqn:Hsame; cbn [negb].
    + eapply wp_mono; [by apply callLog_spec | cbv beta].
      intros _ w1 (e1 & [Hst1 Hfs1 Hck1] & Hfx1 & Hrt1). wp_return.
      apply (Htail false (sanitizeDockerfile c port) w1 e1); try done.
      rewrite Hfs1. by eexists.
    + apply wp_bind. wp_apply (writeFile_spec (join dir "Dockerfile")
                                 (sanitizeDockerfile c port) w).
      intros _ w1 (Hst1 & Hck1 & Hrt1 & Hfs1).
      eapply wp_mono; [by apply callLog_spec | cbv beta].
      intros _ w2 (e2 & [Hst2 Hfs2 Hck2] & Hfx2 & Hrt2). wp_return.
      apply (Htail true (sanitizeDockerfile c port) w2
               ([EvWriteFile (join dir "Dockerfile") (sanitizeDockerfile c port)] ++ e2)).
      * by eapply steps_trans.
      * congruence.
      * congruence.
      * congruence.
      * rewrite Hfs2, Hfs1, lookup_insert_eq. by eexists.
      * by rewrite effects_app, Hfx2.
  - rewrite (existsIn_nofile w _ Hfile).
    destruct (bool_decide (join dir "Dockerfile" ∈ dirs w)) eqn:Hisdir.
    + apply wp_bind, wp_bind.
      unfold wp at 1, readFileSync. cbn [fst snd]. rewrite Hfile.
      do 2 wp_return. exists []. split; [apply steps_refl|].
      repeat split; try done. by eexists.
    + apply wp_bind.
      match goal with
      | |- wp (bind _ (fun scripted => bind (@?c scripted) ?K)) _ ?P =>
          assert (HK : forall w1, logged w w1 -> wp (K (entryFor dir w)) w1 P)
      end.
      { intros w1 (e1 & [Hst1 Hfs1 Hck1] & Hfx1 & Hrt1). cbv beta zeta.
        apply wp_bind.
        wp_apply (writeFile_spec (join dir "Dockerfile")
                    (getDockerfileContent fw port (entryFor dir w)) w1).
        intros _ w2 (Hst2 & Hck2 & Hrt2 & Hfs2).
        apply wp_bind. eapply wp_mono; [by apply callLog_spec | cbv beta].
        intros _ w3 (e3 & [Hst3 Hfs3 Hck3] & Hfx3 & Hrt3). wp_return.
        apply (Htail true (getDockerfileContent fw port (entryFor dir w)) w3
                 (e1 ++ [EvWriteFile (join dir "Dockerfile")
                           (getDockerfileContent fw port (entryFor dir w))] ++ e3)).
        * eapply steps_trans; [exact Hst1|]. by eapply steps_trans.
        * congruence.
        * congruence.
        * congruence.
        * rewrite Hfs3, Hfs2, lookup_insert_eq. by eexists.
        * rewrite !effects_app, Hfx1, Hfx3. done. }
      apply wp_bind. unfold wp at 1.
      rewrite hasStartScript_pure.
      destruct (fst (hasStartScript dir w)) eqn:Hscr; cbn [negb].
      * assert (He : entryFor dir w = None) by (unfold entryFor; by rewrite Hscr).
        rewrite He in HK |- *.
        apply wp_bind. wp_return. apply HK, logged_refl.
      * apply wp_bind, wp_bind. unfold wp at 1. unfold detectEntryFile.
        rewrite detectEntryIn_pure.
        destruct (fst (detectEntryIn dir ENTRY_PATTERNS w)) as [f|] eqn:Hfound.
        -- assert (He : entryFor dir w = Some f)
             by (unfold entryFor, detectEntryFile; by rewrite Hscr).
           rewrite He in HK |- *.
           apply wp_bind. eapply wp_mono; [by apply callLog_spec | cbv beta].
           intros _ w1 H1. wp_return. by apply HK.
        -- assert (He : entryFor dir w = None)
             by (unfold entryFor, detectEntryFile; by rewrite Hscr).
           rewrite He in HK |- *.
           apply wp_bind. eapply wp_mono; [by apply callLog_spec | cbv beta].
           intros _ w1 H1. wp_return. by apply HK.
Qed.


(** *** Deploying *)

Lemma effects_id (P : Event -> Prop) (evs : list Event) :
  (forall e, P e -> isLog e = false) -> Forall P evs -> effects evs = evs.
Proof.
  intros HP H. induction H as [|e evs He _ IH]; [done|].
  unfold effects in *. simpl. by rewrite (HP e He), IH.
Qed.

Lemma teardown_not_log (name : string) (e : Event) :
  teardownEvent name e -> isLog e = false.
Proof. by intros [x [->|[->| ->]]]. Qed.

Lemma unanswered_not_log (port : N) (e : Event) :
  unansweredPoll port e -> isLog e = false.
Proof. by intros [->|(a & -> & _)]. Qed.

Lemma recipeWrite_not_log (path : string) (e : Event) :
  recipeWrite path e -> isLog e = false.
Proof. by intros [c ->]. Qed.

Lemma respondsHealthy_answer (o : FetchOutcome) :
  respondsHealthy o = healthyAnswer (status o).
Proof.
  unfold respondsHealthy, healthyAnswer. destruct (status o) as [s|]; [|done].
  destruct (N.ltb_spec s 500) as [Hlt|Hge]; [apply orb_true_r|].
  rewrite orb_false_r. apply andb_false_iff. right. apply N.leb_gt. lia.
Qed.

Lemma pollEventsFrom_unanswered (port : N) (n : nat) (rt : Runtime) (t : Z) :
  (forall j, j < n ->
     respondsHealthy (let (rt', t') := pollState port j rt t in
                      fst (fetch port t' rt')) = false) ->
  Forall (unansweredPoll port) (pollEventsFrom port n rt t).
Proof.
  revert rt t. induction n as [|n IH]; intros rt t H; [constructor|].
  simpl. pose proof (H 0 ltac:(lia)) as H0. simpl in H0.
  assert (Hrest : forall j, j < n ->
    respondsHealthy
      (let (rt', t') := pollState port j (snd (fetch port t rt))
                          (t + Z.of_N (took (fst (fetch port t rt))) + 500) in
       fst (fetch port t' rt')) = false).
  { intros j Hj. specialize (H (S j) ltac:(lia)). simpl in H.
    by destruct (fetch port t rt). }
  destruct (fetch port t rt) as [o rt']. simpl in *.
  constructor.
  - right. exists (status o). split; [done|]. by rewrite <- respondsHealthy_answer.
  - constructor; [by left|]. by apply IH.
Qed.

Lemma pollEvents_unanswered (port : N) (n : nat) (w : World) :
  (forall j, j < n -> respondsHealthy (pollOutcome port j w) = false) ->
  Forall (unansweredPoll port) (pollEvents port n w).
Proof. apply pollEventsFrom_unanswered. Qed.

Lemma removals_effects (l : list Image) (removals : list Event) :
  Forall2 removalOf l removals ->
  Forall (fun e => exists name x, e = EvDocker ["rmi"; "-f"; name] x) removals.
Proof.
  induction 1 as [|img e l removals [x ->] _ IH]; constructor; [|done].
  by exists (imgName img), x.
Qed.

(** The part of a run accumulated so far: [k] is what remains to do. *)
Lemma wp_log_then {A} (b msg level : string) (k : M A) (w0 w : World)
    (evs : list Event) (Q : A -> World -> Prop) :
  steps w0 w evs ->
  (forall w1, steps w0 w1 (evs ++ [EvLog b msg level]) ->
              files w1 = files w -> clock w1 = clock w -> runtime w1 = runtime w ->
              wp k w1 Q) ->
  wp (LogService_stream b msg level ;;; k) w Q.
Proof.
  intros Hst Hk. apply wp_bind. wp_apply (emit_full (EvLog b msg level) w).
  intros _ w1 [[Hst1 Hfs1 Hck1] Hrt1]. apply Hk; try done.
  by eapply steps_trans.
Qed.


Lemma deploy_spec (p b dir : string) (host : N) (app : AppType)
    (env : list (string * string)) (w : World) :
  wp (deploy p b dir host app env) w (fun res w' =>
    exists evs, trace w' = trace w ++ evs /\ dirs w' = dirs w /\
                deployRun p b dir host app env w res w' evs).
Proof.
  unfold deploy. cbv zeta.
  apply (wp_log_then _ _ _ _ w w []); [apply steps_refl|].
  intros w1 Hst1 Hfs1 Hck1 _.
  apply wp_bind. wp_apply (ensureContainerStopped_spec p w1).
  intros _ w2 (td & [Hst2 Hfs2 Hck2] & Htd).
  pose proof (steps_trans _ _ _ _ _ Hst1 Hst2) as Hacc2.
  eapply wp_log_then; [exact Hacc2|]. intros w3 Hacc3 Hfs3 Hck3 _.
  assert (Hfiles3 : files w3 = files w) by congruence.
  assert (Hdirs3 : dirs w3 = dirs w) by apply (steps_dirs _ _ _ Hacc3).
  match type of Hacc3 with steps _ _ ?e => set (e3 := e) in * end.
  assert (Hfx3 : effects e3 = td).
  { subst e3. rewrite !effects_app. simpl. rewrite app_nil_r.
    eapply effects_id; [apply teardown_not_log | exact Htd]. }
  assert (Hck3' : clock w3 = clock w) by congruence.
  clearbody e3. clear Hst1 Hst2 Hacc2 Hck1 Hck2 Hck3 Hfs1 Hfs2 Hfs3 w1 w2.
  apply wp_bind.
  eapply wp_mono; [apply buildImage_spec, LogService_sink | cbv beta zeta].
  intros out w4 (e4 & Hst4 & Hck4 & Hcase).
  pose proof (steps_trans _ _ _ _ _ Hacc3 Hst4) as Hacc4.
  assert (Hck4' : clock w4 = clock w) by congruence.
  assert (Hkept : forall wi ei, steps w wi ei ->
            registryKept w wi /\ trace wi = trace w ++ ei /\ dirs wi = dirs w).
  { intros wi ei []. by repeat split. }
  match goal with |- ?G =>
    assert (Hnot : e4 = [] ->
              ((exists r, out = Resolved r /\ buildSuccess r = false)
               \/ exists msg, out = Rejected msg) ->
              existsIn w dir = false \/
                (files w !! join dir "Dockerfile" = None
                 /\ join dir "Dockerfile" ∈ dirs w) -> G);
    [|assert (Hbuilt : forall written recipe,
                buildRun p b dir written recipe w3 out w4 e4 -> G)]
  end.
  { intros -> [(r & -> & Hr)|(msg & ->)] Hwhy.
    - rewrite Hr. cbn [negb].
      eapply wp_log_then; [exact Hacc4|]. intros w5 Hacc5 _ _ _. wp_return.
      destruct (Hkept _ _ Hacc5) as (Hk & Ht & Hd).
      eexists. split; [exact Ht|]. split; [exact Hd|].
      apply (NotBuilt _ _ _ _ _ _ _ _ _ _ td); try done.
      rewrite !effects_app, Hfx3. simpl. by rewrite !app_nil_r.
    - eapply wp_log_then; [exact Hacc4|]. intros w5 Hacc5 _ _ _. wp_return.
      destruct (Hkept _ _ Hacc5) as (Hk & Ht & Hd).
      eexists. split; [exact Ht|]. split; [exact Hd|].
      apply (NotBuilt _ _ _ _ _ _ _ _ _ _ td); try done.
      rewrite !effects_app, Hfx3. simpl. by rewrite !app_nil_r. }
  { intros written recipe (Hfx4 & _ & _ & ->). cbv zeta in Hfx4.
    match type of Hfx4 with context [EvDocker _ ?x0] => set (x := x0) in * end.
    assert (Hxa : answered (buildArgs p b dir) x) by (subst x; by eexists _, _).
    match goal with |- context [buildResultOf _ _ ?e0] => set (err := e0) in * end.
    set (recipeEvs := if written then [EvWriteFile (join dir "Dockerfile") recipe]
                      else []) in *.
    assert (Hrec : Forall (recipeWrite (join dir "Dockerfile")) recipeEvs).
    { subst recipeEvs. destruct written; repeat constructor. by eexists. }
    clearbody recipeEvs x err. unfold buildResultOf.
    destruct (Z.eqb_spec x 0) as [Hx|Hx];
      cbn [negb buildSuccess buildError buildImageName].
    2:{ (* the build failed *)
      eapply wp_log_then; [exact Hacc4|]. intros w5 Hacc5 _ _ _. wp_return.
      destruct (Hkept _ _ Hacc5) as (Hk & Ht & Hd).
      eexists. split; [exact Ht|]. split; [exact Hd|].
      apply (BuildFailed _ _ _ _ _ _ _ _ _ _ td recipeEvs x); try done.
      rewrite !effects_app, Hfx3, Hfx4. simpl. by rewrite !app_nil_r. }
    subst x.
    eapply wp_log_then; [exact Hacc4|]. intros w5 Hacc5 _ Hck5 _.
    apply wp_bind. wp_apply (runContainer_spec (deployConfig p b dir host app env) w5).
    intros rr w6 (y & [Hst6 _ Hck6] & Hrun & Hya).
    assert (Hyans : answered (runArgs (deployConfig p b dir host app env)) y)
      by (rewrite Hya; by eexists _, _).
    clear Hya.
    pose proof (steps_trans _ _ _ _ _ Hacc5 Hst6) as Hacc6.
    rewrite Hrun. destruct (Z.eqb_spec y 0) as [Hy|Hy]; cbn [negb].
    2:{ (* the container did not start *)
      eapply wp_log_then; [exact Hacc6|]. intros w7 Hacc7 _ _ _. wp_return.
      destruct (Hkept _ _ Hacc7) as (Hk & Ht & Hd).
      eexists. split; [exact Ht|]. split; [exact Hd|].
      apply (StartFailed _ _ _ _ _ _ _ _ _ _ td recipeEvs y); try done.
      rewrite !effects_app, Hfx3, Hfx4. simpl.
      rewrite app_nil_r, <- !app_assoc. reflexivity. }
    subst y.
    eapply wp_log_then; [exact Hacc6|]. intros w7 Hacc7 _ Hck7 _.
    eapply wp_log_then; [exact Hacc7|]. intros w8 Hacc8 _ Hck8 _.
    assert (Hck8' : clock w8 = clock w) by congruence.
    apply wp_bind. wp_apply (waitForHealthy_spec host 15000 w8).
    intros healthy w9 (_ & n & Hst9 & _ & Hbefore & Hres).
    assert (Hpolls : Forall (unansweredPoll host) (pollEvents host n w8)).
    { apply pollEvents_unanswered. intros j Hj. by apply Hbefore. }
    pose proof (steps_trans _ _ _ _ _ Hacc8 Hst9) as Hacc9.
    destruct healthy; cbn [negb].
    - (* deployed *)
      destruct Hres as (_ & Hok & _). rewrite respondsHealthy_answer in Hok.
      match type of Hacc9 with steps _ _ ?e => set (e9 := e) in * end.
      assert (Hfx9 : effects e9
        = td ++ recipeEvs
          ++ [EvDocker (buildArgs p b dir) 0; EvUnlink (join dir "Dockerfile");
              EvDocker (runArgs (deployConfig p b dir host app env)) 0]
          ++ pollEvents host n w8
          ++ [EvFetch host (status (pollOutcome host n w8))]).
      { subst e9. rewrite !effects_app, Hfx3, Hfx4. simpl.
        rewrite (effects_id _ _ (unanswered_not_log host) Hpolls).
        rewrite !app_nil_r, <- !app_assoc. reflexivity. }
      clearbody e9.
      eapply wp_log_then; [exact Hacc9|]. intros w10 Hacc10 _ _ _.
      apply wp_bind. wp_apply (pruneProjectImages_spec p 3 w10). cbv zeta.
      intros _ w11 (removals & [Hst11 _ _] & Hrem%removals_effects).
      pose proof (steps_trans _ _ _ _ _ Hacc10 Hst11) as Hacc11.
      apply wp_bind. wp_apply (startLogStreaming_spec p b w11).
      intros _ w12 (_ & _ & Hd12 & _ & Hnx12 & Hreg12 & Hold12).
      wp_return.
      destruct Hacc11 as [Hd11 Hreg11 Hact11 Hnx11 Htr11].
      rewrite Hreg11, Hnx11, Hact11, Htr11 in *.
      match type of Htr11 with context [EvDocker (imagesArgs p) ?x0] =>
        set (ix := x0) in * end.
      clearbody ix.
      exists ((e9 ++ [EvLog b "Container deployed successfully!" "success"])
              ++ (EvDocker (imagesArgs p) ix :: removals)
              ++ match logStreamers w !! p with
                 | Some h => [EvKill h]
                 | None => []
                 end
              ++ [EvSpawnLogs (nextHandle w) (getContainerName p) b]).
      split; [|split; [congruence|]].
      + destruct (logStreamers w !! p); destruct Hold12 as [_ ->];
          rewrite <- !app_assoc; reflexivity.
      + apply (Deployed _ _ _ _ _ _ _ _ _ _ td recipeEvs (pollEvents host n w8)
                 removals (status (pollOutcome host n w8)) ix (runContainerId rr));
          [exact Htd | exact Hrec | exact Hpolls | exact Hok | exact Hrem
          | | reflexivity | exact Hreg12 | exact Hnx12 | | ].
        * rewrite !effects_app, Hfx9.
          assert (Hfxr : effects (EvDocker (imagesArgs p) ix :: removals)
                         = EvDocker (imagesArgs p) ix :: removals).
          { apply (effects_id (fun e => isLog e = false)); [done|].
            constructor; [done|]. eapply Forall_impl; [exact Hrem|].
            by intros e (name & x & ->). }
          rewrite Hfxr.
          assert (Hfxk : forall l, (forall e, In e l -> isLog e = false) ->
                                   effects l = l).
          { intros l Hl. apply (effects_id (fun e => isLog e = false)); [done|].
            by apply List.Forall_forall. }
          rewrite (Hfxk (match logStreamers w !! p with
                         | Some h => [EvKill h] | None => [] end)),
                  (Hfxk [EvSpawnLogs (nextHandle w) (getContainerName p) b]).
          -- repeat (progress (simpl; rewrite <- ?app_assoc)). reflexivity.
          -- by intros e [<-|[]].
          -- destruct (logStreamers w !! p); [by intros e [<-|[]] | by intros e []].
        * by destruct (logStreamers w !! p); destruct Hold12.
        * unfold replied, pollOutcome.
          destruct (pollState host n (runtime w8) (clock w8)) as [rt t]. by exists t, rt.
    - (* the health check failed *)
      destruct Hres as [Hout Hck9].
      match type of Hacc9 with steps _ _ ?e => set (e9 := e) in * end.
      assert (Hfx9 : effects e9
        = td ++ recipeEvs
          ++ [EvDocker (buildArgs p b dir) 0; EvUnlink (join dir "Dockerfile");
              EvDocker (runArgs (deployConfig p b dir host app env)) 0]
          ++ pollEvents host n w8).
      { subst e9. rewrite !effects_app, Hfx3, Hfx4. simpl.
        rewrite (effects_id _ _ (unanswered_not_log host) Hpolls).
        rewrite !app_nil_r, <- !app_assoc. reflexivity. }
      clearbody e9.
      apply wp_bind. wp_apply (getContainerLogs_spec (getContainerName p) 50 w9).
      intros logs w10 (lx & [Hst10 _ Hck10]).
      pose proof (steps_trans _ _ _ _ _ Hacc9 Hst10) as Hacc10.
      eapply wp_log_then; [exact Hacc10|]. intros w11 Hacc11 _ Hck11 _.
      eapply wp_log_then; [exact Hacc11|]. intros w12 Hacc12 _ Hck12 _.
      apply wp_bind. wp_apply (stopAndRemoveContainer_spec (getContainerName p) w12).
      intros _ w13 (sx & rx & [Hst13 _ Hck13]).
      pose proof (steps_trans _ _ _ _ _ Hacc12 Hst13) as Hacc13.
      wp_return. destruct (Hkept _ _ Hacc13) as (Hk & Ht & Hd).
      eexists. split; [exact Ht|]. split; [exact Hd|].
      apply (HealthCheckFailed _ _ _ _ _ _ _ _ _ _ td recipeEvs (pollEvents host n w8)
               e9 lx sx rx logs);
        [exact Htd | exact Hrec | exact Hpolls | | | | reflexivity | exact Hk | ].
      + rewrite !effects_app, Hfx9. simpl. rewrite <- !app_assoc. reflexivity.
      + rewrite <- !app_assoc. reflexivity.
      + lia.
      + destruct n as [|n'].
        * unfold pollTime in Hout. simpl in Hout. lia.
        * unfold pollEvents. simpl.
          destruct (fetch host (clock w8) (runtime w8)) as [o rt']. by eexists _, _. }
  assert (Hsame : existsIn w3 dir = existsIn w dir).
  { unfold existsIn. by rewrite Hfiles3, Hdirs3. }
  rewrite Hsame, Hfiles3, Hdirs3 in Hcase.
  destruct (existsIn w dir) eqn:Hdir; cbn [negb] in Hcase.
  2:{ destruct Hcase as (He & _ & _ & Hout). apply Hnot; [done| |by left].
      left. eexists. split; [exact Hout | done]. }
  destruct (files w !! join dir "Dockerfile") as [c|] eqn:Hrecipe.
  { by eapply Hbuilt. }
  destruct (bool_decide _) eqn:Hisdir.
  - destruct Hcase as (He & _ & _ & msg & Hout). apply Hnot; [done| |].
    + right. by eexists.
    + right. split; [done|]. by apply bool_decide_eq_true in Hisdir.
  - by eapply Hbuilt.
Qed.


Lemma in_effects (e : Event) (evs : list Event) :
  In e evs -> isLog e = false -> In e (effects evs).
Proof. intros Hin Hlog. apply filter_In. by rewrite Hlog. Qed.

Lemma effects_in (e : Event) (evs : list Event) : In e (effects evs) -> In e evs.
Proof. by intros [? _]%filter_In. Qed.

Lemma teardown_verb (name : string) (args : list string) (x : Z) :
  teardownEvent name (EvDocker args x) ->
  exists rest, args = "container" :: rest \/ args = "stop" :: rest \/ args = "rm" :: rest.
Proof. intros [x0 [[= -> _]|[[= -> _]|[= -> _]]]]; eauto. Qed.




Lemma runArgs_publishes (cfg : ContainerConfig) :
  exists rest,
    runArgs cfg = "run" :: rest /\
    In (JS.show (cfgHostPort cfg) +:+ ":" +:+ JS.show (cfgInternalPort cfg)) rest.
Proof. eexists. split; [reflexivity|]. simpl. tauto. Qed.

(** C6 (amended).  The internal port that [deploy] uses is fixed by the
    application type alone, 80 for [vite] and 3000 for every other type,
    whatever the host port: every [docker run] that a call of [deploy]
    issues is the one for that configuration and publishes
    [<host port>:<internal port>].  The recipe synthesised for [vite] is
    the static-file template whatever the entry file.  The internal port
    equals the host port exactly when the caller passes 80 (for [vite]) or
    3000 (otherwise) as host port. *)
Theorem deploy_internal_port_by_app_type (p b dir : string) (host : N)
    (app : AppType) (env : list (string * string)) (w : World) :
  let port := match app with vite => 80%N | _ => 3000%N end in
  let cfg := deployConfig p b dir host app env in
  let w' := snd (deploy p b dir host app env w) in
  (forall host', cfgInternalPort (deployConfig p b dir host' app env) = port) /\
  (exists evs, trace w' = trace w ++ evs /\
     forall args x, In (EvDocker ("run" :: args) x) evs ->
       "run" :: args = runArgs cfg /\
       In (JS.show host +:+ ":" +:+ JS.show port) args) /\
  (forall port' entry, getDockerfileContent vite port' entry = staticTemplate) /\
  (forall onLog w0, sink onLog -> existsIn w0 dir = true ->
     existsIn w0 (join dir "Dockerfile") = false ->
     In (EvWriteFile (join dir "Dockerfile") staticTemplate)
        (trace (snd (buildImage p b dir vite (internalPortFor vite) onLog w0)))) /\
  (cfgInternalPort cfg = host <-> host = port).
Proof.
  intros port cfg w'.
  assert (Hport : forall host', cfgInternalPort (deployConfig p b dir host' app env) = port).
  { intros host'. subst port. by destruct app. }
  split; [exact Hport|]. split; [|split; [done|split]].
  - pose proof (deploy_spec p b dir host app env w) as H. unfold wp in H.
    fold w' in H. destruct H as (evs & Htrace & _ & Hrun).
    exists evs. split; [exact Htrace|]. intros args x Hin.
    apply in_effects in Hin; [|done].
    assert (Hgoal : forall x0, EvDocker (runArgs cfg) x0 = EvDocker ("run" :: args) x ->
                    "run" :: args = runArgs cfg /\
                    In (JS.show host +:+ ":" +:+ JS.show port) args).
    { intros x0 Hev. assert (Heq : runArgs cfg = "run" :: args) by congruence.
      split; [done|].
      destruct (runArgs_publishes cfg) as (rest & Hrest & Hpub).
      rewrite Hrest in Heq. injection Heq as ->.
      subst cfg. rewrite Hport in Hpub. exact Hpub. }
    assert (Htd : forall td, Forall (teardownEvent (getContainerName p)) td ->
                             In (EvDocker ("run" :: args) x) td -> False).
    { intros td Hall Hin'. rewrite List.Forall_forall in Hall.
      destruct (teardown_verb _ _ _ (Hall _ Hin')) as [rest Hv].
      intuition discriminate. }
    assert (Hrec : forall recipe, Forall (recipeWrite (join dir "Dockerfile")) recipe ->
                                  In (EvDocker ("run" :: args) x) recipe -> False).
    { intros recipe Hall Hin'. rewrite List.Forall_forall in Hall.
      by destruct (Hall _ Hin'). }
    assert (Hpoll : forall polls, Forall (unansweredPoll host) polls ->
                                  In (EvDocker ("run" :: args) x) polls -> False).
    { intros polls Hall Hin'. rewrite List.Forall_forall in Hall.
      by destruct (Hall _ Hin') as [|(a & ? & _)]. }
    assert (Hbuild : forall x0, EvDocker (buildArgs p b dir) x0
                                = EvDocker ("run" :: args) x -> False).
    { intros x0 Hev. unfold buildArgs in Hev. discriminate. }
    assert (Hrm : forall removals,
              Forall (fun e => exists name x0, e = EvDocker ["rmi"; "-f"; name] x0) removals ->
              In (EvDocker ("run" :: args) x) removals -> False).
    { intros removals Hall Hin'. rewrite List.Forall_forall in Hall.
      by destruct (Hall _ Hin') as (name & x0 & [=]). }
    assert (Hkill : In (EvDocker ("run" :: args) x)
                      match logStreamers w !! p with
                      | Some h => [EvKill h]
                      | None => []
                      end -> False).
    { destruct (logStreamers w !! p); cbn [In]; intuition discriminate. }
    fold cfg in Hrun.
    destruct Hrun as
      [ td Htds Hfx Hres Hkept
      | td recipe x' Htds Hrecs Hfx Hx Hres Hkept
      | td recipe y Htds Hrecs Hfx Hy Hres Hkept
      | td recipe polls before lx sx rx logs Htds Hrecs Hpolls Hfx Hevs Hclock Hres Hkept
      | td recipe polls removals answer ix id Htds Hrecs Hpolls Hans Hrem Hfx Hres Hreg Hnx Hact ];
      rewrite Hfx in Hin; rewrite ?in_app_iff in Hin; cbn [In] in Hin;
      repeat (destruct Hin as [Hin|Hin]);
      first [ exact (False_ind _ Hin)
            | exact (Hgoal _ Hin)
            | exfalso; exact (Htd _ Htds Hin)
            | exfalso; exact (Hrec _ Hrecs Hin)
            | exfalso; exact (Hpoll _ Hpolls Hin)
            | exfalso; exact (Hbuild _ Hin)
            | exfalso; exact (Hrm _ Hrem Hin)
            | exfalso; exact (Hkill Hin)
            | unfold imagesArgs in Hin; discriminate Hin ].
  - intros onLog w0 Hsink Hdir Hnone.
    pose proof (buildImage_spec p b dir vite (internalPortFor vite) onLog w0 Hsink) as H.
    unfold wp in H. cbv zeta in H. destruct H as (evs & Hst & _ & Hcase).
    rewrite Hdir in Hcase. cbn [negb] in Hcase.
    unfold existsIn in Hnone. apply orb_false_iff in Hnone as [Hfile Hisdir].
    apply bool_decide_eq_false_1 in Hfile.
    rewrite (not_elem_of_dom_1 _ _ Hfile), Hisdir in Hcase.
    destruct Hcase as (Hfx & _).
    rewrite (steps_trace _ _ _ Hst), in_app_iff. right.
    apply effects_in. rewrite Hfx. by left.
  - subst cfg. rewrite Hport. done.
Qed.


(** *** The registry of log streams keeps its invariant *)

Lemma regOk_delete (m : gmap string nat) (a : gset nat) (n : nat) (p : string) :
  regOk m a n ->
  regOk (delete p m)
        match m !! p with Some h => a ∖ {[h]} | None => a end n.
Proof.
  intros (Hin & Hreg & Hinj & Hlt). repeat split.
  - intros q h [Hqp Hq]%lookup_delete_Some.
    destruct (m !! p) as [h0|] eqn:Hp; [|by eapply Hin].
    apply elem_of_difference. split; [by eapply Hin|].
    intros ->%elem_of_singleton. apply Hqp. by eapply Hinj.
  - intros h Hh.
    destruct (m !! p) as [h0|] eqn:Hp.
    + apply elem_of_difference in Hh as [Hh Hne].
      destruct (Hreg h Hh) as [q Hq]. exists q.
      apply lookup_delete_Some. split; [|done].
      intros ->. apply Hne, elem_of_singleton. congruence.
    + destruct (Hreg h Hh) as [q Hq]. exists q.
      apply lookup_delete_Some. split; [|done]. intros ->. congruence.
  - intros q1 q2 h [_ H1]%lookup_delete_Some [_ H2]%lookup_delete_Some.
    by eapply Hinj.
  - intros h Hh. apply Hlt.
    destruct (m !! p); [|done]. by apply elem_of_difference in Hh as [Hh _].
Qed.

Lemma regOk_replace (m : gmap string nat) (a : gset nat) (n : nat) (p : string) :
  regOk m a n ->
  regOk (<[p := n]> m)
        ({[n]} ∪ match m !! p with Some h => a ∖ {[h]} | None => a end) (S n).
Proof.
  intros Hok. pose proof (regOk_delete m a n p Hok) as (Hin & Hreg & Hinj & Hlt).
  rewrite <- (insert_delete_eq m). repeat split.
  - intros q h [[<- <-]|[Hqp Hq]]%lookup_insert_Some.
    + apply elem_of_union. left. by apply elem_of_singleton.
    + apply elem_of_union. right. by eapply Hin.
  - intros h [->%elem_of_singleton|Hh]%elem_of_union.
    + exists p. apply lookup_insert_eq.
    + destruct (Hreg h Hh) as [q Hq]. exists q.
      apply lookup_insert_Some. right. split; [|done].
      intros <-. by rewrite lookup_delete_eq in Hq.
  - intros q1 q2 h [[<- <-]|[Hq1 H1]]%lookup_insert_Some
                   [[<- Heq]|[Hq2 H2]]%lookup_insert_Some; try done.
    + apply Hin, Hlt in H2. lia.
    + subst h. apply Hin, Hlt in H1. lia.
    + by eapply Hinj.
  - intros h [->%elem_of_singleton|Hh]%elem_of_union; [lia|].
    apply Hlt in Hh. lia.
Qed.

Lemma registryOk_kept (w w' : World) :
  registryKept w w' -> registryOk w -> registryOk w'.
Proof. intros (Hm & Ha & Hn). unfold registryOk. by rewrite Hm, Ha, Hn. Qed.

Lemma quiet_kept (w w' : World) (evs : list Event) : quiet w w' evs -> registryKept w w'.
Proof. by intros [[] _ _]. Qed.

Lemma registryKept_trans (w w1 w2 : World) :
  registryKept w w1 -> registryKept w1 w2 -> registryKept w w2.
Proof. intros (? & ? & ?) (? & ? & ?). repeat split; congruence. Qed.

Lemma stopLogStreaming_ok (p : string) (w : World) :
  wp (stopLogStreaming p) w (fun _ w' => registryOk w -> registryOk w').
Proof.
  wp_apply (stopLogStreaming_spec p w).
  intros _ w' (_ & _ & _ & _ & Hn & Hm & Hold) Hok.
  unfold registryOk. rewrite Hm, Hn.
  pose proof (regOk_delete _ _ _ p Hok) as H.
  by destruct (logStreamers w !! p); destruct Hold as [-> _].
Qed.

Lemma startLogStreaming_ok (p b : string) (w : World) :
  wp (startLogStreaming p b) w (fun _ w' => registryOk w -> registryOk w').
Proof.
  wp_apply (startLogStreaming_spec p b w).
  intros _ w' (_ & _ & _ & _ & Hn & Hm & Hold) Hok.
  unfold registryOk. rewrite Hm, Hn.
  pose proof (regOk_replace _ _ _ p Hok) as H.
  by destruct (logStreamers w !! p); destruct Hold as [-> _].
Qed.

Lemma stop_ok (p : string) (b : option string) (w : World) :
  wp (stop p b) w (fun _ w' => registryOk w -> registryOk w').
Proof.
  unfold stop. apply wp_bind. wp_apply (stopLogStreaming_ok p w).
  intros _ w1 H1. cbv zeta. apply wp_bind.
  set (announce := match b with
                   | Some b0 => if JS.truthy b0 then Some b0 else None
                   | None => None
                   end).
  assert (Hlog : forall (m : string) (lvl : string) w0,
    wp (match announce with
        | Some b0 => LogService_stream b0 m lvl
        | None => ret tt
        end) w0 (fun _ w' => registryKept w0 w')).
  { intros m lvl w0. destruct announce.
    - wp_apply (LogService_stream_spec). intros _ w' Hq. by eapply quiet_kept.
    - by wp_return. }
  wp_apply (Hlog "Stopping container..." "info" w1). intros _ w2 H2.
  apply wp_bind. wp_apply (stopAndRemoveContainer_spec (getContainerName p) w2).
  intros result w3 (x & y & H3%quiet_kept). apply wp_bind.
  assert (Hlast : wp (match announce with
                      | Some b0 => if result
                                   then LogService_stream b0 "Container stopped" "success"
                                   else ret tt
                      | None => ret tt
                      end) w3 (fun _ w' => registryKept w3 w')).
  { destruct announce as [b0|]; [destruct result|]; try by wp_return.
    wp_apply (LogService_stream_spec). intros _ w' Hq. by eapply quiet_kept. }
  wp_apply Hlast. intros _ w4 H4. wp_return. intros Hok.
  eapply registryOk_kept; [|exact (H1 Hok)].
  eapply registryKept_trans; [exact H2|]. by eapply registryKept_trans.
Qed.

Lemma cleanup_ok (p : string) (ids : option (list string)) (w : World) :
  wp (cleanup p ids) w (fun _ w' => registryOk w -> registryOk w').
Proof.
  unfold cleanup. apply wp_bind. wp_apply (stopLogStreaming_ok p w).
  intros _ w1 H1. apply wp_bind. wp_apply (ensureContainerStopped_spec p w1).
  intros _ w2 (td & H2%quiet_kept & _).
  destruct ids as [ids|].
  - eapply wp_mono; [apply (forEach_rel registryKept)|cbv beta].
    + by intros w0.
    + apply registryKept_trans.
    + intros id w0 _. apply wp_bind. wp_apply (removeImage_spec).
      intros _ w' (x & Hq%quiet_kept). by wp_return.
    + intros [] w3 H3 Hok. eapply registryOk_kept; [|exact (H1 Hok)].
      by eapply registryKept_trans.
  - wp_return. intros Hok. by eapply registryOk_kept; [|exact (H1 Hok)].
Qed.

Lemma recoverLogStreams_ok (w : World) :
  wp recoverLogStreams w (fun _ w' => registryOk w -> registryOk w').
Proof.
  unfold recoverLogStreams, console_log. apply wp_bind.
  wp_apply (emit_spec). intros _ w1 H1%quiet_kept.
  apply wp_bind. wp_apply (listRunningContainers_spec w1).
  intros l w2 [H2%quiet_kept _]. apply wp_bind.
  eapply wp_mono;
    [apply (forEach_rel (fun w0 w' => registryOk w0 -> registryOk w'))|cbv beta].
  - by intros w0.
  - intros w0 w3 w4 H03 H34 Hok. auto.
  - intros m w0 _. apply startLogStreaming_ok.
  - intros [] w3 H3. wp_apply (emit_spec). intros _ w4 H4%quiet_kept Hok.
    eapply registryOk_kept; [exact H4|]. apply H3.
    eapply registryOk_kept; [|exact Hok]. by eapply registryKept_trans.
Qed.

Lemma deploy_ok (p b dir : string) (host : N) (app : AppType)
    (env : list (string * string)) (w : World) :
  wp (deploy p b dir host app env) w (fun _ w' => registryOk w -> registryOk w').
Proof.
  wp_apply (deploy_spec p b dir host app env w).
  intros res w' (evs & _ & _ & Hrun) Hok.
  destruct Hrun as
    [ td Htds Hfx Hres Hkept
    | td recipe x' Htds Hrecs Hfx Hx Hres Hkept
    | td recipe y Htds Hrecs Hfx Hy Hres Hkept
    | td recipe polls before lx sx rx logs Htds Hrecs Hpolls Hfx Hevs Hclock Hres Hkept
    | td recipe polls removals answer ix id Htds Hrecs Hpolls Hans Hrem Hfx Hres Hreg Hnx Hact ];
    try by eapply registryOk_kept.
  unfold registryOk. rewrite Hreg, Hnx, Hact. by apply regOk_replace.
Qed.

(** C4.  The registry of log streams starts in order and every operation
    of the service keeps it in order: each project holds at most one
    handle, the handles held are exactly the stream processes that have
    not been cancelled, and no two projects hold the same one.  So after
    any sequence of operations no stream process is left without an owner.
    When [startLogStreaming] stores a handle for a project that holds one,
    it has called the cancellation of the old handle and removed it before
    it spawns and stores the new one. *)
Theorem registry_replaced_only_after_cancel (w : World) :
  (forall rt fs ds, registryOk (initialWorld rt fs ds)) /\
  (forall op, registryOk w -> registryOk (perform op w)) /\
  (forall ops rt fs ds, registryOk (performAll ops (initialWorld rt fs ds))) /\
  (forall p b h0, registryOk w -> logStreamers w !! p = Some h0 ->
     let w' := snd (startLogStreaming p b w) in
     trace w' = trace w ++ [EvKill h0;
                            EvSpawnLogs (nextHandle w) (getContainerName p) b] /\
     (h0 ∉ active w') /\ nextHandle w <> h0 /\
     logStreamers w' !! p = Some (nextHandle w) /\ (nextHandle w ∈ active w')).
Proof.
  assert (Hinit : forall rt fs ds, registryOk (initialWorld rt fs ds)).
  { intros rt fs ds. repeat split; simpl.
    - intros p h. by rewrite lookup_empty.
    - intros h Hh. by apply not_elem_of_empty in Hh.
    - intros p q h. by rewrite lookup_empty.
    - intros h Hh. by apply not_elem_of_empty in Hh. }
  assert (Hstep : forall op w0, registryOk w0 -> registryOk (perform op w0)).
  { intros op w0. destruct op; simpl.
    - apply deploy_ok.
    - apply startLogStreaming_ok.
    - apply stopLogStreaming_ok.
    - apply stop_ok.
    - apply cleanup_ok.
    - apply recoverLogStreams_ok. }
  split; [exact Hinit|]. split; [intros op; apply Hstep|]. split.
  - intros ops rt fs ds. unfold performAll.
    generalize (Hinit rt fs ds). generalize (initialWorld rt fs ds).
    induction ops as [|op ops IH]; intros w0 Hok; [done|].
    simpl. apply IH, Hstep, Hok.
  - intros p b h0 (Hin & _ & _ & Hlt) Hp w'.
    pose proof (startLogStreaming_spec p b w) as H. unfold wp in H. fold w' in H.
    destruct H as (_ & _ & _ & _ & _ & Hm & Hold). rewrite Hp in Hold.
    destruct Hold as [Ha Ht].
    assert (Hne : nextHandle w <> h0).
    { pose proof (Hlt h0 (Hin p h0 Hp)). lia. }
    split; [exact Ht|]. split; [|split; [exact Hne|split]].
    + rewrite Ha.
      intros [?%elem_of_singleton|[_ Hn]%elem_of_difference]%elem_of_union;
        [congruence | apply Hn; by apply elem_of_singleton].
    + rewrite Hm. apply lookup_insert_eq.
    + rewrite Ha. apply elem_of_union. left. by apply elem_of_singleton.
Qed.


(** *** The recipe file around a build *)

(** C1 (the code departs from the specification).  When the source directory
    exists, [buildImage] removes the recipe file after the build whether
    it generated the file or found it there, and whatever the exit status
    of the build: a recipe that the user supplied is gone when
    [buildImage] returns. *)
Theorem buildImage_removes_the_recipe_it_finds (p b dir : string) (fw : AppType)
    (port : N) (onLog : option (string -> M unit)) (w : World) :
  let path := join dir "Dockerfile" in
  let w' := snd (buildImage p b dir fw port onLog w) in
  sink onLog -> existsIn w dir = true ->
  is_Some (files w !! path) \/ existsIn w path = false ->
  files w' !! path = None /\
  exists evs, trace w' = trace w ++ evs /\ In (EvUnlink path) evs.
Proof.
  intros path w' Hsink Hdir Hrecipe.
  pose proof (buildImage_spec p b dir fw port onLog w Hsink) as H.
  unfold wp in H. cbv zeta in H. fold path w' in H.
  destruct H as (evs & Hst & _ & Hcase).
  rewrite Hdir in Hcase. cbn [negb] in Hcase.
  assert (Hrun : exists written recipe,
            buildRun p b dir written recipe w (fst (buildImage p b dir fw port onLog w))
              w' evs).
  { destruct Hrecipe as [[c Hc]|Hnone].
    - rewrite Hc in Hcase. eauto.
    - unfold existsIn in Hnone. apply orb_false_iff in Hnone as [Hfile Hisdir].
      apply bool_decide_eq_false_1 in Hfile.
      rewrite (not_elem_of_dom_1 _ _ Hfile), Hisdir in Hcase. eauto. }
  destruct Hrun as (written & recipe & Hfx & Hfiles & _).
  split.
  - rewrite Hfiles. apply lookup_delete_eq.
  - exists evs. split; [apply (steps_trace _ _ _ Hst)|].
    apply effects_in. rewrite Hfx. apply in_app_iff. right. simpl. tauto.
Qed.

Lemma replacePort_match (line rest : string) (port : N) :
  matchPortAssign line = Some rest ->
  replacePort line port = "PORT=" +:+ JS.show port +:+ rest.
Proof.
  intros H. destruct line as [|c line]; [discriminate|].
  cbn [replacePort]. by rewrite H.
Qed.

Lemma replacePort_canonical (port : N) :
  replacePort ("ENV PORT=" +:+ JS.show port) port = "ENV PORT=" +:+ JS.show port.
Proof.
  change ("ENV PORT=" +:+ JS.show port)
    with (String "E" (String "N" (String "V" (String " " ("PORT=" +:+ JS.show port))))).
  rewrite !replacePort_head by done. do 4 f_equal.
  rewrite (replacePort_match _ ""); [by rewrite sapp_nil_r|].
  destruct (show_digits port) as (d & ds & Hshow & Hd & Hsp).
  pose proof (string_of_uint_all_digits (N.to_uint port)) as Hall.
  fold (JS.show port) in Hall. rewrite Hshow in Hall |- *.
  change ("PORT=" +:+ String d ds)
    with (String "P" (String "O" (String "R" (String "T" (String "=" (String d ds)))))).
  cbn [matchPortAssign]. cbn. rewrite Hsp, Hd.
  change ((JS.upper "P" =? "P")%char && (JS.upper "O" =? "O")%char &&
          (JS.upper "R" =? "R")%char && (JS.upper "T" =? "T")%char) with true.
  cbv iota. by rewrite Hall.
Qed.

Lemma sanitizeLines_canonical (lines : list string) (port : N) :
  existsb isExposeLine lines = true ->
  existsb (fun l => negb (isExposeLine l) && isPortEnvLine l) lines = true ->
  (forall l, In l lines -> sanitizeLine port l = l) ->
  sanitizeLines lines port = lines.
Proof.
  intros Hexp Henv Hid. unfold sanitizeLines. rewrite Hexp, Henv.
  rewrite (map_ext_in _ id _ Hid). apply map_id.
Qed.

(** C9 (amended).  For a recipe in the ASCII range, sanitising gives the
    recipe back character for character exactly when it has an EXPOSE
    line and every EXPOSE line reads [EXPOSE <port>], it has an ENV line
    that mentions PORT and on every such line the first assignment of a
    number to PORT, if there is one, reads [PORT=<port>], and no other
    line is an instruction that the sanitiser comments out.  [buildImage]
    writes the recipe it finds back exactly when sanitising changes it,
    and then it writes the sanitised text. *)
Theorem sanitize_canonical_recipe_unchanged (content : string) (port : N)
    (p b dir : string) (fw : AppType) (onLog : option (string -> M unit)) (w : World) :
  let w' := snd (buildImage p b dir fw port onLog w) in
  let path := join dir "Dockerfile" in
  JS.isAscii content = true ->
  (sanitizeDockerfile content port = content <->
   exposesOnly content port = true /\ setsPortTo content port = true /\
   harmless content = true) /\
  (sink onLog -> existsIn w dir = true -> files w !! path = Some content ->
   exists evs, trace w' = trace w ++ evs /\
     (sanitizeDockerfile content port = content ->
        forall file c, ~ In (EvWriteFile file c) evs) /\
     (sanitizeDockerfile content port <> content ->
        forall file c, In (EvWriteFile file c) evs <->
                       file = path /\ c = sanitizeDockerfile content port)).
Proof.
  intros w' path _. split; [apply sanitizeDockerfile_fixed|].
  intros Hsink Hdir Hfile.
  pose proof (buildImage_spec p b dir fw port onLog w Hsink) as H.
  unfold wp in H. cbv zeta in H. fold w' path in H.
  destruct H as (evs & Hst & _ & Hcase).
  rewrite Hdir, Hfile in Hcase. cbn [negb] in Hcase.
  destruct Hcase as (Hfx & _). fold path in Hfx.
  exists evs. split; [apply (steps_trace _ _ _ Hst)|]. split.
  - intros Hsame file c Hin. apply in_effects in Hin; [|done].
    rewrite Hfx, Hsame, String.eqb_refl in Hin. simpl in Hin. intuition discriminate.
  - intros Hdiff file c.
    assert (Hneq : String.eqb content (sanitizeDockerfile content port) = false).
    { apply String.eqb_neq. congruence. }
    rewrite Hneq in Hfx. cbn [negb] in Hfx. split.
    + intros Hin. apply in_effects in Hin; [|done]. rewrite Hfx in Hin.
      simpl in Hin. destruct Hin as [[= <- <-]|[Hin|[Hin|[]]]]; done.
    + intros [-> ->]. apply effects_in. rewrite Hfx. by left.
Qed.


(** *** Deciding what a concrete trace contains *)

Lemma In_decide (e : Event) (l : list Event) : bool_decide (e ∈ l) = true -> In e l.
Proof. intros H%bool_decide_eq_true. by apply list_elem_of_In. Qed.

Lemma no_answer (port : N) (l : list Event) :
  forallb (fun e => match e with EvFetch _ (Some _) => false | _ => true end) l = true ->
  forall s, In (EvFetch port (Some s)) l -> (500 <= s)%N.
Proof.
  intros H s Hin. rewrite forallb_forall in H. by specialize (H _ Hin).
Qed.

End Runs.

(** ** The theorems at work on the scripted environment *)

Lemma buildImage_removes_the_recipe_it_finds_witness :
  let w := Demo.world Demo.up tt Demo.ownRecipe in
  files (snd (buildImage "proj-aaaa1111" "bld-bbbb2222" "/tmp/src" express 3000 None w))
    !! "/tmp/src/Dockerfile" = None.
Proof.
  intros w.
  apply (buildImage_removes_the_recipe_it_finds (E := Demo.up)
           "proj-aaaa1111" "bld-bbbb2222" "/tmp/src" express 3000 None w).
  - intros f Hf. discriminate Hf.
  - vm_compute. reflexivity.
  - left. exists "FROM node:20
EXPOSE 8080
CMD node index.js". vm_compute. reflexivity.
Defined.


Lemma registry_replaced_only_after_cancel_witness :
  let w0 := Demo.world Demo.up tt Demo.sourceTree in
  let w := snd (startLogStreaming (E := Demo.up) "proj-aaaa1111" "bld-bbbb2222" w0) in
  let w' := snd (startLogStreaming (E := Demo.up) "proj-aaaa1111" "bld-cccc3333" w) in
  trace w' = trace w ++ [EvKill 0; EvSpawnLogs 1 "thakur-proj-aaa" "bld-cccc3333"]
  /\ (0 ∉ active w') /\ logStreamers w' !! "proj-aaaa1111" = Some 1.
Proof.
  intros w0 w w'.
  destruct (registry_replaced_only_after_cancel (E := Demo.up) w0) as (Hinit & Hstep & _ & _).
  destruct (registry_replaced_only_after_cancel (E := Demo.up) w) as (_ & _ & _ & Hswap).
  destruct (Hswap "proj-aaaa1111" "bld-cccc3333" 0) as (Ht & Hold & _ & Hnew & _).
  - apply (Hstep (OpStartLogStreaming "proj-aaaa1111" "bld-bbbb2222")). apply Hinit.
  - vm_compute. reflexivity.
  - split; [exact Ht|]. split; [exact Hold | exact Hnew].
Defined.

Lemma health_check_polls_until_timeout_witness :
  (let w := Demo.world Demo.up tt Demo.sourceTree in
   fst (waitForHealthy (E := Demo.up) 8080 15000 w) = true)
  /\
  (let w := Demo.world Demo.down tt Demo.sourceTree in
   let r := waitForHealthy (E := Demo.down) 8080 15000 w in
   (clock (snd r) - clock w = 15000)%Z)
  /\
  (let w := Demo.world (Samples.slow 4000) tt Demo.sourceTree in
   let r := waitForHealthy (E := Samples.slow 4000) 8080 15000 w in
   (15000 <= clock (snd r) - clock w < 19500)%Z).
Proof.
  split; [|split].
  - intros w.
    destruct (health_check_polls_until_timeout (E := Demo.up) 8080 15000 w)
      as (_ & _ & _ & Hiff & _).
    apply Hiff. exists 4, 200%N. vm_compute. repeat split.
  - intros w r.
    destruct (health_check_polls_until_timeout (E := Demo.down) 8080 15000 w)
      as (_ & _ & _ & _ & _ & Hexact).
    apply Hexact.
    + vm_compute. reflexivity.
    + intros k. unfold pollOutcome.
      destruct (pollState 8080 k (runtime w) (clock w)). reflexivity.
    + lia.
    + reflexivity.
  - intros w r.
    destruct (health_check_polls_until_timeout (E := Samples.slow 4000) 8080 15000 w)
      as (_ & _ & _ & _ & Hlate & _).
    destruct Hlate as [Hfrom Hto].
    + vm_compute. reflexivity.
    + split; [exact Hfrom|]. apply (Hto 4000%Z).
      intros k. unfold pollOutcome.
      destruct (pollState 8080 k (runtime w) (clock w)). simpl. lia.
Defined.

(** Against an endpoint that refuses every connection after a minute, the
    health check with a timeout of 15000 ms returns [false] after
    60500 ms; and whatever the bound, there is an endpoint that never
    answers and for which it returns later than that. *)
Lemma health_check_late_counterexample :
  (let w := Demo.world (Samples.slow 60000) tt Demo.sourceTree in
   let r := waitForHealthy (E := Samples.slow 60000) 8080 15000 w in
   fst r = false /\ (clock (snd r) - clock w = 60500)%Z)
  /\
  (forall bound : Z, exists d,
     let w := Demo.world (Samples.slow d) tt Demo.sourceTree in
     let r := waitForHealthy (E := Samples.slow d) 8080 15000 w in
     fst r = false /\ (bound < clock (snd r) - clock w)%Z).
Proof.
  split; [by vm_compute|].
  intros bound. exists (Z.to_N bound). intros w r.
  pose proof (waitForHealthy_spec (E := Samples.slow (Z.to_N bound)) 8080 15000 w) as H.
  unfold wp in H. fold r in H.
  destruct H as (_ & n & _ & _ & _ & Hres).
  assert (Hnone : forall k,
    pollOutcome (E := Samples.slow (Z.to_N bound)) 8080 k w
    = {| status := None; took := Z.to_N bound |}).
  { intros k. unfold pollOutcome. by destruct (pollState 8080 k (runtime w) (clock w)). }
  destruct (fst r).
  - destruct Hres as (_ & Hok & _). by rewrite Hnone in Hok.
  - split; [done|]. destruct Hres as [Hout ->].
    destruct n as [|n]; [by vm_compute in Hout|].
    pose proof (pollTime_mono (E := Samples.slow (Z.to_N bound)) 8080 1 (S n) w
                  ltac:(lia)) as Hmono.
    rewrite (pollTime_S (E := Samples.slow (Z.to_N bound)) 8080 0 w), Hnone in Hmono.
    change (pollTime 8080 0 w) with 0%Z in Hmono.
    change (clock w) with 0%Z. simpl took in Hmono. lia.
Qed.

Lemma deploy_internal_port_by_app_type_witness :
  let w := Demo.world Demo.up tt Demo.sourceTree in
  let cfg := deployConfig "proj-aaaa1111" "bld-bbbb2222" "/tmp/src" 8080 vite [] in
  In "8080:80" (runArgs cfg).
Proof.
  intros w cfg.
  destruct (deploy_internal_port_by_app_type (E := Demo.up)
              "proj-aaaa1111" "bld-bbbb2222" "/tmp/src" 8080 vite [] w)
    as (_ & (evs & Ht & Hrun) & _).
  change (trace w ++ evs) with evs in Ht.
  destruct (Hrun (List.tl (runArgs cfg)) 0%Z) as [_ Hin].
  - rewrite <- Ht. apply In_decide. vm_compute. reflexivity.
  - right. exact Hin.
Defined.

(** With host port 3000 and a type other than [vite], the container's
    internal port is the host port: [deploy] publishes [3000:3000]. *)
Lemma deploy_internal_port_counterexample :
  let w := Demo.world Demo.up tt Demo.sourceTree in
  let r := deploy (E := Demo.up) "proj-aaaa1111" "bld-bbbb2222" "/tmp/src" 3000 express [] w in
  let cfg := deployConfig "proj-aaaa1111" "bld-bbbb2222" "/tmp/src" 3000 express [] in
  success (fst r) = true /\
  In (EvDocker (runArgs cfg) 0) (trace (snd r)) /\
  In "3000:3000" (runArgs cfg) /\
  cfgInternalPort cfg = cfgHostPort cfg.
Proof.
  intros w r cfg. split; [vm_compute; reflexivity|].
  split; [apply In_decide; vm_compute; reflexivity|].
  split; [vm_compute; tauto | reflexivity].
Qed.


Lemma sanitize_canonical_recipe_unchanged_witness :
  sanitizeDockerfile Demo.canonicalRecipe 3000 = Demo.canonicalRecipe /\
  sanitizeDockerfile Samples.combinedRecipe 3000 = Samples.combinedRecipe.
Proof.
  split.
  - apply (sanitize_canonical_recipe_unchanged (E := Demo.up) Demo.canonicalRecipe 3000
             "proj-aaaa1111" "bld-bbbb2222" "/tmp/src" express None
             (Demo.world Demo.up tt Demo.sourceTree));
      vm_compute; tauto.
  - apply (sanitize_canonical_recipe_unchanged (E := Demo.up) Samples.combinedRecipe 3000
             "proj-aaaa1111" "bld-bbbb2222" "/tmp/src" express None
             (Demo.world Demo.up tt Demo.sourceTree));
      vm_compute; tauto.
Defined.

(** A recipe that exposes the assigned port and sets the port variable to
    it, and that also switches to the root user, is changed; and so is
    one that sets the port variable in the form [ENV PORT 3000]. *)
Lemma sanitize_noop_counterexample :
  ~ (forall content port,
       exposesOnly content port = true -> setsPortTo content port = true ->
       sanitizeDockerfile content port = content)
  /\ sanitizeDockerfile Samples.legacyRecipe 3000 <> Samples.legacyRecipe.
Proof.
  split.
  - intros H.
    specialize (H Demo.rootRecipe 3000%N eq_refl eq_refl).
    vm_compute in H. discriminate H.
  - vm_compute. discriminate.
Qed.

Lemma listing_keeps_labelled_containers_witness :
  (fst (listRunningContainers (E := Demo.broken)
          (Demo.world Demo.broken tt Demo.sourceTree)) = [])
  /\
  (let listed := fst (listRunningContainers (E := Demo.up)
                        (Demo.world Demo.up tt Demo.sourceTree)) in
   In {| containerName := "thakur-proj-aaa"; projectId := "proj-aaaa1111";
         buildId := "bld-bbbb2222" |} listed /\
   forall m, In m listed -> projectId m <> "" /\ buildId m <> "").
Proof.
  split.
  - destruct (listing_keeps_labelled_containers (E := Demo.broken)
                (Demo.world Demo.broken tt Demo.sourceTree)) as (Hfail & _).
    apply Hfail. vm_compute. discriminate.
  - destruct (listing_keeps_labelled_containers (E := Demo.up)
                (Demo.world Demo.up tt Demo.sourceTree)) as (_ & Hiff & Hlabels & _).
    split; [|exact Hlabels].
    apply Hiff; [reflexivity | reflexivity |].
    exists "thakur-proj-aaa proj-aaaa1111 bld-bbbb2222", [].
    vm_compute. intuition discriminate.
Defined.

(** * Further properties of the code

    Properties of the engine beyond the specification's sentences, of
    nginx-service, of the availability check and of the two date helpers
    of the interface. *)


(** ** The sanitiser, line by line *)

Lemma starts_not (a b : ascii) (r : string) (x y : ascii) (p : string) :
  JS.isSpace a = false -> JS.upper a <> x \/ JS.upper b <> y ->
  JS.startsWith (trimmedLine (String a (String b r))) (String x (String y p)) = false.
Proof.
  intros Ha Hab. destruct (JS.startsWith _ _) eqn:Hex; [|reflexivity].
  apply trimmed_head2 in Hex as (a' & b' & r' & Hstart & Ha' & Hb').
  unfold JS.trimStart in Hstart. cbn [JS.dropWhile] in Hstart. rewrite Ha in Hstart.
  injection Hstart as <- <- _. tauto.
Qed.

Lemma portEnv_starts (line : string) (port : N) (x y : ascii) (p : string) :
  isPortEnvLine line = true -> x <> "E"%char \/ y <> "N"%char ->
  JS.startsWith (trimmedLine (replacePort line port)) (String x (String y p)) = false.
Proof.
  unfold isPortEnvLine. intros [Henv _]%andb_true_iff Hxy.
  apply trimmed_head2 in Henv as (a & b & r & Hstart & Ha & Hb).
  destruct (replacePort_trimStart line port a b r Hstart) as [r' Hr'].
  { by rewrite Ha. } { by rewrite Hb. }
  destruct (JS.startsWith _ _) eqn:Hex; [|reflexivity].
  apply trimmed_head2 in Hex as (a' & b' & r'' & Hstart' & Ha' & Hb').
  rewrite Hr' in Hstart'. injection Hstart' as <- <- _.
  destruct Hxy; congruence.
Qed.

Lemma sanitizeLines_In (l : string) (ls : list string) (port : N) :
  In l (sanitizeLines ls port) ->
  l = "ENV PORT=" +:+ JS.show port \/ l = "EXPOSE " +:+ JS.show port \/
  exists l0, In l0 ls /\ l = sanitizeLine port l0.
Proof.
  unfold sanitizeLines.
  assert (Hmid : In l (if existsb isExposeLine ls then map (sanitizeLine port) ls
                       else map (sanitizeLine port) ls ++ ["EXPOSE " +:+ JS.show port]) ->
                 l = "EXPOSE " +:+ JS.show port \/
                 exists l0, In l0 ls /\ l = sanitizeLine port l0).
  { destruct (existsb isExposeLine ls).
    - intros (l0 & <- & H0)%in_map_iff. right. by exists l0.
    - intros [(l0 & <- & H0)%in_map_iff|[<-|[]]]%in_app_iff; [right; by exists l0 | by left]. }
  destruct (existsb (fun l1 => negb (isExposeLine l1) && isPortEnvLine l1) ls); [tauto|].
  intros [->|H]%in_insertBeforeCmd; [by left | tauto].
Qed.

(** X1.  For a recipe in the ASCII range, no line of the sanitised
    recipe starts, trimmed and upper-cased, with [USER ROOT]: the lines
    that do are commented out.  The test is for that spelling only: the
    instructions [USER  root] with two spaces, [USER], a tab and [root],
    and [USER 0] are not recognised, and stay in the recipe as they
    are. *)
Theorem sanitize_leaves_no_root_user (content : string) (port : N) :
  let input := JS.split JS.nl content in
  let output := JS.split JS.nl (sanitizeDockerfile content port) in
  JS.isAscii content = true ->
  Forall (fun l => JS.startsWith (trimmedLine l) "USER ROOT" = false) output /\
  (forall l, In l ["USER  root"; "USER" +:+ String JS.tab "root"; "USER 0"] ->
             In l input -> In l output).
Proof.
  intros input output _. split.
  - subst output. rewrite sanitizeDockerfile_lines. apply List.Forall_forall. intros l Hl.
    apply sanitizeLines_In in Hl as [->|[->|(l0 & _ & ->)]].
    + by apply starts_not; [|left].
    + by apply starts_not; [|left].
    + unfold sanitizeLine.
      destruct (isExposeLine l0); [by apply starts_not; [|left]|].
      destruct (isPortEnvLine l0) eqn:Henv; [apply portEnv_starts; [done | by left]|].
      destruct (isDangerousLine l0) eqn:Hd; [by apply starts_not; [|left]|].
      unfold isDangerousLine in Hd.
      by apply orb_false_iff in Hd as [[? _]%orb_false_iff _].
  - intros l Hl. apply sanitize_keeps_line.
    cbn [In] in Hl. destruct Hl as [<-|[<-|[<-|[]]]]; reflexivity.
Qed.

Lemma insertBeforeCmd_split (x : string) (ls : list string) :
  exists pre post,
    ls = pre ++ post /\ insertBeforeCmd x ls = pre ++ x :: post /\
    forallb (fun l => negb (isCmdLine l)) pre = true /\
    match post with [] => True | c :: _ => isCmdLine c = true end.
Proof.
  induction ls as [|l ls (pre & post & Hls & Hins & Hpre & Hpost)].
  - by exists [], [].
  - cbn [insertBeforeCmd]. destruct (isCmdLine l) eqn:Hl.
    + by exists [], (l :: ls).
    + exists (l :: pre), post. simpl. rewrite Hl, Hpre, Hins, <- Hls. done.
Qed.

(** X2.  The sanitiser drops no line and puts in at most two, for a
    recipe in the ASCII range.  Every line of the input becomes one line of
    the output, in order: the line itself, [EXPOSE <port>] in its place,
    the line with its port assignment replaced, or the line commented
    out.  After them comes one line [EXPOSE <port>] when the input has no
    EXPOSE line; and one line [ENV PORT=<port>] is put in somewhere among
    these lines when the input has no ENV line that mentions PORT.
    Nothing else is added. *)
Theorem sanitize_drops_no_line (content : string) (port : N) :
  let ins := JS.split JS.nl content in
  let outs := JS.split JS.nl (sanitizeDockerfile content port) in
  let mid := map (sanitizeLine port) ins
             ++ (if existsb isExposeLine ins then [] else ["EXPOSE " +:+ JS.show port]) in
  JS.isAscii content = true ->
  (forall l, sanitizeLine port l = l \/
             sanitizeLine port l = "EXPOSE " +:+ JS.show port \/
             sanitizeLine port l = replacePort l port \/
             sanitizeLine port l = "# REMOVED FOR SECURITY: " +:+ l) /\
  (if existsb (fun l => negb (isExposeLine l) && isPortEnvLine l) ins
   then outs = mid
   else exists pre post,
          mid = pre ++ post /\ outs = pre ++ ("ENV PORT=" +:+ JS.show port) :: post).
Proof.
  intros ins outs mid _. split.
  { intros l. unfold sanitizeLine.
    destruct (isExposeLine l); [tauto|]. destruct (isPortEnvLine l); [tauto|].
    destruct (isDangerousLine l); tauto. }
  subst outs. rewrite sanitizeDockerfile_lines. fold ins.
  unfold sanitizeLines.
  assert (Hmid : (if existsb isExposeLine ins then map (sanitizeLine port) ins
                  else map (sanitizeLine port) ins ++ ["EXPOSE " +:+ JS.show port]) = mid).
  { subst mid. destruct (existsb isExposeLine ins); [by rewrite app_nil_r | done]. }
  rewrite Hmid.
  destruct (existsb (fun l => negb (isExposeLine l) && isPortEnvLine l) ins); [done|].
  destruct (insertBeforeCmd_split ("ENV PORT=" +:+ JS.show port) mid)
    as (pre & post & Hsplit & Hins & _).
  by exists pre, post.
Qed.

(** X3.  When no line of the recipe is an ENV line that mentions PORT, the
    sanitiser puts [ENV PORT=<port>] immediately before the first CMD or
    ENTRYPOINT line, and at the end when there is none: no command line
    precedes it, and what follows it, if anything, starts with the
    command. *)
Theorem sanitize_sets_port_before_command (content : string) (port : N) :
  let ins := JS.split JS.nl content in
  let outs := JS.split JS.nl (sanitizeDockerfile content port) in
  existsb isPortEnvLine ins = false ->
  exists pre post,
    outs = pre ++ ("ENV PORT=" +:+ JS.show port) :: post /\
    pre ++ post = map (sanitizeLine port) ins
                  ++ (if existsb isExposeLine ins then [] else ["EXPOSE " +:+ JS.show port]) /\
    forallb (fun l => negb (isCmdLine l)) pre = true /\
    match post with [] => True | c :: _ => isCmdLine c = true end.
Proof.
  intros ins outs Hnone. subst outs. rewrite sanitizeDockerfile_lines. fold ins.
  unfold sanitizeLines.
  assert (Hno : existsb (fun l => negb (isExposeLine l) && isPortEnvLine l) ins = false).
  { apply not_true_is_false. intros (l & Hl & [_ Hp]%andb_true_iff)%existsb_exists.
    assert (existsb isPortEnvLine ins = true) by (apply existsb_exists; eauto).
    congruence. }
  rewrite Hno.
  set (mid := if existsb isExposeLine ins then map (sanitizeLine port) ins
              else map (sanitizeLine port) ins ++ ["EXPOSE " +:+ JS.show port]).
  destruct (insertBeforeCmd_split ("ENV PORT=" +:+ JS.show port) mid)
    as (pre & post & Hmid & -> & Hpre & Hpost).
  exists pre, post. split; [done|]. split; [|done].
  rewrite <- Hmid. subst mid. destruct (existsb isExposeLine ins); [by rewrite app_nil_r|done].
Qed.

(** ** Synthesised recipes *)

Lemma bunTemplate_lines (port : N) (cmd : string) :
  bunTemplate port cmd = JS.join JS.nl (bunLines port cmd).
Proof. reflexivity. Qed.

Lemma envLine_isPortEnv (port : N) :
  isPortEnvLine ("ENV PORT=" +:+ JS.show port) = true.
Proof.
  destruct (show_digits port) as (d & ds & -> & _ & Hd).
  unfold isPortEnvLine, trimmedLine, JS.trim.
  change ("ENV PORT=" +:+ String d ds) with
    (String "E" (String "N" (String "V" (String " " (String "P" (String "O"
       (String "R" (String "T" (String "=" (String d ds)))))))))).
  cbn [JS.trimStart JS.dropWhile JS.isSpace Ascii.is_space].
  rewrite !trimEnd_cons by done.
  reflexivity.
Qed.

Lemma sanitizeLine_keeps (port : N) (l : string) :
  isExposeLine l = false -> isPortEnvLine l = false -> isDangerousLine l = false ->
  sanitizeLine port l = l.
Proof. intros H1 H2 H3. unfold sanitizeLine. by rewrite H1, H2, H3. Qed.

Lemma bunLines_split (port : N) (cmd : string) :
  JS.contains JS.nl cmd = false ->
  JS.split JS.nl (bunTemplate port cmd) = bunLines port cmd.
Proof.
  intros Hnl. rewrite bunTemplate_lines. apply split_join; [done|].
  intros l Hl. unfold bunLines in Hl. cbn [In] in Hl.
  repeat (destruct Hl as [<-|Hl]; [first [reflexivity | exact Hnl
            | rewrite contains_app; by rewrite show_clean]|]).
  destruct Hl.
Qed.

Lemma bunLines_sanitary (port : N) (cmd : string) :
  JS.contains JS.nl cmd = false ->
  isExposeLine cmd = false -> isPortEnvLine cmd = false -> isDangerousLine cmd = false ->
  sanitizeDockerfile (bunTemplate port cmd) port = bunTemplate port cmd.
Proof.
  intros Hnl Hex Henv Hd.
  unfold sanitizeDockerfile. rewrite (bunLines_split _ _ Hnl), bunTemplate_lines.
  f_equal. apply sanitizeLines_canonical.
  - apply existsb_exists. exists ("EXPOSE " +:+ JS.show port).
    split; [|apply exposeLine_isExpose]. unfold bunLines. cbn [In]. tauto.
  - apply existsb_exists. exists ("ENV PORT=" +:+ JS.show port).
    split; [unfold bunLines; cbn [In]; tauto|].
    by rewrite envLine_not_expose, envLine_isPortEnv.
  - intros l Hl. unfold bunLines in Hl. cbn [In] in Hl.
    repeat (destruct Hl as [<-|Hl]; [first
      [ by apply sanitizeLine_keeps
      | unfold sanitizeLine; rewrite envLine_not_expose, envLine_isPortEnv;
        apply replacePort_canonical
      | unfold sanitizeLine; by rewrite exposeLine_isExpose ]|]).
    destruct Hl.
Qed.

(** ** Names *)

(** X17.  A container name has 7 characters and up to 8 of the project
    identifier, an image name 15 and up to 8 of each identifier: the
    container name is shorter than the 64 characters the runtime allows,
    however long the identifier. *)
Theorem names_fit_the_runtime_limits (p b : string) :
  String.length (getContainerName p) = 7 + Nat.min 8 (String.length p) /\
  String.length (getImageName p b)
  = 15 + Nat.min 8 (String.length p) + Nat.min 8 (String.length b) /\
  String.length (getContainerName p) < 64.
Proof.
  unfold getContainerName, getImageName.
  rewrite !length_sapp, !length_slice0.
  change (String.length "thakur-") with 7.
  change (String.length "thakur-deploy/") with 14.
  change (String.length ":") with 1.
  pose proof (Nat.le_min_l 8 (String.length p)). lia.
Qed.

(** ** Subdomains *)

Lemma isSpace_lower (c : ascii) : JS.isSpace (lower c) = JS.isSpace c.
Proof. destruct c as [[] [] [] [] [] [] [] []]; reflexivity. Qed.

Lemma lower_hyphen (c : ascii) : Ascii.eqb (lower c) "-" = Ascii.eqb c "-".
Proof. destruct c as [[] [] [] [] [] [] [] []]; reflexivity. Qed.

Lemma isEmpty_lower (s : string) : JS.isEmpty (toLowerCase s) = JS.isEmpty s.
Proof. by destruct s. Qed.

Lemma trimStart_lower (s : string) :
  JS.trimStart (toLowerCase s) = toLowerCase (JS.trimStart s).
Proof.
  unfold JS.trimStart. induction s as [|c s IH]; [done|].
  cbn [toLowerCase JS.dropWhile]. rewrite isSpace_lower.
  by destruct (JS.isSpace c).
Qed.

Lemma trimEnd_lower (s : string) :
  JS.trimEnd (toLowerCase s) = toLowerCase (JS.trimEnd s).
Proof.
  induction s as [|c s IH]; [done|].
  cbn [toLowerCase JS.trimEnd]. rewrite IH, isSpace_lower, isEmpty_lower.
  by destruct (JS.isSpace c && JS.isEmpty (JS.trimEnd s)).
Qed.

Lemma trim_lower (s : string) : JS.trim (toLowerCase s) = toLowerCase (JS.trim s).
Proof. unfold JS.trim. by rewrite trimStart_lower, trimEnd_lower. Qed.

Lemma allChars_lower (s : string) :
  allChars isLabelChar (toLowerCase s) = allChars isHostChar s.
Proof. induction s as [|c s IH]; [done|]. simpl. by rewrite IH. Qed.

Lemma prefix_one (c a : ascii) (s : string) :
  String.prefix (String c "") (String a s) = Ascii.eqb a c.
Proof.
  cbn [String.prefix]. destruct (ascii_dec c a) as [->|Hne].
  - rewrite Ascii.eqb_refl. by destruct s.
  - symmetry. apply Ascii.eqb_neq. congruence.
Qed.

Lemma startsWith_hyphen_lower (s : string) :
  JS.startsWith (toLowerCase s) "-" = JS.startsWith s "-".
Proof.
  destruct s as [|c s]; [done|]. unfold JS.startsWith. cbn [toLowerCase].
  by rewrite !prefix_one, lower_hyphen.
Qed.

Lemma endsWith_hyphen_lower (s : string) :
  endsWith (toLowerCase s) "-" = endsWith s "-".
Proof.
  induction s as [|c s IH]; [done|].
  cbn [toLowerCase endsWith]. rewrite isEmpty_lower, lower_hyphen, IH. done.
Qed.

Lemma existsb_eqb_In (s : string) (l : list string) :
  existsb (String.eqb s) l = false -> ~ In s l.
Proof.
  intros H Hin. apply not_true_iff_false in H. apply H.
  apply existsb_exists. exists s. split; [done | apply String.eqb_refl].
Qed.

(** X20.  A subdomain in the ASCII range that nginx-service accepts
    consists, apart from white space around it, of letters, digits and
    hyphens only; it is not empty, neither starts nor ends with a hyphen,
    and its lower-case form is not a reserved word. *)
Theorem allowed_subdomain_characters (sub : string) :
  JS.isAscii sub = true ->
  NginxService.isSubdomainAllowed sub = true ->
  let core := JS.trim sub in
  core <> "" /\ allChars isHostChar core = true /\
  JS.startsWith core "-" = false /\ endsWith core "-" = false /\
  ~ In (toLowerCase core) NginxService.RESERVED.
Proof.
  intros _. unfold NginxService.isSubdomainAllowed. cbv zeta.
  destruct (negb (JS.truthy sub)); [done|].
  rewrite trim_lower.
  destruct (existsb _ NginxService.RESERVED) eqn:Hres; [done|].
  destruct (isLabel _) eqn:Hlabel; [|done]. cbn [negb].
  rewrite startsWith_hyphen_lower, endsWith_hyphen_lower.
  destruct (JS.startsWith _ "-" || endsWith _ "-") eqn:Hends; [done|]. intros _.
  apply orb_false_iff in Hends as [Hstart Hend].
  unfold isLabel in Hlabel. apply andb_true_iff in Hlabel as [Hne Hall].
  rewrite allChars_lower in Hall.
  split; [|split; [done|split; [done|split; [done|by apply existsb_eqb_In]]]].
  intros Hnil. rewrite Hnil in Hne. done.
Qed.

Section Sites.

Context {H : Host}.

Import NginxService.

Lemma site_path_exists (path content : string) (s : Site) :
  bool_decide (path ∈ dom (<[path := content]> (confs s))) = true.
Proof. apply bool_decide_eq_true_2, elem_of_dom. rewrite lookup_insert_eq. by eexists. Qed.

Lemma createConfig_run (sub : string) (port : N) (s : Site) :
  let path := pathJoin AVAILABLE_DIR (sub +:+ ".conf") in
  createConfig sub port s
  = if isSubdomainAllowed sub then
      match writeFails (past s) path with
      | Some message => (Thrown message, s)
      | None => reload {| confs := <[path := generateConfig sub port]> (confs s);
                          past := past s ++ [HvWrite path (generateConfig sub port)] |}
      end
    else (Thrown ("Invalid or reserved subdomain: " +:+ sub), s).
Proof.
  cbv zeta. unfold createConfig.
  destruct (isSubdomainAllowed sub); cbn [negb]; [|done].
  unfold andThen, bunWrite.
  destruct (writeFails (past s) (pathJoin AVAILABLE_DIR (sub +:+ ".conf"))); [done|].
  unfold existsSync. cbn [confs].
  change (pathJoin ENABLED_DIR (sub +:+ ".conf"))
    with (pathJoin AVAILABLE_DIR (sub +:+ ".conf")).
  by rewrite site_path_exists.
Qed.

Lemma removeConfig_run (sub : string) (s : Site) :
  let path := pathJoin AVAILABLE_DIR (sub +:+ ".conf") in
  removeConfig sub s
  = if bool_decide (path ∈ dom (confs s)) then
      match unlinkFails (past s) path with
      | Some message => (Thrown message, s)
      | None => reload {| confs := delete path (confs s);
                          past := past s ++ [HvUnlink path] |}
      end
    else reload s.
Proof.
  cbv zeta. unfold removeConfig.
  change (pathJoin ENABLED_DIR (sub +:+ ".conf"))
    with (pathJoin AVAILABLE_DIR (sub +:+ ".conf")).
  set (path := pathJoin AVAILABLE_DIR (sub +:+ ".conf")).
  unfold andThen, existsSync, unlink, pure.
  destruct (bool_decide (path ∈ dom (confs s))) eqn:Hthere.
  - destruct (unlinkFails (past s) path); [done|]. cbn [confs].
    assert (Hgone : bool_decide (path ∈ dom (delete path (confs s))) = false).
    { apply bool_decide_eq_false_2. rewrite elem_of_dom, lookup_delete_eq. by intros []. }
    by rewrite Hgone.
  - by rewrite Hthere.
Qed.

(** X21.  [createConfig] never creates a link: the two directories are
    the same, so the file it has just written is found in place.  For a
    subdomain that is not allowed it throws before it touches the host.
    When it returns, it has written the generated configuration and
    reloaded nginx with exit status 0, and nothing else. *)
Theorem createConfig_writes_then_reloads (sub : string) (port : N) (s : Site) :
  let path := pathJoin AVAILABLE_DIR (sub +:+ ".conf") in
  let out := fst (createConfig sub port s) in
  let s' := snd (createConfig sub port s) in
  exists evs,
    past s' = past s ++ evs /\
    List.filter isLink evs = [] /\
    (isSubdomainAllowed sub = false ->
       out = Thrown ("Invalid or reserved subdomain: " +:+ sub) /\ s' = s) /\
    (out = Returned tt ->
       isSubdomainAllowed sub = true /\
       evs = [HvWrite path (generateConfig sub port); HvReload (Some 0%Z)] /\
       confs s' = <[path := generateConfig sub port]> (confs s)).
Proof.
  cbv zeta. rewrite createConfig_run. cbv zeta.
  destruct (isSubdomainAllowed sub).
  2:{ exists []. by rewrite app_nil_r. }
  destruct (writeFails _ _) as [msg|].
  { exists []. by rewrite app_nil_r. }
  unfold reload. cbn [confs past].
  destruct (reloadExit _ _) as [[| |]|]; cbn [fst snd confs past];
    eexists; (split; [by rewrite <- app_assoc|]); by repeat split.
Qed.

(** X22.  [removeConfig] removes the configuration file at most once:
    its second guarded removal finds the file gone.  When it returns, the
    file is absent, and it has removed it if it was there and reloaded
    nginx, and nothing else. *)
Theorem removeConfig_unlinks_once (sub : string) (s : Site) :
  let path := pathJoin AVAILABLE_DIR (sub +:+ ".conf") in
  let out := fst (removeConfig sub s) in
  let s' := snd (removeConfig sub s) in
  exists evs,
    past s' = past s ++ evs /\
    length (List.filter isUnlink evs) <= 1 /\
    (out = Returned tt ->
       confs s' = delete path (confs s) /\
       evs = (if bool_decide (path ∈ dom (confs s)) then [HvUnlink path] else [])
             ++ [HvReload (Some 0%Z)]).
Proof.
  cbv zeta. rewrite removeConfig_run. cbv zeta.
  set (path := pathJoin AVAILABLE_DIR (sub +:+ ".conf")).
  destruct (bool_decide (path ∈ dom (confs s))) eqn:Hthere.
  - destruct (unlinkFails _ _) as [msg|].
    { exists []. rewrite app_nil_r. split; [done|]. split; [simpl; lia | done]. }
    unfold reload. cbn [confs past].
    destruct (reloadExit _ _) as [[| |]|]; cbn [fst snd confs past];
      eexists; (split; [by rewrite <- app_assoc|]); (split; [simpl; lia|]); done.
  - assert (Hsame : delete path (confs s) = confs s).
    { apply delete_id. apply bool_decide_eq_false in Hthere. by apply not_elem_of_dom. }
    unfold reload.
    destruct (reloadExit _ _) as [[| |]|]; cbn [fst snd confs past];
      eexists; (split; [done|]); (split; [simpl; lia|]); done.
Qed.

(** X23.  Removing a configuration that was just created for a fresh
    subdomain leaves the site directory as it was: one write, one removal
    and two reloads. *)
Theorem removeConfig_undoes_createConfig (sub : string) (port : N) (s : Site) :
  let path := pathJoin AVAILABLE_DIR (sub +:+ ".conf") in
  let s1 := snd (createConfig sub port s) in
  let s2 := snd (removeConfig sub s1) in
  fst (createConfig sub port s) = Returned tt ->
  fst (removeConfig sub s1) = Returned tt ->
  confs s !! path = None ->
  confs s2 = confs s /\
  past s2 = past s ++ [HvWrite path (generateConfig sub port); HvReload (Some 0%Z);
                       HvUnlink path; HvReload (Some 0%Z)].
Proof.
  cbv zeta. set (path := pathJoin AVAILABLE_DIR (sub +:+ ".conf")).
  rewrite createConfig_run. cbv zeta. fold path.
  destruct (isSubdomainAllowed sub); [|done].
  destruct (writeFails _ _) as [msg|]; [done|].
  unfold reload at 1 2 3 4. cbn [confs past].
  destruct (reloadExit _ _) as [[| |]|]; cbn [fst snd]; try done. intros _.
  rewrite removeConfig_run. cbv zeta. fold path. cbn [confs past].
  rewrite (site_path_exists path _ s).
  destruct (unlinkFails _ _) as [msg|]; [done|].
  unfold reload. cbn [confs past].
  destruct (reloadExit _ _) as [[| |]|]; cbn [fst snd confs past]; try done.
  intros _ Hfresh. split.
  - rewrite delete_insert_eq. by apply delete_id.
  - by rewrite <- !app_assoc.
Qed.

End Sites.

Section Availability.

Context {H : Host}.
Variable CF_API_TOKEN CF_ZONE_ID : option string.
Variable dnsRecords : string -> ApiAnswer.

(** X24.  The availability check of the control API and the validation
    of nginx-service agree on the format of a subdomain.  For a subdomain
    that nginx-service accepts the check does not reject the format: it
    answers from its own list of reserved words, from the missing
    credentials, or from the provider.  A subdomain that the check reports
    available is accepted by nginx-service exactly when it is not one of
    the words that nginx-service reserves. *)
Theorem availability_check_and_nginx_validation (sub : string) :
  let s := JS.trim (toLowerCase sub) in
  let check := CloudflareService.checkSubdomain CF_API_TOKEN CF_ZONE_ID dnsRecords sub in
  (NginxService.isSubdomainAllowed sub = true ->
     check = if existsb (String.eqb s) CloudflareService.RESERVED then Returned false
             else if negb (CloudflareService.configured CF_API_TOKEN)
                     || negb (CloudflareService.configured CF_ZONE_ID)
                  then Returned true
                  else match dnsRecords (s +:+ "." +:+ BASE_DOMAIN) with
                       | ApiRecords count => Returned (count =? 0)%nat
                       | ApiNotOk =>
                           Thrown "Failed to check domain availability with provider."
                       | ApiFailed message => Thrown message
                       end) /\
  (check = Returned true ->
     NginxService.isSubdomainAllowed sub = negb (existsb (String.eqb s) NginxService.RESERVED)).
Proof.
  cbv zeta. unfold CloudflareService.checkSubdomain, NginxService.isSubdomainAllowed.
  cbv zeta. destruct (negb (JS.truthy sub)); [done|].
  set (s := JS.trim (toLowerCase sub)).
  destruct (isLabel s); cbn [negb].
  2:{ split; [|done]. by destruct (existsb _ NginxService.RESERVED). }
  destruct (JS.startsWith s "-" || endsWith s "-").
  { split; [|done]. by destruct (existsb _ NginxService.RESERVED). }
  split.
  - by destruct (existsb _ NginxService.RESERVED).
  - intros _. by destruct (existsb _ NginxService.RESERVED).
Qed.

End Availability.

(** ** How long ago *)

(** X25.  [timeAgo] shows a whole number of the largest unit that the
    elapsed seconds strictly exceed, and seconds when they exceed none:
    years above 31536000 s, months above 2592000 s and up to a year, days
    above 86400 s and up to a month, hours above 3600 s and up to a day,
    minutes above 60 s and up to an hour (exactly one hour reads
    [60m ago]), seconds up to a minute.  The number is the elapsed time in
    that unit, rounded down; it is at least 1 except for seconds; and it
    is at most 12 months, 30 days, 24 hours, 60 minutes or 60 seconds. *)
Theorem timeAgo_counts_whole_units (now date : Z) :
  let seconds := ((now - date) / 1000)%Z in
  exists count unit size above,
    timeAgo now date = showZ count +:+ unit /\
    In (unit, size, above)
       [("y ago", 31536000, None); ("mo ago", 2592000, Some 31536000);
        ("d ago", 86400, Some 2592000); ("h ago", 3600, Some 86400);
        ("m ago", 60, Some 3600); ("s ago", 1, Some 60)]%Z /\
    (unit <> "s ago" -> size < seconds)%Z /\
    (forall larger, above = Some larger -> seconds <= larger /\ count <= larger / size)%Z /\
    (size * count <= seconds < size * (count + 1))%Z /\
    (unit <> "s ago" -> 1 <= count)%Z.
Proof.
  intros seconds. unfold timeAgo. fold seconds.
  assert (Hdiv : forall size, (0 < size)%Z ->
            (size * (seconds / size) <= seconds < size * (seconds / size + 1))%Z).
  { intros size Hsize. pose proof (Z.mod_pos_bound seconds size Hsize).
    pose proof (Z.div_mod seconds size ltac:(lia)). lia. }
  assert (Hone : forall size, (0 < size)%Z -> (size < seconds)%Z -> (1 <= seconds / size)%Z).
  { intros size Hsize Hlt. apply Z.div_le_lower_bound; lia. }
  assert (Hmax : forall size larger, (0 < size)%Z -> (seconds <= larger)%Z ->
            (seconds / size <= larger / size)%Z).
  { intros size larger Hsize Hle. by apply Z.div_le_mono. }
  destruct (Z.ltb_spec 31536000 seconds).
  { exists (seconds / 31536000)%Z, "y ago", 31536000%Z, None.
    split; [done|]. split; [by left|]. split; [done|]. split; [done|].
    split; [by apply Hdiv|]. intros _. by apply Hone. }
  destruct (Z.ltb_spec 2592000 seconds).
  { exists (seconds / 2592000)%Z, "mo ago", 2592000%Z, (Some 31536000%Z).
    split; [done|]. split; [right; by left|]. split; [done|].
    split; [intros larger [= <-]; split; [done | by apply Hmax]|].
    split; [by apply Hdiv|]. intros _. by apply Hone. }
  destruct (Z.ltb_spec 86400 seconds).
  { exists (seconds / 86400)%Z, "d ago", 86400%Z, (Some 2592000%Z).
    split; [done|]. split; [do 2 right; by left|]. split; [done|].
    split; [intros larger [= <-]; split; [done | by apply Hmax]|].
    split; [by apply Hdiv|]. intros _. by apply Hone. }
  destruct (Z.ltb_spec 3600 seconds).
  { exists (seconds / 3600)%Z, "h ago", 3600%Z, (Some 86400%Z).
    split; [done|]. split; [do 3 right; by left|]. split; [done|].
    split; [intros larger [= <-]; split; [done | by apply Hmax]|].
    split; [by apply Hdiv|]. intros _. by apply Hone. }
  destruct (Z.ltb_spec 60 seconds).
  { exists (seconds / 60)%Z, "m ago", 60%Z, (Some 3600%Z).
    split; [done|]. split; [do 4 right; by left|]. split; [done|].
    split; [intros larger [= <-]; split; [done | by apply Hmax]|].
    split; [by apply Hdiv|]. intros _. by apply Hone. }
  exists seconds, "s ago", 1%Z, (Some 60%Z).
  split; [done|]. split; [do 5 right; by left|]. split; [done|].
  split; [intros larger [= <-]; split; [done | by rewrite Z.div_1_r]|].
  split; [lia|]. done.
Qed.

Section Dates.

Variable parseDate : string -> option Z.
Variable toLocaleDateString : option Z -> string.

(** X26.  Within 30 days [formatDate] reads only the distance between
    the date and now: a date that far in the future is shown like the date
    that far in the past.  The text is [Today], [Yesterday], a number of
    days, or a number of weeks between 1 and 4. *)
Theorem formatDate_reads_the_distance (now d : Z) (earlier later : string) :
  earlier <> "" -> later <> "" ->
  parseDate earlier = Some (now - d)%Z -> parseDate later = Some (now + d)%Z ->
  (0 <= d)%Z ->
  let days := (d / 86400000)%Z in
  (days < 30)%Z ->
  formatDate parseDate toLocaleDateString now (Some later)
  = formatDate parseDate toLocaleDateString now (Some earlier) /\
  formatDate parseDate toLocaleDateString now (Some earlier)
  = (if (days =? 0)%Z then "Today"
     else if (days =? 1)%Z then "Yesterday"
     else if (days <? 7)%Z then showZ days +:+ " days ago"
     else showZ (days / 7) +:+ " weeks ago") /\
  ((7 <= days)%Z -> (1 <= days / 7 <= 4)%Z).
Proof.
  intros Hearlier Hlater Hparse1 Hparse2 Hd days Hmonth. unfold formatDate.
  apply truthy_nonempty in Hearlier, Hlater.
  rewrite Hearlier, Hlater, Hparse1, Hparse2. cbn [negb].
  change (1000 * 60 * 60 * 24)%Z with 86400000%Z.
  replace (Z.abs (now - (now + d))) with d by lia.
  replace (Z.abs (now - (now - d))) with d by lia.
  fold days. destruct (Z.ltb_spec days 30) as [_|Hge]; [|lia].
  split; [done|]. split; [done|].
  intros Hweek. split.
  - apply Z.div_le_lower_bound; lia.
  - assert (days / 7 < 5)%Z by (apply Z.div_lt_upper_bound; lia). lia.
Qed.

End Dates.

(** ** The engine *)

Section More.

Context {E : Env}.

Notation "x <- m ;; k" := (bind m (fun x => k))
  (at level 100, m at next level, right associativity, only parsing).
Notation "m ;;; k" := (bind m (fun _ => k))
  (at level 100, k at level 200, right associativity, only parsing).
Ltac wp_apply lem := eapply wp_mono; [apply lem | cbv beta].
Ltac wp_return := apply wp_ret; cbv beta.

(** X5.  [detectEntryFile] returns the first of the entry patterns, in
    their order, that exists in the source directory, and nothing when
    none exists; it changes nothing. *)
Theorem detectEntryFile_first_match (dir : string) (w : World) :
  snd (detectEntryFile dir w) = w /\
  match fst (detectEntryFile dir w) with
  | Some f =>
      exists before after,
        ENTRY_PATTERNS = before ++ f :: after /\ existsIn w (join dir f) = true /\
        Forall (fun g => existsIn w (join dir g) = false) before
  | None => Forall (fun g => existsIn w (join dir g) = false) ENTRY_PATTERNS
  end.
Proof.
  split; [apply detectEntryIn_pure|].
  unfold detectEntryFile. generalize ENTRY_PATTERNS as patterns.
  induction patterns as [|pat rest IH]; [by constructor|].
  cbn [detectEntryIn]. unfold bind, existsSync at 1. fold (existsIn w (join dir pat)).
  destruct (existsIn w (join dir pat)) eqn:Hpat.
  - simpl. by exists [], rest.
  - destruct (fst (detectEntryIn dir rest w)) as [f|] eqn:Hrest.
    + destruct IH as (before & after & -> & Hf & Hbefore).
      exists (pat :: before), after. split; [done|]. split; [done|]. by constructor.
    + by constructor.
Qed.

Lemma detectEntryIn_member (dir : string) (patterns : list string) (w : World) (f : string) :
  fst (detectEntryIn dir patterns w) = Some f -> In f patterns.
Proof.
  induction patterns as [|pat rest IH]; [done|].
  cbn [detectEntryIn]. unfold bind, existsSync at 1.
  destruct (_ || _).
  - intros [= <-]. by left.
  - intros Hf. right. by apply IH.
Qed.

Lemma entryFor_known (dir : string) (w : World) :
  entryFor dir w = None \/ exists f, entryFor dir w = Some f /\ In f ENTRY_PATTERNS.
Proof.
  unfold entryFor. destruct (fst (hasStartScript dir w)); [by left|].
  unfold detectEntryFile.
  destruct (fst (detectEntryIn dir ENTRY_PATTERNS w)) as [f|] eqn:Hf; [|by left].
  right. exists f. split; [done|]. by eapply detectEntryIn_member.
Qed.

(** X4.  The recipe that [buildImage] synthesises for a server (any
    framework but vite), for any port and whatever entry file it detects,
    already satisfies the sanitiser: sanitising it for the same port gives
    it back character for character. *)
Theorem synthesised_recipe_passes_sanitiser (fw : AppType) (port : N) (dir : string)
    (w : World) :
  fw <> vite ->
  let recipe := getDockerfileContent fw port (entryFor dir w) in
  sanitizeDockerfile recipe port = recipe.
Proof.
  intros Hfw recipe.
  assert (Hbun : recipe = bunTemplate port (startCmd (entryFor dir w))).
  { subst recipe. by destruct fw. }
  rewrite Hbun.
  destruct (entryFor_known dir w) as [->|(f & -> & Hf)].
  - by apply bunLines_sanitary.
  - unfold ENTRY_PATTERNS in Hf. cbn [In] in Hf.
    repeat (destruct Hf as [<-|Hf]; [by apply bunLines_sanitary|]). destruct Hf.
Qed.

(** X27.  Whether package.json declares a start script decides the command
    of a synthesised recipe.  A package.json that is missing, or that
    cannot be read as a file, declares none.  With a start script the
    recipe of a server ends in [bun run start] even when an entry file
    exists; without one it ends in the first entry file that exists, and
    in [bun run start] when there is none. *)
Theorem start_script_decides_the_command (fw : AppType) (port : N) (dir : string)
    (w : World) :
  let scripted :=
    match files w !! join dir "package.json" with
    | Some content => jsonHasStartScript content
    | None => false
    end in
  fst (hasStartScript dir w) = scripted /\
  entryFor dir w = (if scripted then None else fst (detectEntryFile dir w)) /\
  (fw <> vite ->
     last (JS.split JS.nl (getDockerfileContent fw port (entryFor dir w)))
     = Some (if scripted then bunRun "start"
             else match fst (detectEntryFile dir w) with
                  | Some f => bunRun f
                  | None => bunRun "start"
                  end)).
Proof.
  intros scripted.
  assert (Hscripted : fst (hasStartScript dir w) = scripted).
  { unfold hasStartScript, bind, existsSync, readFileSync, ret. subst scripted.
    destruct (files w !! join dir "package.json") as [c|] eqn:Hpkg.
    - rewrite bool_decide_eq_true_2 by (apply elem_of_dom; by eexists).
      simpl. by rewrite Hpkg.
    - destruct (_ || _); simpl; by rewrite ?Hpkg. }
  split; [exact Hscripted|].
  assert (Hentry : entryFor dir w = if scripted then None else fst (detectEntryFile dir w)).
  { unfold entryFor. by rewrite Hscripted. }
  split; [exact Hentry|]. intros Hfw.
  assert (Hbun : getDockerfileContent fw port (entryFor dir w)
                 = bunTemplate port (startCmd (entryFor dir w))) by by destruct fw.
  rewrite Hbun.
  assert (Hcmd : startCmd (entryFor dir w)
                 = (if scripted then bunRun "start"
                    else match fst (detectEntryFile dir w) with
                         | Some f => bunRun f
                         | None => bunRun "start"
                         end)
                 /\ JS.contains JS.nl (startCmd (entryFor dir w)) = false).
  { destruct (entryFor_known dir w) as [Hnone|(f & Hsome & Hf)].
    - rewrite Hnone. rewrite Hnone in Hentry. split; [|done].
      destruct scripted; [done|]. by rewrite <- Hentry.
    - rewrite Hsome. rewrite Hsome in Hentry.
      destruct scripted; [done|]. rewrite <- Hentry.
      unfold ENTRY_PATTERNS in Hf. cbn [In] in Hf.
      repeat (destruct Hf as [<-|Hf]; [by split|]). destruct Hf. }
  destruct Hcmd as [Hcmd Hclean]. rewrite (bunLines_split _ _ Hclean), <- Hcmd. done.
Qed.

(** *** Starting a container *)

Lemma envFlag_found (key v : string) (envVars : list (string * string)) :
  lookupEnv key envVars = Some v ->
  exists pre post,
    flat_map (fun kv : string * string => ["-e"; fst kv +:+ "=" +:+ snd kv]) envVars
    = pre ++ "-e" :: (key +:+ "=" +:+ v) :: post.
Proof.
  unfold lookupEnv. induction envVars as [|[k0 v0] rest IH]; [done|].
  cbn [List.find flat_map fst snd]. destruct (String.eqb k0 key) eqn:Hk.
  - apply String.eqb_eq in Hk as ->. intros [= ->]. by eexists [], _.
  - intros (pre & post & ->)%IH. by exists ("-e" :: (k0 +:+ "=" +:+ v0) :: pre), post.
Qed.

Lemma show_nonempty (n : N) : JS.show n <> "".
Proof. destruct (show_digits n) as (d & ds & -> & _). done. Qed.

(** X6.  [runContainer] always passes a non-empty PORT variable to the
    container: the caller's when the environment defines a non-empty one,
    and otherwise the internal port, as the last variable before the image
    name.  Besides the caller's variables and this one, the command line
    has its 19 fixed arguments. *)
Theorem runContainer_always_sets_port (config : ContainerConfig) :
  let given := lookupEnv "PORT" (cfgEnvVars config) in
  let forced := negb (JS.truthy (default "" given)) in
  let v := if forced then JS.show (cfgInternalPort config) else default "" given in
  v <> "" /\
  (exists before after,
     runArgs config = before ++ "-e" :: ("PORT=" +:+ v) :: after /\
     (forced = true -> after = [cfgImageName config])) /\
  length (runArgs config)
  = 19 + 2 * length (cfgEnvVars config) + (if forced then 2 else 0).
Proof.
  intros given forced v.
  assert (Hlen : forall l : list (string * string),
    length (flat_map (fun kv : string * string => ["-e"; fst kv +:+ "=" +:+ snd kv]) l)
    = 2 * length l).
  { induction l as [|kv l IH]; simpl; [done|]. rewrite IH. lia. }
  unfold runArgs.
  match goal with |- context [?h ++ envFlagsOf _ _ ++ _] => set (head := h) end.
  assert (Hhead : length head = 18) by reflexivity.
  clearbody head. unfold envFlagsOf. fold given.
  set (flags := flat_map _ (cfgEnvVars config)).
  assert (Hflags : length flags = 2 * length (cfgEnvVars config)) by apply Hlen.
  subst forced v. destruct given as [g|] eqn:Hg; cbn [default from_option id].
  - destruct (JS.truthy g) eqn:Htruthy; cbn [negb].
    + split; [exact (proj1 (truthy_nonempty g) Htruthy)|].
      destruct (envFlag_found _ _ _ Hg) as (pre & post & Hfound).
      fold flags in Hfound. split.
      * exists (head ++ pre), (post ++ [cfgImageName config]). split; [|done].
        rewrite Hfound, <- !app_assoc. reflexivity.
      * rewrite !length_app, Hflags, Hhead. cbn [length]. lia.
    + split; [apply show_nonempty|]. split.
      * exists (head ++ flags), [cfgImageName config]. split; [|done].
        rewrite <- !app_assoc. reflexivity.
      * rewrite !length_app, Hflags, Hhead. cbn [length]. lia.
  - cbn [negb JS.truthy JS.isEmpty]. split; [apply show_nonempty|]. split.
    + exists (head ++ flags), [cfgImageName config]. split; [|done].
      rewrite <- !app_assoc. reflexivity.
    + rewrite !length_app, Hflags, Hhead. cbn [length]. lia.
Qed.

(** *** The result of a deploy *)

Lemma wp_any {A} (m : M A) (w : World) : wp m w (fun _ _ => True).
Proof. done. Qed.

Ltac wp_skip := eapply wp_mono; [apply wp_any | cbv beta].

Lemma buildImage_shape (p b dir : string) (fw : AppType) (port : N)
    (onLog : option (string -> M unit)) (w : World) :
  sink onLog ->
  wp (buildImage p b dir fw port onLog) w (fun out _ =>
    match out with
    | Resolved r => buildImageName r = getImageName p b /\
                    if buildSuccess r then buildError r = None else is_Some (buildError r)
    | Rejected _ => True
    end).
Proof.
  intros Hsink. wp_apply (buildImage_spec p b dir fw port onLog w Hsink).
  intros out w' (evs & _ & _ & Hcase).
  assert (Hrun : forall written recipe,
    buildRun p b dir written recipe w out w' evs ->
    match out with
    | Resolved r => buildImageName r = getImageName p b /\
                    if buildSuccess r then buildError r = None else is_Some (buildError r)
    | Rejected _ => True
    end).
  { intros written recipe (_ & _ & _ & ->). unfold buildResultOf.
    destruct (_ =? 0)%Z; simpl; (split; [done|]); first [done | by eexists]. }
  destruct (negb (existsIn w dir)).
  - destruct Hcase as (_ & _ & _ & ->). simpl. split; [done | by eexists].
  - destruct (files w !! join dir "Dockerfile"); [by eapply Hrun|].
    destruct (bool_decide _); [|by eapply Hrun].
    by destruct Hcase as (_ & _ & _ & msg & ->).
Qed.

Lemma runContainer_shape (config : ContainerConfig) (w : World) :
  wp (runContainer config) w (fun r _ =>
    if runSuccess r then runError r = None else is_Some (runError r)).
Proof.
  unfold runContainer. apply wp_bind. wp_skip. intros r w' _.
  destruct (negb _); wp_return; simpl; first [done | by eexists].
Qed.

(** X8.  The result of [deploy] is well formed: a success carries a
    container identifier and no error, a failure carries an error and no
    container identifier. *)
Theorem deploy_failure_carries_an_error (p b dir : string) (host : N) (app : AppType)
    (env : list (string * string)) (w : World) :
  let res := fst (deploy p b dir host app env w) in
  if success res then is_Some (containerId res) /\ error res = None
  else containerId res = None /\ is_Some (error res).
Proof.
  cbv zeta.
  change (wp (deploy p b dir host app env) w (fun res _ =>
    if success res then is_Some (containerId res) /\ error res = None
    else containerId res = None /\ is_Some (error res))).
  unfold deploy. cbv zeta.
  apply wp_bind. wp_skip. intros _ w1 _.
  apply wp_bind. wp_skip. intros _ w2 _.
  apply wp_bind. wp_skip. intros _ w3 _.
  apply wp_bind. wp_apply (buildImage_shape). { apply LogService_sink. }
  intros [r|msg] w4 Hshape.
  2:{ apply wp_bind. wp_skip. intros _ w5 _. wp_return. simpl. split; [done | by eexists]. }
  destruct Hshape as [_ Hshape]. revert Hshape.
  destruct (buildSuccess r); cbn [negb]; intros Hshape.
  2:{ apply wp_bind. wp_skip. intros _ w5 _. wp_return. by simpl. }
  apply wp_bind. wp_skip. intros _ w5 _.
  apply wp_bind. wp_apply (runContainer_shape). intros rr w6 Hrun.
  revert Hrun. destruct (runSuccess rr); cbn [negb]; intros Hrun.
  2:{ apply wp_bind. wp_skip. intros _ w7 _. wp_return. by simpl. }
  apply wp_bind. wp_skip. intros _ w7 _.
  apply wp_bind. wp_skip. intros _ w8 _.
  apply wp_bind. wp_skip. intros healthy w9 _.
  destruct healthy; cbn [negb].
  - apply wp_bind. wp_skip. intros _ w10 _.
    apply wp_bind. wp_skip. intros _ w11 _.
    apply wp_bind. wp_skip. intros _ w12 _.
    wp_return. simpl. split; [by eexists | done].
  - apply wp_bind. wp_skip. intros logs w10 _.
    apply wp_bind. wp_skip. intros _ w11 _.
    apply wp_bind. wp_skip. intros _ w12 _.
    apply wp_bind. wp_skip. intros _ w13 _.
    wp_return. simpl. split; [done | by eexists].
Qed.

(** *** Tearing a container down *)

Lemma teardownRun_effects (name : string) (td : list Event) :
  teardownRun name td -> effects td = td.
Proof. by intros [x [[_ ->]|[_ (sx & rx & ->)]]]. Qed.

Lemma stopAndRemoveContainer_full (name : string) (w : World) :
  wp (stopAndRemoveContainer name) w (fun r w' => exists x y,
    quiet w w' [EvDocker ["stop"; "-t"; "10"; name] x; EvDocker ["rm"; "-f"; name] y] /\
    r = (y =? 0)%Z).
Proof.
  unfold stopAndRemoveContainer. apply wp_bind.
  wp_apply (stopContainer_spec). intros _ w1 (x & H1).
  unfold removeContainer. apply wp_bind.
  wp_apply (execDocker_spec). intros r w2 H2. wp_return.
  exists x, (exitCode r). split; [by eapply quiet_cons | done].
Qed.

Lemma ensureContainerStopped_exact (p : string) (w : World) :
  wp (ensureContainerStopped p) w (fun _ w' => exists td,
    quiet w w' td /\ teardownRun (getContainerName p) td).
Proof.
  unfold ensureContainerStopped, containerExists. apply wp_bind, wp_bind.
  wp_apply (execDocker_spec). intros r w1 H1. wp_return.
  destruct (Z.eqb_spec (exitCode r) 0) as [Hx|Hx].
  - rewrite Hx in H1. apply wp_bind. wp_apply (stopAndRemoveContainer_full).
    intros _ w2 (x & y & H2 & _). wp_return. eexists. split.
    + by eapply quiet_cons.
    + exists 0%Z. right. split; [done|]. by exists x, y.
  - wp_return. eexists. split; [done|]. exists (exitCode r). by left.
Qed.

(** X7.  When the source directory does not exist, [deploy] fails with
    [Source directory not found], having only looked up the project's
    container and, if it was there, stopped and removed it: besides
    logging it runs no other command, writes no file and leaves the
    registry of log streams alone. *)
Theorem deploy_without_source_only_tears_down (p b dir : string) (host : N)
    (app : AppType) (env : list (string * string)) (w : World) :
  existsIn w dir = false ->
  let res := fst (deploy p b dir host app env w) in
  let w' := snd (deploy p b dir host app env w) in
  res = {| success := false; containerId := None;
           error := Some ("Source directory not found: " +:+ dir) |} /\
  files w' = files w /\ registryKept w w' /\
  exists evs, trace w' = trace w ++ evs /\ teardownRun (getContainerName p) (effects evs).
Proof.
  intros Hdir. cbv zeta.
  change (wp (deploy p b dir host app env) w (fun res w' =>
    res = {| success := false; containerId := None;
             error := Some ("Source directory not found: " +:+ dir) |} /\
    files w' = files w /\ registryKept w w' /\
    exists evs, trace w' = trace w ++ evs
                /\ teardownRun (getContainerName p) (effects evs))).
  unfold deploy. cbv zeta.
  apply wp_bind. wp_apply (LogService_stream_spec). intros _ w1 H1.
  apply wp_bind. wp_apply (ensureContainerStopped_exact p w1). intros _ w2 (td & H2 & Htd).
  apply wp_bind. wp_apply (LogService_stream_spec). intros _ w3 H3.
  pose proof (quiet_trans _ _ _ _ _ (quiet_trans _ _ _ _ _ H1 H2) H3) as H13.
  apply wp_bind.
  eapply wp_mono; [apply (buildImage_spec p b dir app (internalPortFor app) _ w3),
                     LogService_sink | cbv beta].
  intros out w4 (evs & Hst & Hck & Hcase). cbv zeta in Hcase.
  assert (Hdir3 : existsIn w3 dir = false).
  { unfold existsIn in *.
    by rewrite (quiet_files _ _ _ H13), (steps_dirs _ _ _ (quiet_steps _ _ _ H13)). }
  rewrite Hdir3 in Hcase. cbn [negb] in Hcase.
  destruct Hcase as (-> & Hfs & Hrt & ->). cbn [buildSuccess negb buildError default].
  apply wp_bind. wp_apply (LogService_stream_spec). intros _ w5 H5. wp_return.
  pose proof (steps_trans _ _ _ _ _ (steps_trans _ _ _ _ _ (quiet_steps _ _ _ H13) Hst)
                (quiet_steps _ _ _ H5)) as Hall.
  split; [done|]. split; [|split].
  - by rewrite (quiet_files _ _ _ H5), Hfs, (quiet_files _ _ _ H13).
  - by destruct Hall.
  - eexists. split; [apply (steps_trace _ _ _ Hall)|].
    rewrite !effects_app. cbn [effects List.filter isLog negb List.app].
    rewrite !app_nil_r. by rewrite (teardownRun_effects _ _ Htd).
Qed.

(** X9.  [stop] cancels the project's log stream first, if one is
    registered, and takes it out of the registry; it then stops and
    removes the container, and returns whether the removal succeeded,
    whatever became of the stop.  It announces to the log sink what it
    does only for a build identifier that is given and not empty. *)
Theorem stop_cancels_stream_then_removes (p : string) (b : option string) (w : World) :
  let r := fst (stop p b w) in
  let w' := snd (stop p b w) in
  logStreamers w' = delete p (logStreamers w) /\
  files w' = files w /\
  exists sx rx,
    r = (rx =? 0)%Z /\
    trace w'
    = trace w ++ cancelled p w
      ++ match announced b with
         | Some build => [EvLog build "Stopping container..." "info"]
         | None => []
         end
      ++ [EvDocker ["stop"; "-t"; "10"; getContainerName p] sx;
          EvDocker ["rm"; "-f"; getContainerName p] rx]
      ++ match announced b with
         | Some build => if r then [EvLog build "Container stopped" "success"] else []
         | None => []
         end.
Proof.
  cbv zeta.
  change (wp (stop p b) w (fun r w' =>
    logStreamers w' = delete p (logStreamers w) /\
    files w' = files w /\
    exists sx rx,
      r = (rx =? 0)%Z /\
      trace w'
      = trace w ++ cancelled p w
        ++ match announced b with
           | Some build => [EvLog build "Stopping container..." "info"]
           | None => []
           end
        ++ [EvDocker ["stop"; "-t"; "10"; getContainerName p] sx;
            EvDocker ["rm"; "-f"; getContainerName p] rx]
        ++ match announced b with
           | Some build => if r then [EvLog build "Container stopped" "success"] else []
           | None => []
           end)).
  unfold stop. fold (announced b).
  apply wp_bind. wp_apply (stopLogStreaming_spec p w).
  intros _ w1 (_ & Hfs1 & _ & _ & _ & Hreg1 & Hold).
  assert (Ht1 : trace w1 = trace w ++ cancelled p w).
  { unfold cancelled. destruct (logStreamers w !! p); destruct Hold as [_ ->];
      [done | by rewrite app_nil_r]. }
  apply wp_bind.
  assert (Hpre : wp (match announced b with
                     | Some b0 => LogService_stream b0 "Stopping container..." "info"
                     | None => ret tt
                     end) w1 (fun _ w2 =>
            quiet w1 w2 (match announced b with
                         | Some build => [EvLog build "Stopping container..." "info"]
                         | None => []
                         end))).
  { destruct (announced b); [apply LogService_stream_spec | apply wp_ret, quiet_refl]. }
  eapply wp_mono; [exact Hpre | cbv beta]. intros _ w2 H2.
  apply wp_bind. wp_apply (stopAndRemoveContainer_full). intros r w3 (sx & rx & H3 & Hr).
  apply wp_bind.
  assert (Hpost : wp (match announced b with
                      | Some b0 => if r then LogService_stream b0 "Container stopped" "success"
                                   else ret tt
                      | None => ret tt
                      end) w3 (fun _ w4 =>
            quiet w3 w4 (match announced b with
                         | Some build =>
                             if r then [EvLog build "Container stopped" "success"] else []
                         | None => []
                         end))).
  { destruct (announced b); [destruct r|];
      first [apply LogService_stream_spec | apply wp_ret, quiet_refl]. }
  eapply wp_mono; [exact Hpost | cbv beta]. intros _ w4 H4. wp_return.
  pose proof (quiet_trans _ _ _ _ _ (quiet_trans _ _ _ _ _ H2 H3) H4) as H24.
  split; [|split].
  - by rewrite (steps_streams _ _ _ (quiet_steps _ _ _ H24)).
  - by rewrite (quiet_files _ _ _ H24).
  - exists sx, rx. split; [done|].
    rewrite (steps_trace _ _ _ (quiet_steps _ _ _ H24)), Ht1.
    by rewrite <- !app_assoc.
Qed.

(** X10.  [cleanup] cancels the project's log stream, tears the container
    down, and then issues one forced image removal for each of the given
    build identifiers, in order and whatever the exit status of the
    others; without identifiers it removes no image. *)
Theorem cleanup_removes_the_given_images (p : string) (ids : option (list string))
    (w : World) :
  let w' := snd (cleanup p ids w) in
  logStreamers w' = delete p (logStreamers w) /\
  files w' = files w /\
  exists td removals,
    trace w' = trace w ++ cancelled p w ++ td ++ removals /\
    teardownRun (getContainerName p) td /\
    Forall2 (fun id e => exists x, e = EvDocker ["rmi"; "-f"; getImageName p id] x)
            (default [] ids) removals.
Proof.
  cbv zeta.
  change (wp (cleanup p ids) w (fun _ w' =>
    logStreamers w' = delete p (logStreamers w) /\
    files w' = files w /\
    exists td removals,
      trace w' = trace w ++ cancelled p w ++ td ++ removals /\
      teardownRun (getContainerName p) td /\
      Forall2 (fun id e => exists x, e = EvDocker ["rmi"; "-f"; getImageName p id] x)
              (default [] ids) removals)).
  unfold cleanup.
  apply wp_bind. wp_apply (stopLogStreaming_spec p w).
  intros _ w1 (_ & Hfs1 & _ & _ & _ & Hreg1 & Hold).
  assert (Ht1 : trace w1 = trace w ++ cancelled p w).
  { unfold cancelled. destruct (logStreamers w !! p); destruct Hold as [_ ->];
      [done | by rewrite app_nil_r]. }
  apply wp_bind. wp_apply (ensureContainerStopped_exact p w1). intros _ w2 (td & H2 & Htd).
  assert (Hrm : wp (match ids with
                    | Some ids0 =>
                        forEach ids0 (fun buildId =>
                          removeImage (getImageName p buildId) ;;; ret tt)
                    | None => ret tt
                    end) w2 (fun _ w3 => exists removals,
            quiet w2 w3 removals /\
            Forall2 (fun id e => exists x, e = EvDocker ["rmi"; "-f"; getImageName p id] x)
                    (default [] ids) removals)).
  { destruct ids as [ids0|]; cbn [default from_option id].
    - apply forEach_quiet. intros buildId w0. apply wp_bind.
      wp_apply (removeImage_spec). intros _ w3 (x & H3). wp_return.
      eexists. split; [exact H3 | by exists x].
    - wp_return. exists []. split; [apply quiet_refl | constructor]. }
  eapply wp_mono; [exact Hrm | cbv beta]. intros _ w3 (removals & H3 & Hrem).
  pose proof (quiet_trans _ _ _ _ _ H2 H3) as H23.
  split; [|split].
  - by rewrite (steps_streams _ _ _ (quiet_steps _ _ _ H23)).
  - by rewrite (quiet_files _ _ _ H23).
  - exists td, removals. split; [|done].
    rewrite (steps_trace _ _ _ (quiet_steps _ _ _ H23)), Ht1.
    by rewrite <- !app_assoc.
Qed.

(** *** The polls of the health check *)

Lemma pollEventsFrom_fetches (port : N) (n : nat) (rt : Runtime) (t : Z) :
  length (List.filter isFetch (pollEventsFrom port n rt t)) = n /\
  Forall (fun e => e = EvSleep 500 \/ exists a, e = EvFetch port a)
         (pollEventsFrom port n rt t).
Proof.
  revert rt t. induction n as [|n IH]; intros rt t; [by split|].
  cbn [pollEventsFrom]. destruct (fetch port t rt) as [o rt'].
  destruct (IH rt' (t + Z.of_N (took o) + 500)%Z) as [Hlen Hall].
  split; [simpl; by rewrite Hlen|].
  constructor; [right; by eexists|]. constructor; [by left | done].
Qed.

(** X11.  The health check only polls the given port and sleeps 500 ms.
    A poll is issued only within the timeout, and the polls are at least
    500 ms apart: for [k] polls, [500 * (k - 1)] is below the timeout.
    With a timeout that is not positive it does not poll at all and
    returns [false] at once. *)
Theorem health_check_poll_budget (port : N) (timeoutMs : Z) (w : World) :
  let healthy := fst (waitForHealthy port timeoutMs w) in
  let w' := snd (waitForHealthy port timeoutMs w) in
  exists evs,
    trace w' = trace w ++ evs /\
    Forall (fun e => e = EvSleep 500 \/ exists a, e = EvFetch port a) evs /\
    (500 * (Z.of_nat (length (List.filter isFetch evs)) - 1) < Z.max timeoutMs 0)%Z /\
    ((timeoutMs <= 0)%Z -> evs = [] /\ healthy = false /\ clock w' = clock w).
Proof.
  intros healthy w'.
  pose proof (waitForHealthy_spec port timeoutMs w) as H. unfold wp in H.
  fold healthy w' in H. destruct H as (_ & n & Hst & _ & Hbefore & Hres).
  destruct (pollEventsFrom_fetches port n (runtime w) (clock w)) as [Hlen Hall].
  fold (pollEvents port n w) in Hlen, Hall.
  eexists. split; [apply (steps_trace _ _ _ Hst)|].
  pose proof (pollTime_ge port n w) as Hn.
  destruct healthy.
  - destruct Hres as (Hin & _ & _).
    split; [|split].
    + apply Forall_app. split; [done|]. constructor; [right; by eexists | constructor].
    + rewrite List.filter_app, length_app, Hlen. simpl. lia.
    + intros Hneg. lia.
  - destruct Hres as [Hout Hck].
    assert (Hbound : (500 * (Z.of_nat n - 1) < Z.max timeoutMs 0)%Z).
    { destruct n as [|m]; [lia|].
      destruct (Hbefore m ltac:(lia)) as [Hin _].
      pose proof (pollTime_ge port m w). lia. }
    split; [|split].
    + by rewrite app_nil_r.
    + by rewrite app_nil_r, Hlen.
    + intros Hneg. assert (n = 0) as -> by lia.
      split; [done|]. split; [done|]. by rewrite Hck.
Qed.

(** *** Pruning *)

(** X12.  When the listing of the project's images exits non-zero, or
    lists no more images than the retention count (none, in particular),
    [pruneProjectImages] removes nothing: the listing is the only command
    it runs. *)
Theorem prune_within_retention_removes_nothing (p : string) (keepCount : nat)
    (imgs : list Image) (w : World) :
  let listing :=
    ["images"; "--format"; "{{.Repository}}:{{.Tag}} {{.CreatedAt}}";
     "--filter"; "reference=thakur-deploy/" +:+ JS.slice0 8 p +:+ ":*"] in
  let ran := fst (docker listing (files w) (runtime w)) in
  let w' := snd (pruneProjectImages p keepCount w) in
  exitOf ran <> 0%Z \/
  (printed ran = printedLines (map imageLine imgs) /\ JS.isAscii (printed ran) = true /\
   forallb wellListed imgs = true /\ length imgs <= keepCount) ->
  trace w' = trace w ++ [EvDocker listing (exitOf ran)] /\ files w' = files w.
Proof.
  intros listing ran w' Hcase. change listing with (imagesArgs p) in *.
  destruct (Z.eq_dec (exitOf ran) 0%Z) as [Hx|Hx].
  - destruct Hcase as [Hno|(Hout & _ & Hall & Hlen)]; [done|].
    destruct (prune_printed_listing p keepCount imgs w Hx Hout Hall)
      as (removals & Ht & Hfs & Hrem).
    rewrite drop_ge in Hrem by by rewrite (Permutation_length (sortImages_perm imgs)).
    inversion Hrem; subst. fold w' in Ht, Hfs. by rewrite Hx.
  - pose proof (pruneProjectImages_spec p keepCount w) as H. unfold wp in H. cbv zeta in H.
    fold w' in H. destruct H as (removals & Hq & Hrem).
    change (fst (docker (imagesArgs p) (files w) (runtime w))) with ran in Hq, Hrem.
    rewrite exitCode_buffered in Hq, Hrem.
    destruct (Z.eqb_spec (exitOf ran) 0) as [|_]; [done|]. cbn [negb orb] in Hrem.
    inversion Hrem; subst.
    split; [apply (steps_trace _ _ _ (quiet_steps _ _ _ Hq)) | apply (quiet_files _ _ _ Hq)].
Qed.

(** *** Recovering the log streams *)

Lemma recover_each (l : list ManagedContainer) (w : World) :
  wp (forEach l (fun c => startLogStreaming (projectId c) (buildId c))) w (fun _ w' =>
    nextHandle w' = length l + nextHandle w /\
    (forall m, In m l -> exists h,
       logStreamers w' !! projectId m = Some h /\ nextHandle w <= h < nextHandle w') /\
    (forall q, ~ In q (map projectId l) -> logStreamers w' !! q = logStreamers w !! q)).
Proof.
  revert w. induction l as [|c l IH]; intros w.
  - wp_return. split; [done|]. split; [by intros m []|done].
  - cbn [forEach]. apply wp_bind.
    wp_apply (startLogStreaming_spec (projectId c) (buildId c) w).
    intros _ w1 (_ & _ & _ & _ & Hn1 & Hreg1 & _).
    wp_apply (IH w1). intros _ w' (Hn & Hin & Hout).
    split; [simpl; lia|]. split.
    + assert (Hrest : forall m, In m l -> exists h,
                logStreamers w' !! projectId m = Some h /\ nextHandle w <= h < nextHandle w').
      { intros m Hm. destruct (Hin m Hm) as (h & Hh & Hle). exists h. split; [done|lia]. }
      intros m [<-|Hm]; [|by apply Hrest].
      destruct (in_dec string_dec (projectId c) (map projectId l)) as [Hdup|Hnew].
      * apply in_map_iff in Hdup as (m' & <- & Hm'). by apply Hrest.
      * exists (nextHandle w). rewrite (Hout _ Hnew), Hreg1, lookup_insert_eq.
        split; [done|lia].
    + intros q Hq. simpl in Hq.
      rewrite Hout by tauto. rewrite Hreg1. apply lookup_insert_ne. tauto.
Qed.

(** X13.  [recoverLogStreams] starts one stream for each container of
    the listing: afterwards every listed project is registered with a
    handle that was given out during the recovery, and the registry entry
    of every other project is as before. *)
Theorem recovery_registers_every_listed_project (w : World) :
  let listed := fst (listRunningContainers w) in
  let w' := snd (recoverLogStreams w) in
  nextHandle w' = length listed + nextHandle w /\
  (forall m, In m listed -> exists h,
     logStreamers w' !! projectId m = Some h /\ nextHandle w <= h < nextHandle w') /\
  (forall q, ~ In q (map projectId listed) -> logStreamers w' !! q = logStreamers w !! q).
Proof.
  intros listed.
  pose proof (listRunningContainers_spec w) as Hlist.
  unfold wp in Hlist. cbv zeta in Hlist. destruct Hlist as [_ Hlisted]. fold listed in Hlisted.
  cbv zeta.
  change (wp recoverLogStreams w (fun _ w' =>
    nextHandle w' = length listed + nextHandle w /\
    (forall m, In m listed -> exists h,
       logStreamers w' !! projectId m = Some h /\ nextHandle w <= h < nextHandle w') /\
    (forall q, ~ In q (map projectId listed) -> logStreamers w' !! q = logStreamers w !! q))).
  unfold recoverLogStreams, console_log.
  apply wp_bind. wp_apply (emit_full). intros _ w1 [H1 Hrt].
  apply wp_bind. wp_apply (listRunningContainers_spec w1). intros l w2 [H2 Hl].
  rewrite (quiet_files _ _ _ H1), Hrt, <- Hlisted in Hl. subst l.
  pose proof (quiet_steps _ _ _ (quiet_trans _ _ _ _ _ H1 H2)) as [_ Hreg _ Hnext _].
  apply wp_bind. wp_apply (recover_each listed w2). intros _ w3 (Hn & Hin & Hout).
  wp_apply (emit_spec). intros _ w4 [[_ Hreg4 _ Hnext4 _] _ _].
  rewrite Hreg4, Hnext4. rewrite Hreg, Hnext in *. done.
Qed.

(** *** Reading the runtime's answers back *)

(** X14.  When the runtime's listing exits 0 and prints one line per
    container, with name and the two labels separated by one space, each
    of them non-empty, in ASCII and without white space, and every line
    ended by a newline, [listRunningContainers] returns exactly these
    containers, in order. *)
Theorem listing_reads_back_labelled_containers (ms : list ManagedContainer) (w : World) :
  let listing :=
    ["ps"; "--format";
     "{{.Names}} {{.Label " +:+ JS.dq +:+ "thakur.projectId" +:+ JS.dq
       +:+ "}} {{.Label " +:+ JS.dq +:+ "thakur.buildId" +:+ JS.dq +:+ "}}";
     "--filter"; "label=thakur.projectId"] in
  let ran := fst (docker listing (files w) (runtime w)) in
  exitOf ran = 0%Z -> printed ran = printedLines (map psLine ms) ->
  JS.isAscii (printed ran) = true ->
  forallb labelled ms = true ->
  fst (listRunningContainers w) = ms.
Proof.
  intros listing ran Hx Hout _ Hms. change listing with psArgs in *.
  pose proof (listRunningContainers_spec w) as H. unfold wp in H. cbv zeta in H.
  change (fst (docker psArgs (files w) (runtime w))) with ran in H.
  destruct H as [_ ->]. rewrite exitCode_buffered, stdout_buffered, Hx, Hout.
  cbn [Z.eqb]. rewrite trim_printedLines.
  - by apply parseContainerList_psLines.
  - apply List.Forall_forall. intros l (m & <- & Hm)%in_map_iff.
    rewrite forallb_forall in Hms. by apply psLine_tight, Hms.
Qed.

(** X15.  When the image listing exits 0 and prints one line per image,
    the reference followed by its creation time, in ASCII and every line
    ended by a newline, pruning with any retention count keeps that many
    of the listed images (all, when there are fewer) and removes each of
    the others once, whatever the creation times are and whether or not
    they are valid dates: the images kept and removed are the listed
    ones. *)
Theorem prune_reads_back_the_listing (p : string) (keepCount : nat)
    (imgs : list Image) (w : World) :
  let listing :=
    ["images"; "--format"; "{{.Repository}}:{{.Tag}} {{.CreatedAt}}";
     "--filter"; "reference=thakur-deploy/" +:+ JS.slice0 8 p +:+ ":*"] in
  let ran := fst (docker listing (files w) (runtime w)) in
  let w' := snd (pruneProjectImages p keepCount w) in
  exitOf ran = 0%Z -> printed ran = printedLines (map imageLine imgs) ->
  JS.isAscii (printed ran) = true ->
  forallb wellListed imgs = true ->
  exists kept removed removals,
    Permutation (kept ++ removed) imgs /\
    length kept = Nat.min keepCount (length imgs) /\
    trace w' = trace w ++ EvDocker listing 0 :: removals /\
    Forall2 (fun img e => exists x, e = EvDocker ["rmi"; "-f"; imgName img] x)
            removed removals.
Proof.
  intros listing ran w' Hx Hout _ Hall. change listing with (imagesArgs p) in *.
  destruct (prune_printed_listing p keepCount imgs w Hx Hout Hall)
    as (removals & Ht & _ & Hrem).
  exists (take keepCount (sortImages imgs)), (drop keepCount (sortImages imgs)), removals.
  rewrite take_drop, length_take, (Permutation_length (sortImages_perm imgs)).
  split; [apply sortImages_perm|]. done.
Qed.

(** X16.  [isRunning] is [false] when inspecting the project's container
    exits non-zero.  When the inspection exits 0 and prints identifier and
    status, two ASCII words separated by one space, and a newline,
    [getContainerInfo] returns both as printed, and [isRunning] holds
    exactly when the status is [running]. *)
Theorem isRunning_reads_the_status (p id st : string) (w : World) :
  let name := getContainerName p in
  let ran := fst (docker ["inspect"; "--format"; "{{.Id}} {{.State.Status}}"; name]
                         (files w) (runtime w)) in
  (exitOf ran <> 0%Z ->
     fst (getContainerInfo name w) = None /\ fst (isRunning p w) = false) /\
  (exitOf ran = 0%Z -> printed ran = printedLines [id +:+ " " +:+ st] ->
   JS.isAscii (printed ran) = true -> word id = true -> word st = true ->
     fst (getContainerInfo name w)
     = Some {| infoId := id; infoName := name; infoStatus := st |} /\
     fst (isRunning p w) = String.eqb st "running").
Proof.
  intros name ran. set (r := buffered ran).
  assert (Hinfo : wp (getContainerInfo name) w (fun info _ =>
    info = if negb (exitCode r =? 0)%Z then None
           else Some {| infoId := nth 0 (JS.split " " (stdout r)) "";
                        infoName := name;
                        infoStatus := nth 1 (JS.split " " (stdout r)) "" |})).
  { unfold getContainerInfo. apply wp_bind.
    eapply wp_mono; [apply execDocker_full | cbv beta].
    intros r0 w1 (_ & -> & _). fold name ran r.
    destruct (negb _); by wp_return. }
  assert (Hrun : fst (isRunning p w)
                 = match fst (getContainerInfo name w) with
                   | Some i => String.eqb (infoStatus i) "running"
                   | None => false
                   end).
  { unfold isRunning, isContainerRunning, bind. fold name.
    by destruct (getContainerInfo name w). }
  unfold wp in Hinfo. rewrite Hrun, Hinfo. subst r.
  rewrite exitCode_buffered, stdout_buffered. split.
  - intros Hx. by destruct (Z.eqb_spec (exitOf ran) 0).
  - intros Hx Hout _ Hid Hst. rewrite Hx, Hout. cbn [Z.eqb negb].
    rewrite (trim_printedLines [id +:+ " " +:+ st]).
    2:{ constructor; [|constructor].
        destruct (word_tight _ Hst) as [_ Hend].
        apply tight_app; [by apply word_head | | done].
        change (" " +:+ st) with (String " " st). cbn [JS.trimEnd]. rewrite Hend.
        destruct (word_head _ Hst) as (a & r & -> & _). by rewrite andb_false_r. }
    cbn [JS.join].
    change (" " +:+ st) with (String " " st).
    unfold word in Hid, Hst.
    apply andb_true_iff in Hid as [_ Hid]. apply andb_true_iff in Hst as [_ Hst].
    rewrite split_app_clean, (split_clean _ st) by by apply noSpace_contains.
    done.
Qed.

(** *** The registry of log streams, again *)

Lemma world_eq (a b : World) :
  runtime a = runtime b -> files a = files b -> dirs a = dirs b ->
  logStreamers a = logStreamers b -> active a = active b ->
  nextHandle a = nextHandle b -> clock a = clock b -> trace a = trace b -> a = b.
Proof. destruct a, b. simpl. by intros -> -> -> -> -> -> -> ->. Qed.

(** X18.  Stopping the log stream of a project twice is the same as
    stopping it once; afterwards the project has no registry entry, and
    the entries of the other projects are untouched. *)
Theorem stopLogStreaming_idempotent (p : string) (w : World) :
  let w1 := snd (stopLogStreaming p w) in
  snd (stopLogStreaming p w1) = w1 /\
  logStreamers w1 !! p = None /\
  (forall q, q <> p -> logStreamers w1 !! q = logStreamers w !! q).
Proof.
  intros w1.
  pose proof (stopLogStreaming_spec p w) as H1. unfold wp in H1. fold w1 in H1.
  destruct H1 as (_ & _ & _ & _ & _ & Hreg1 & _).
  assert (Hgone : logStreamers w1 !! p = None) by (rewrite Hreg1; apply lookup_delete_eq).
  pose proof (stopLogStreaming_spec p w1) as H2. unfold wp in H2.
  rewrite Hgone in H2. destruct H2 as (Hrt & Hfs & Hds & Hck & Hnx & Hreg2 & Hact & Htr).
  split; [|split; [done|]].
  - apply world_eq; try done. rewrite Hreg2. by apply delete_id.
  - intros q Hq. rewrite Hreg1. by apply lookup_delete_ne.
Qed.

Lemma filter_none {A} (f : A -> bool) (P : A -> Prop) (l : list A) :
  (forall x, P x -> f x = false) -> Forall P l -> List.filter f l = [].
Proof.
  intros HP H. induction H as [|x l Hx _ IH]; [done|].
  simpl. by rewrite (HP x Hx).
Qed.

Lemma filter_spawn_effects (evs : list Event) :
  List.filter isSpawn evs = List.filter isSpawn (effects evs).
Proof.
  induction evs as [|e evs IH]; [done|].
  unfold effects in *. simpl. destruct e; simpl; by rewrite IH.
Qed.

(** X19.  [deploy] starts a log stream exactly when it succeeds: a
    successful deploy spawns one stream, for the project's container, and
    registers its handle; a failed deploy spawns none and leaves the
    registry as it was. *)
Theorem deploy_registers_a_stream_only_on_success (p b dir : string) (host : N)
    (app : AppType) (env : list (string * string)) (w : World) :
  let res := fst (deploy p b dir host app env w) in
  let w' := snd (deploy p b dir host app env w) in
  exists evs,
    trace w' = trace w ++ evs /\
    List.filter isSpawn evs
    = (if success res then [EvSpawnLogs (nextHandle w) (getContainerName p) b] else []) /\
    (success res = false -> registryKept w w') /\
    (success res = true ->
       logStreamers w' = <[p := nextHandle w]> (logStreamers w) /\
       nextHandle w' = S (nextHandle w)).
Proof.
  cbv zeta. pose proof (deploy_spec p b dir host app env w) as H. unfold wp in H.
  destruct H as (evs & Htrace & _ & Hrun). exists evs. split; [exact Htrace|].
  rewrite filter_spawn_effects.
  assert (Htd : forall td, Forall (teardownEvent (getContainerName p)) td ->
                           List.filter isSpawn td = []).
  { intros td H0. eapply filter_none; [|exact H0]. by intros e [x [->|[->| ->]]]. }
  assert (Hrec : forall recipe, Forall (recipeWrite (join dir "Dockerfile")) recipe ->
                                List.filter isSpawn recipe = []).
  { intros recipe H0. eapply filter_none; [|exact H0]. by intros e [c ->]. }
  assert (Hpoll : forall polls, Forall (unansweredPoll host) polls ->
                                List.filter isSpawn polls = []).
  { intros polls H0. eapply filter_none; [|exact H0]. by intros e [->|(a & -> & _)]. }
  destruct Hrun as
    [ td Htds Hfx Hres Hkept
    | td recipe x' Htds Hrecs Hfx Hx Hres Hkept
    | td recipe y Htds Hrecs Hfx Hy Hres Hkept
    | td recipe polls before lx sx rx logs Htds Hrecs Hpolls Hfx Hevs Hclock Hres Hkept
    | td recipe polls removals answer ix id Htds Hrecs Hpolls Hans Hrem Hfx Hres Hreg Hnx Hact ];
    rewrite Hfx, ?Hres; cbn [success]; rewrite ?List.filter_app, (Htd _ Htds).
  - split; [done|]. split; [done|]. intros Hyes. congruence.
  - rewrite (Hrec _ Hrecs). split; [done|]. split; [done|]. intros Hyes. congruence.
  - rewrite (Hrec _ Hrecs). split; [done|]. split; [done|]. intros Hyes. congruence.
  - rewrite (Hrec _ Hrecs), (Hpoll _ Hpolls). split; [done|]. split; [done|]. done.
  - assert (Hrm : List.filter isSpawn removals = []).
    { eapply filter_none; [|exact Hrem]. by intros e (name & x & ->). }
    rewrite (Hrec _ Hrecs), (Hpoll _ Hpolls), Hrm.
    split; [by destruct (logStreamers w !! p)|]. split; [done|]. done.
Qed.

End More.

(** ** The further properties at work on the samples *)

Lemma sanitize_sets_port_before_command_witness :
  exists pre post,
    JS.split JS.nl (sanitizeDockerfile Samples.plainRecipe 3000)
    = pre ++ ("ENV PORT=" +:+ JS.show 3000) :: post /\
    pre ++ post
    = map (sanitizeLine 3000) (JS.split JS.nl Samples.plainRecipe)
      ++ (if existsb isExposeLine (JS.split JS.nl Samples.plainRecipe) then []
          else ["EXPOSE " +:+ JS.show 3000]) /\
    forallb (fun l => negb (isCmdLine l)) pre = true /\
    match post with [] => True | c :: _ => isCmdLine c = true end.
Proof.
  apply (sanitize_sets_port_before_command Samples.plainRecipe 3000).
  vm_compute. reflexivity.
Defined.

Lemma synthesised_recipe_passes_sanitiser_witness :
  sanitizeDockerfile
    (getDockerfileContent express 3000
       (entryFor (E := Demo.up) "/tmp/src" (Demo.world Demo.up tt Demo.sourceTree))) 3000
  = getDockerfileContent express 3000
      (entryFor (E := Demo.up) "/tmp/src" (Demo.world Demo.up tt Demo.sourceTree)).
Proof.
  apply (synthesised_recipe_passes_sanitiser (E := Demo.up) express 3000 "/tmp/src"
           (Demo.world Demo.up tt Demo.sourceTree)).
  discriminate.
Defined.

Lemma deploy_without_source_only_tears_down_witness :
  fst (deploy (E := Demo.up) "proj-aaaa1111" "bld-bbbb2222" "/nowhere" 8080 express []
         (Demo.world Demo.up tt Demo.sourceTree))
  = {| success := false; containerId := None;
       error := Some ("Source directory not found: " +:+ "/nowhere") |}.
Proof.
  apply (deploy_without_source_only_tears_down (E := Demo.up)
           "proj-aaaa1111" "bld-bbbb2222" "/nowhere" 8080 express []
           (Demo.world Demo.up tt Demo.sourceTree)).
  vm_compute. reflexivity.
Defined.

Lemma prune_within_retention_removes_nothing_witness :
  trace (snd (pruneProjectImages (E := Samples.three) "proj-aaaa1111" 3
                (Demo.world Samples.three tt Demo.sourceTree)))
  = [EvDocker ["images"; "--format"; "{{.Repository}}:{{.Tag}} {{.CreatedAt}}";
               "--filter"; "reference=thakur-deploy/proj-aaa:*"] 0].
Proof.
  apply (prune_within_retention_removes_nothing (E := Samples.three) "proj-aaaa1111" 3
           Samples.threeListed (Demo.world Samples.three tt Demo.sourceTree)).
  right. split; [reflexivity|]. split; [reflexivity|]. split; [reflexivity|].
  simpl. lia.
Defined.

Lemma listing_reads_back_labelled_containers_witness :
  fst (listRunningContainers (E := Samples.tidy) (Demo.world Samples.tidy tt Demo.sourceTree))
  = Samples.managed.
Proof.
  apply (listing_reads_back_labelled_containers (E := Samples.tidy) Samples.managed
           (Demo.world Samples.tidy tt Demo.sourceTree));
    vm_compute; reflexivity.
Defined.

Lemma prune_reads_back_the_listing_witness :
  let w := Demo.world Demo.up tt Demo.sourceTree in
  exists kept removed removals,
    Permutation (kept ++ removed) Samples.fiveListed /\
    length kept = 3 /\
    trace (snd (pruneProjectImages (E := Demo.up) "proj-aaaa1111" 3 w))
    = trace w
      ++ EvDocker ["images"; "--format"; "{{.Repository}}:{{.Tag}} {{.CreatedAt}}";
                   "--filter"; "reference=thakur-deploy/proj-aaa:*"] 0 :: removals /\
    Forall2 (fun img e => exists x, e = EvDocker ["rmi"; "-f"; imgName img] x)
            removed removals.
Proof.
  intros w.
  apply (prune_reads_back_the_listing (E := Demo.up) "proj-aaaa1111" 3 Samples.fiveListed w);
    reflexivity.
Defined.

Lemma isRunning_reads_the_status_witness :
  fst (isRunning (E := Samples.tidy) "proj-aaaa1111"
         (Demo.world Samples.tidy tt Demo.sourceTree)) = true.
Proof.
  apply (isRunning_reads_the_status (E := Samples.tidy) "proj-aaaa1111" "c0ffee" "running"
           (Demo.world Samples.tidy tt Demo.sourceTree));
    vm_compute; reflexivity.
Defined.

Lemma allowed_subdomain_characters_witness :
  allChars isHostChar (JS.trim " My-App1 ") = true.
Proof.
  apply (allowed_subdomain_characters " My-App1 "); vm_compute; reflexivity.
Defined.

Lemma sanitize_leaves_no_root_user_witness :
  In "USER  root" (JS.split JS.nl (sanitizeDockerfile Samples.spacedRootRecipe 3000)).
Proof.
  destruct (sanitize_leaves_no_root_user Samples.spacedRootRecipe 3000 eq_refl) as [_ H].
  apply H; vm_compute; tauto.
Defined.

Lemma sanitize_drops_no_line_witness :
  exists pre post,
    map (sanitizeLine 3000) (JS.split JS.nl Samples.plainRecipe) ++ ["EXPOSE 3000"]
    = pre ++ post /\
    JS.split JS.nl (sanitizeDockerfile Samples.plainRecipe 3000)
    = pre ++ "ENV PORT=3000" :: post.
Proof.
  destruct (sanitize_drops_no_line Samples.plainRecipe 3000 eq_refl) as [_ H].
  exact H.
Defined.

Lemma createConfig_writes_then_reloads_witness :
  NginxService.past
    (snd (NginxService.createConfig (H := Samples.okHost) "blog" 3001 Samples.emptySite))
  = [HvWrite "/etc/nginx/platform-sites/blog.conf"
       (NginxService.generateConfig (H := Samples.okHost) "blog" 3001);
     HvReload (Some 0%Z)].
Proof.
  destruct (createConfig_writes_then_reloads (H := Samples.okHost)
              "blog" 3001 Samples.emptySite) as (evs & Hpast & _ & _ & Hok).
  destruct Hok as (_ & Hevs & _); [vm_compute; reflexivity|].
  rewrite Hpast, Hevs. reflexivity.
Defined.

Lemma removeConfig_undoes_createConfig_witness :
  NginxService.confs
    (snd (NginxService.removeConfig (H := Samples.okHost) "blog"
            (snd (NginxService.createConfig (H := Samples.okHost) "blog" 3001
                    Samples.emptySite))))
  = NginxService.confs Samples.emptySite.
Proof.
  apply (removeConfig_undoes_createConfig (H := Samples.okHost)
           "blog" 3001 Samples.emptySite);
    vm_compute; reflexivity.
Defined.

Lemma formatDate_reads_the_distance_witness :
  formatDate Demo.parseMillis (fun _ => "Jan 1") 1000000000 (Some "1691200000")
  = formatDate Demo.parseMillis (fun _ => "Jan 1") 1000000000 (Some "308800000").
Proof.
  apply (formatDate_reads_the_distance Demo.parseMillis (fun _ => "Jan 1")
           1000000000 691200000 "308800000" "1691200000");
    vm_compute; first [reflexivity | discriminate].
Defined.

Lemma start_script_decides_the_command_witness :
  last (JS.split JS.nl
          (getDockerfileContent express 3000
             (entryFor (E := Demo.up) "/tmp/src" (Demo.world Demo.up tt Demo.sourceTree))))
  = Some (bunRun "src/index.ts").
Proof.
  destruct (start_script_decides_the_command (E := Demo.up) express 3000 "/tmp/src"
              (Demo.world Demo.up tt Demo.sourceTree)) as (_ & _ & Hlast).
  rewrite Hlast by discriminate. vm_compute. reflexivity.
Defined.
